(** * BCDI: preprocessing and postprocessing of Bragg coherent diffraction data

    A shallow embedding of the parts of [bcdi/preprocessing/bcdi_utils.py]
    (class [PeakFinder], [center_fft], [zero_pad], the two regridders) and of
    [bcdi/postprocessing/process_scan.py] that the specification talks about,
    together with the properties of the specification stated on it.

    Conventions.  Python exceptions are values of [exn] and a call that may
    raise returns a [result].  A numpy array of three dimensions is a shape
    and a buffer in C order, as numpy stores it.  Array entries are exact
    rationals; the non-finite floats that numpy produces on a division by
    zero are the extra constructors of [pyfloat]. *)

From Stdlib Require Import ZArith Zdivisibility QArith Qabs Qround Qminmax.
From Stdlib Require Import List String Lia Bool.
From stdpp Require Import base option list gmap strings.

Local Open Scope Z_scope.

(** ** Python values: exceptions, indexing, slices, floats *)

Module Py.

Inductive exn : Type :=
| ValueError (msg : string)
| IndexError
| KeyError (key : string)
| TypeError
| ZeroDivisionError
| OverflowError.

Inductive result (A : Type) : Type :=
| Ok (a : A)
| Raise (e : exn).

Arguments Ok {A} a.
Arguments Raise {A} e.

#[global] Instance result_bind : MBind result :=
  fun A B f m => match m with Ok a => f a | Raise e => Raise e end.

Definition is_ok {A} (r : result A) : bool :=
  match r with Ok _ => true | Raise _ => false end.

(** [l[i]] for a Python sequence: a negative index counts from the end. *)
Definition getitem {A} (l : list A) (i : Z) : result A :=
  let n := Z.of_nat (length l) in
  let j := if i <? 0 then i + n else i in
  if (0 <=? j) && (j <? n)
  then match l !! Z.to_nat j with Some a => Ok a | None => Raise IndexError end
  else Raise IndexError.

(** A slice bound of [start:stop] on an axis of length [n], as
    [slice.indices] normalises it. *)
Definition slice_bound (n i : Z) : Z :=
  if i <? 0 then Z.max 0 (i + n) else Z.min i n.

(** First index and length selected by [start:stop] on an axis of length [n]. *)
Definition slice_indices (n start stop : Z) : Z * Z :=
  let s := slice_bound n start in
  let e := slice_bound n stop in
  (s, Z.max 0 (e - s)).

Definition slice {A} (l : list A) (start stop : Z) : list A :=
  let '(s, len) := slice_indices (Z.of_nat (length l)) start stop in
  take (Z.to_nat len) (drop (Z.to_nat s) l).

(** [a // b] on Python integers. *)
Definition floordiv (a b : Z) : result Z :=
  if b =? 0 then Raise ZeroDivisionError else Ok (a / b).

(** [a / b] on Python integers: the exact quotient, as a float. *)
Definition truediv (a b : Z) : result Q :=
  if b =? 0 then Raise ZeroDivisionError
  else Ok (inject_Z a / inject_Z b)%Q.

(** Floats: a finite value, or what numpy returns on a division by zero. *)
Inductive pyfloat : Type :=
| Fin (q : Q)
| PInf
| NInf
| NaN.

(** numpy's [a / b] on floats: no exception, a non-finite value instead. *)
Definition np_div (a b : Q) : pyfloat :=
  if Qeq_bool b 0 then
    match (a ?= 0)%Q with Eq => NaN | Gt => PInf | Lt => NInf end
  else Fin (a / b)%Q.

(** Rounding to the nearest integer, ties to the even one ([np.rint] and
    Python's [round] on a float). *)
Definition rint (q : Q) : Z :=
  let fl := Qfloor q in
  match (q - inject_Z fl ?= 1 # 2)%Q with
  | Lt => fl
  | Gt => fl + 1
  | Eq => if Z.even fl then fl else fl + 1
  end.

(** [int(np.rint(x))] and [int(round(x))]. *)
Definition int_rint (x : pyfloat) : result Z :=
  match x with
  | Fin q => Ok (rint q)
  | NaN => Raise (ValueError "cannot convert float NaN to integer")
  | PInf | NInf => Raise OverflowError
  end.

(** [int(x)] on a finite float: truncation towards zero. *)
Definition int_trunc (q : Q) : Z := Z.quot (Qnum q) (Z.pos (Qden q)).

Definition seqZ (n : Z) : list Z := map Z.of_nat (seq 0 (Z.to_nat n)).

Definition Qsum (l : list Q) : Q := fold_right Qplus 0%Q l.

End Py.

Import Py.

(** ** numpy arrays of three dimensions *)

Module Np.

Record ndarray : Type := mk_ndarray {
  nz : Z;
  ny : Z;
  nx : Z;
  buf : list Q
}.

Definition shape (a : ndarray) : Z * Z * Z := (nz a, ny a, nx a).

Definition wf (a : ndarray) : Prop :=
  0 <= nz a /\ 0 <= ny a /\ 0 <= nx a /\
  Z.of_nat (length (buf a)) = nz a * ny a * nx a.

(** The entry at a position inside the array. *)
Definition item (a : ndarray) (z y x : Z) : Q :=
  nth (Z.to_nat ((z * ny a + y) * nx a + x)) (buf a) 0%Q.

(** The array of shape [(sz, sy, sx)] whose entry at [(z, y, x)] is [f z y x]. *)
Definition tabulate (sz sy sx : Z) (f : Z -> Z -> Z -> Q) : ndarray :=
  mk_ndarray (Z.max 0 sz) (Z.max 0 sy) (Z.max 0 sx)
    (flat_map (fun z => flat_map (fun y => map (f z y) (seqZ sx)) (seqZ sy))
       (seqZ sz)).

Definition axis_index (n i : Z) : result Z :=
  let j := if i <? 0 then i + n else i in
  if (0 <=? j) && (j <? n) then Ok j else Raise IndexError.

(** [a[z, y, x]] *)
Definition getitem3 (a : ndarray) (z y x : Z) : result Q :=
  z' ← axis_index (nz a) z;
  y' ← axis_index (ny a) y;
  x' ← axis_index (nx a) x;
  Ok (item a z' y' x').

(** [a[z0:z1, y0:y1, x0:x1]] *)
Definition slice3 (a : ndarray) (zs ys xs : Z * Z) : ndarray :=
  let '(z0, lz) := slice_indices (nz a) zs.1 zs.2 in
  let '(y0, ly) := slice_indices (ny a) ys.1 ys.2 in
  let '(x0, lx) := slice_indices (nx a) xs.1 xs.2 in
  tabulate lz ly lx (fun z y x => item a (z0 + z) (y0 + y) (x0 + x)).

(** The bounds of the full slice [:] on an axis of length [n]. *)
Definition full (n : Z) : Z * Z := (0, n).

Definition Qabs_lt (a b : Q) : bool := negb (Qle_bool (Qabs b) (Qabs a)).

(** [abs(l).argmax()] on a flat buffer: the first position of the largest
    modulus; numpy raises on an empty array. *)
Fixpoint argmax_from (l : list Q) (i : Z) (best : Q) (besti : Z) : Z :=
  match l with
  | [] => besti
  | v :: l' =>
      if Qabs_lt best v then argmax_from l' (i + 1) v i
      else argmax_from l' (i + 1) best besti
  end.

Definition argmax_abs (l : list Q) : result Z :=
  match l with
  | [] => Raise (ValueError "attempt to get argmax of an empty sequence")
  | v :: l' => Ok (argmax_from l' 1 v 0)
  end.

(** [np.unravel_index(i, a.shape)] for a position of the buffer. *)
Definition unravel_index (i : Z) (a : ndarray) : Z * Z * Z :=
  (i / (ny a * nx a), (i / nx a) mod ny a, i mod nx a).

(** [scipy.ndimage.center_of_mass] of a 3D array: the sums of the entries
    weighted by each coordinate, over the sum of the entries. *)
Definition center_of_mass (a : ndarray) : pyfloat * pyfloat * pyfloat :=
  let normalizer := Qsum (buf a) in
  let moment (coord : Z -> Z -> Z -> Z) : Q :=
    Qsum (flat_map (fun z => flat_map (fun y =>
      map (fun x => item a z y x * inject_Z (coord z y x))%Q (seqZ (nx a)))
        (seqZ (ny a))) (seqZ (nz a))) in
  (np_div (moment (fun z _ _ => z)) normalizer,
   np_div (moment (fun _ y _ => y)) normalizer,
   np_div (moment (fun _ _ x => x)) normalizer).

(** [center_of_mass(a[z, :, :])], the centre of mass of one detector frame. *)
Definition center_of_mass_frame (a : ndarray) (z : Z) : pyfloat * pyfloat :=
  let frame := flat_map (fun y => map (fun x => (y, x, item a z y x))
                 (seqZ (nx a))) (seqZ (ny a)) in
  let normalizer := Qsum (map snd frame) in
  (np_div (Qsum (map (fun e => e.2 * inject_Z e.1.1)%Q frame)) normalizer,
   np_div (Qsum (map (fun e => e.2 * inject_Z e.1.2)%Q frame)) normalizer).

End Np.

Import Np.

(** ** class [PeakFinder] *)

Module PeakFinder.

(** [PEAK_METHODS = {"max", "com", "max_com", "user", "skip"}] *)
Definition PEAK_METHODS : gset string :=
  {[ "max"; "com"; "max_com"; "user"; "skip" ]}.

(** The attributes of an instance that the methods below read. *)
Record t : Type := mk {
  array : ndarray;
  region_of_interest : list Z;
  binning : list Z;
  peak_method : string;
  frames_pattern : option (list Z);
  _peaks : gmap string (Z * Z * Z);
  _detector_data_at_peak : option ndarray
}.

(** Modelled from the spec: [valid.valid_container] is defined in
    bcdi/utils/validation.py, which is not among the sources; a "malformed
    ROI/binning" is rejected.  The setters call it with [item_types=int],
    which the type of the list ensures here, and a required [length]. *)
Definition valid_container (value : list Z) (n : Z) : result unit :=
  if Z.of_nat (length value) =? n then Ok tt
  else Raise (ValueError "container of the wrong length").

Definition set_region_of_interest (self : t) (value : list Z) : result t :=
  _ ← valid_container value 4;
  Ok (mk (array self) value (binning self) (peak_method self)
        (frames_pattern self) (_peaks self) (_detector_data_at_peak self)).

Definition set_binning (self : t) (value : list Z) : result t :=
  _ ← valid_container value 3;
  Ok (mk (array self) (region_of_interest self) value (peak_method self)
        (frames_pattern self) (_peaks self) (_detector_data_at_peak self)).

Definition set_peak_method (self : t) (value : string) : result t :=
  if bool_decide (value ∈ PEAK_METHODS)
  then Ok (mk (array self) (region_of_interest self) (binning self) value
             (frames_pattern self) (_peaks self) (_detector_data_at_peak self))
  else Raise (ValueError "allowed peak methods").

(** [_offset(peak, frame)] *)
Definition _offset (self : t) (peak : list Z) (frame : string)
  : result (Z * Z * Z) :=
  if negb (bool_decide (frame ∈ ({[ "full_detector"; "region_of_interest" ]}
                                  : gset string)))
  then Raise (ValueError "allowed values 'full_detector' and 'region_of_interest'")
  else
    let sign := if bool_decide (frame = "full_detector") then 1 else -1 in
    p0 ← getitem peak 0;
    p1 ← getitem peak 1;
    r0 ← getitem (region_of_interest self) 0;
    p2 ← getitem peak 2;
    r2 ← getitem (region_of_interest self) 2;
    Ok (p0, p1 + sign * r0, p2 + sign * r2).

(** [_bin(peak)]: [[a // b for a, b in zip(peak, self.binning)]] *)
Fixpoint floordiv_all (l : list (Z * Z)) : result (list Z) :=
  match l with
  | [] => Ok []
  | (a, b) :: l' => q ← floordiv a b; qs ← floordiv_all l'; Ok (q :: qs)
  end.

Definition _bin (self : t) (peak : list Z) : result (list Z) :=
  floordiv_all (zip peak (binning self)).

(** [_unbin(peak)]: [[a * b for a, b in zip(peak, self.binning)]] *)
Definition _unbin (self : t) (peak : list Z) : list Z :=
  map (fun ab => ab.1 * ab.2) (zip peak (binning self)).

Definition get_indices_cropped_binned_detector (self : t) (position : list Z)
  : result (list Z) :=
  '(c0, c1, c2) ← _offset self position "region_of_interest";
  _bin self [c0; c1; c2].

Definition get_indices_full_detector (self : t) (position : list Z)
  : result (Z * Z * Z) :=
  let unbinned_position := _unbin self position in
  _offset self unbinned_position "full_detector".

(** [find_peak()]: the three estimates, in the full unbinned detector frame.
    The values of the array at the three positions are read for the log
    messages, which raises when a rounded centre of mass is outside. *)
Definition find_peak (self : t) : result (gmap string (Z * Z * Z)) :=
  let a := array self in
  flat ← argmax_abs (buf a);
  let '(mz, my, mx) := unravel_index flat a in
  let position_max := [mz; my; mx] in
  let '(cz, cy, cx) := center_of_mass a in
  pz ← int_rint cz;
  py ← int_rint cy;
  px ← int_rint cx;
  _ ← getitem3 a pz py px;
  let '(fy, fx) := center_of_mass_frame a mz in
  qy ← int_rint fy;
  qx ← int_rint fx;
  _ ← getitem3 a mz qy qx;
  p_max ← get_indices_full_detector self position_max;
  p_com ← get_indices_full_detector self [pz; py; px];
  p_max_com ← get_indices_full_detector self [mz; qy; qx];
  Ok (<["max" := p_max]> (<["com" := p_com]> (<["max_com" := p_max_com]> ∅))).

(** property [peaks] *)
Definition peaks (self : t) : gmap string (Z * Z * Z) := _peaks self.

(** property [bragg_peak]: [self.peaks[self.peak_method]], a dictionary
    access that raises [KeyError] on a missing key. *)
Definition bragg_peak (self : t) : result (Z * Z * Z) :=
  match peaks self !! peak_method self with
  | Some p => Ok p
  | None => Raise (KeyError (peak_method self))
  end.

(** property [_roi_center] *)
Definition _roi_center (self : t) : result (Z * Z * Z) :=
  '(b0, b1, b2) ← bragg_peak self;
  r0 ← getitem (region_of_interest self) 0;
  k1 ← getitem (binning self) 1;
  c1 ← floordiv (b1 - r0) k1;
  r2 ← getitem (region_of_interest self) 2;
  k2 ← getitem (binning self) 2;
  c2 ← floordiv (b2 - r2) k2;
  Ok (b0, c1, c2).

(** [__init__(array, region_of_interest, binning, peak_method, **kwargs)] *)
Definition init (arr : ndarray) (roi : option (list Z))
    (bin : option (list Z)) (method : string) (fp : option (list Z))
  : result t :=
  let self := mk arr [] [] "" None ∅ None in
  self ← set_region_of_interest self
           (match roi with None => [0; ny arr; 0; nx arr] | Some r => r end);
  self ← set_binning self (match bin with None => [1; 1; 1] | Some b => b end);
  self ← set_peak_method self method;
  let self := mk (array self) (region_of_interest self) (binning self)
                (peak_method self) fp (_peaks self) None in
  found ← find_peak self;
  let self := mk (array self) (region_of_interest self) (binning self)
                (peak_method self) (frames_pattern self) found None in
  '(c0, _, _) ← _roi_center self;
  z ← axis_index (nz arr) c0;
  let frame := slice3 arr (z, z + 1) (full (ny arr)) (full (nx arr)) in
  Ok (mk (array self) (region_of_interest self) (binning self)
        (peak_method self) (frames_pattern self) found (Some frame)).

(** [_get_rocking_curve()]: the only place that tests for an undefined peak. *)
Definition _get_rocking_curve (self : t) : result (list Q) :=
  _ ← bragg_peak self;
  Ok (map (fun z => Qsum (flat_map (fun y => map (fun x => item (array self) z y x)
                            (seqZ (nx (array self)))) (seqZ (ny (array self)))))
        (seqZ (nz (array self)))).

End PeakFinder.

(** ** FFT-compatible sizes *)

Module Util.

(** [n] with every factor [p] removed ([fuel] bounds the number of divisions). *)
Fixpoint strip (fuel : nat) (p n : Z) : Z :=
  match fuel with
  | O => n
  | S f => if n mod p =? 0 then strip f p (n / p) else n
  end.

(** The spec's words for a size that the Fourier transform accepts: "an
    axis length whose largest prime factor is ≤7 and which is divisible by
    2". *)
Definition FFT_compatible (n : Z) : Prop :=
  0 < n /\ (2 | n) /\ forall p, Z.prime p -> (p | n) -> p <= 7.

(** Modelled from the spec: [util.smaller_primes] and [util.higher_primes]
    are defined in bcdi/utils/utilities.py, which is not among the sources.
    The spec calls a size FFT-compatible when its "largest prime factor is
    ≤7 and [it] is divisible by 2" (the calls pass [maxprime=7] and
    [required_dividers=(2,)]). *)
Definition fft_compatible (n : Z) : bool :=
  let fuel := S (Z.to_nat (Z.log2 n)) in
  (0 <? n) && (n mod 2 =? 0)
  && (strip fuel 7 (strip fuel 5 (strip fuel 3 (strip fuel 2 n))) =? 1).

Fixpoint search_down (fuel : nat) (n : Z) : result Z :=
  match fuel with
  | O => Raise (ValueError "no FFT-compatible size below")
  | S f => if fft_compatible n then Ok n else search_down f (n - 1)
  end.

(** Modelled from the spec: [util.smaller_primes(n, maxprime=7,
    required_dividers=(2,))] is "the largest such size ≤" [n]; there is none
    below 2, where the call fails. *)
Definition smaller_primes (n : Z) : result Z := search_down (Z.to_nat n) n.

Fixpoint search_up (fuel : nat) (n : Z) : Z :=
  match fuel with
  | O => n
  | S f => if fft_compatible n then n else search_up f (n + 1)
  end.

(** Modelled from the spec: [util.higher_primes(n, maxprime=7,
    required_dividers=(2,))] is "the next FFT-compatible size ≥" [n]. A
    power of two lies between [n] and [2 n], which bounds the search. *)
Definition higher_primes (n : Z) : Z := search_up (Z.to_nat (Z.abs n) + 2) n.

End Util.

(** ** [zero_pad] and [center_fft] *)

Module CenterFFT.

Import Util.

(** The attributes of the [Detector] instance that [center_fft] reads. *)
Record detector : Type := mk_detector {
  roi : list Z;
  preprocessing_binning : list Z;
  binning : list Z
}.

(** The keyword arguments of [center_fft].  An absent ['pad_size'] is [[]],
    an absent ['q_values'] is [Some []] and an absent ['fix_bragg'] is
    [None], as [kwargs.get] returns them. *)
Record kwargs : Type := mk_kwargs {
  fix_bragg : option (list Z);
  pad_size : list Z;
  q_values : option (list (list Q))
}.

Definition default_kwargs : kwargs := mk_kwargs None [] (Some []).

(** What [center_fft] returns:
    [data, mask, pad_width, q_values, frames_logical]. *)
Record output : Type := mk_output {
  out_data : ndarray;
  out_mask : ndarray;
  out_pad_width : list Z;
  out_q_values : option (list (list Q));
  out_frames_logical : list Z
}.

(** Modelled from the spec: [valid.valid_ndarray(arrays=(data, mask),
    ndim=3)] is defined in bcdi/utils/validation.py, which is not among the
    sources; "Mask/Volume shape mismatch [is] checked at every stage
    boundary". *)
Definition valid_ndarray (data mask : ndarray) : result unit :=
  if bool_decide (shape data = shape mask) then Ok tt
  else Raise (ValueError "arrays should have the same shape").

(** [l[start:stop] = v] on a one-dimensional array, in place. *)
Definition assign_scalar (l : list Z) (start stop v : Z) : list Z :=
  let '(s, len) := slice_indices (Z.of_nat (length l)) start stop in
  take (Z.to_nat s) l ++ replicate (Z.to_nat len) v
    ++ drop (Z.to_nat (s + len)) l.

(** [l[start:stop] = src] with numpy's broadcasting of a one-element source. *)
Definition assign_array (l : list Z) (start stop : Z) (src : list Z)
  : result (list Z) :=
  let '(s, len) := slice_indices (Z.of_nat (length l)) start stop in
  let put (mid : list Z) :=
    take (Z.to_nat s) l ++ mid ++ drop (Z.to_nat (s + len)) l in
  if Z.of_nat (length src) =? len then Ok (put src)
  else match src with
       | [v] => Ok (put (replicate (Z.to_nat len) v))
       | _ => Raise (ValueError "could not broadcast input array")
       end.

(** [zero_pad(array, padding_width, mask_flag)] *)
Definition zero_pad (a : ndarray) (padding_width : list Z) (mask_flag : bool)
  : result ndarray :=
  p0 ← getitem padding_width 0;
  p1 ← getitem padding_width 1;
  p2 ← getitem padding_width 2;
  p3 ← getitem padding_width 3;
  p4 ← getitem padding_width 4;
  p5 ← getitem padding_width 5;
  let '(dz, dy, dx) := (nz a + p0 + p1, ny a + p2 + p3, nx a + p4 + p5) in
  if (dz <? 0) || (dy <? 0) || (dx <? 0)
  then Raise (ValueError "negative dimensions are not allowed")
  else
    let fill := if mask_flag then 1%Q else 0%Q in
    let '(z0, lz) := slice_indices dz p0 (p0 + nz a) in
    let '(y0, ly) := slice_indices dy p2 (p2 + ny a) in
    let '(x0, lx) := slice_indices dx p4 (p4 + nx a) in
    let fits (n l : Z) := (n =? l) || (n =? 1) in
    if fits (nz a) lz && fits (ny a) ly && fits (nx a) lx then
      let src (n i : Z) := if n =? 1 then 0 else i in
      Ok (tabulate dz dy dx (fun z y x =>
            if (z0 <=? z) && (z <? z0 + lz) && (y0 <=? y) && (y <? y0 + ly)
               && (x0 <=? x) && (x <? x0 + lx)
            then item a (src (nz a) (z - z0)) (src (ny a) (y - y0))
                   (src (nx a) (x - x0))
            else fill))
    else Raise (ValueError "could not broadcast input array").

(** The caller's [frames_logical] array is mutated in place by the cropping
    branches: computations carry it as a state next to the result. *)
Definition M (A : Type) : Type := list Z -> list Z * result A.

#[global] Instance M_bind : MBind M := fun A B f m s =>
  match m s with
  | (s', Ok a) => f a s'
  | (s', Raise e) => (s', Raise e)
  end.

Definition ret {A} (a : A) : M A := fun s => (s, Ok a).
Definition lift {A} (r : result A) : M A := fun s => (s, r).
Definition read_frames : M (list Z) := fun s => (s, Ok s).
(** [frames_logical[start : stop] = 0] and [frames_logical[start :] = 0] *)
Definition zero_frames (start stop : Z) : M unit :=
  fun s => (assign_scalar s start stop 0, Ok tt).
Definition zero_frames_from (start : Z) : M unit :=
  fun s => (assign_scalar s start (Z.of_nat (length s)) 0, Ok tt).

Definition truthy {A} (l : option (list A)) : bool :=
  match l with Some (_ :: _) => true | _ => false end.

Definition of_int (z : Z) : pyfloat := Fin (inject_Z z).

(** Lines 480-530: the axes of [q_values] and the position of the centre. *)
Definition resolve_center (data : ndarray) (det : detector)
    (centering : string) (kw : kwargs)
  : result ((list Q * list Q * list Q) * (Z * Z * Z)) :=
  '(qx, qz, qy) ← match q_values kw with
                  | Some qv =>
                      qx ← getitem qv 0; qz ← getitem qv 1; qy ← getitem qv 2;
                      Ok (qx, qz, qy)
                  | None => Ok ([], [], [])
                  end;
  '(z0, y0, x0) ←
    (if bool_decide (centering = "max") then
       flat ← argmax_abs (buf data);
       let '(z, y, x) := unravel_index flat data in
       _ ← (if truthy (q_values kw)
            then _ ← getitem qx z; _ ← getitem qz y; _ ← getitem qy x; Ok tt
            else Ok tt);
       Ok (of_int z, of_int y, of_int x)
     else if bool_decide (centering = "com") then
       let c := center_of_mass data in
       (* a float is not a valid index of the q vectors *)
       if truthy (q_values kw) then Raise IndexError else Ok c
     else
       flat ← argmax_abs (buf data);
       let '(z, _, _) := unravel_index flat data in
       let '(cy, cx) := center_of_mass_frame data z in
       y ← int_rint cy; x ← int_rint cx;
       Ok (of_int z, of_int y, of_int x));
  '(z0, y0, x0) ←
    (if truthy (fix_bragg kw) then
       let fb := default [] (fix_bragg kw) in
       if negb (Z.of_nat (length fb) =? 3)
       then Raise (ValueError "fix_bragg should be a list of 3 integers")
       else
         z ← getitem fb 0; y ← getitem fb 1; x ← getitem fb 2;
         r0 ← getitem (roi det) 0;
         pb1 ← getitem (preprocessing_binning det) 1;
         b1 ← getitem (binning det) 1;
         y' ← truediv (y - r0) (pb1 * b1);
         r2 ← getitem (roi det) 2;
         pb2 ← getitem (preprocessing_binning det) 2;
         b2 ← getitem (binning det) 2;
         x' ← truediv (x - r2) (pb2 * b2);
         Ok (of_int z, Fin y', Fin x')
     else Ok (z0, y0, x0));
  iz0 ← int_rint z0;
  iy0 ← int_rint y0;
  ix0 ← int_rint x0;
  _ ← getitem3 data iz0 iy0 ix0;
  Ok ((qx, qz, qy), (iz0, iy0, ix0)).

(** The six entries of [pad_width] for a padding centred on the peak along
    one axis of extent [n], to the size [p]:
    [int(min(p / 2 - i0, p - n))] and [int(min(p / 2 - n + i0, p - n))]. *)
Definition pad_sym (p n i0 : Z) : Z * Z :=
  (int_trunc (Qmin (inject_Z p / 2 - inject_Z i0) (inject_Z (p - n))),
   int_trunc (Qmin (inject_Z p / 2 - inject_Z n + inject_Z i0)
                (inject_Z (p - n)))).

(** The same for a padding that ignores the peak, from [n] to [n1]; [m] is
    the difference whose parity enters the first entry:
    [int((n1 - n + (m % 2)) / 2)] and [int((n1 - n + 1) / 2 - ((n1 - n) % 2))]. *)
Definition pad_asym (n1 n m : Z) : Z * Z :=
  (int_trunc (inject_Z (n1 - n + m mod 2) / 2),
   int_trunc (inject_Z (n1 - n + 1) / 2 - inject_Z ((n1 - n) mod 2))).

(** [temp_frames = -1 * np.ones(data.shape[0]);
     temp_frames[pad_width[0] : pad_width[0] + nbz] = frames_logical] *)
Definition pad_frames (data : ndarray) (pw0 nbz : Z) : M (list Z) :=
  frames_logical ← read_frames;
  lift (assign_array (replicate (Z.to_nat (nz data)) (-1)) pw0 (pw0 + nbz)
          frames_logical).

(** [q = (q[0] - pw * dq) + np.arange(n) * dq] with [dq = q[1] - q[0]] *)
Definition extend_axis (q : list Q) (pw n : Z) : result (list Q) :=
  q1 ← getitem q 1;
  q0 ← getitem q 0;
  let dq := (q1 - q0)%Q in
  let start := (q0 - inject_Z pw * dq)%Q in
  Ok (map (fun i => start + inject_Z i * dq)%Q (seqZ n)).

(** The test of a caller-given size:
    [if pad_size[i] != util.higher_primes(pad_size[i], ...): raise ValueError] *)
Definition check_pad_size (pad_size : list Z) (i : Z) : result Z :=
  p ← getitem pad_size i;
  if p =? higher_primes p then Ok p
  else Raise (ValueError "does not meet FFT requirements").

Definition check_pad_len (pad_size : list Z) : result unit :=
  if Z.of_nat (length pad_size) =? 3 then Ok tt
  else Raise (ValueError "pad_size should be a list of three elements").

Definition no_padding : list Z := [0; 0; 0; 0; 0; 0].

Definition is_none {A} (o : option A) : bool :=
  match o with None => true | Some _ => false end.

(** The symmetric box around the centre, lines 533-536. *)
Definition max_box (data : ndarray) (c : Z * Z * Z) : Z * Z * Z :=
  let '(iz0, iy0, ix0) := c in
  (Z.abs (2 * Z.min iz0 (nz data - iz0)),
   2 * Z.min iy0 (ny data - iy0),
   Z.abs (2 * Z.min ix0 (nx data - ix0))).

Definition degenerate (box : Z * Z * Z) : bool :=
  let '(max_nz, max_ny, max_nx) := box in
  (max_nz =? 0) || (max_ny =? 0) || (max_nx =? 0).

(** *** The resize policies, lines 547-944 *)

Section Policies.

Variables (data mask : ndarray) (kw : kwargs) (qx qz qy : list Q).
Variables (iz0 iy0 ix0 : Z).

Let nbz := nz data.
Let nby := ny data.
Let nbx := nx data.
Let max_nz := (max_box data (iz0, iy0, ix0)).1.1.
Let max_ny := (max_box data (iz0, iy0, ix0)).1.2.
Let max_nx := (max_box data (iz0, iy0, ix0)).2.

(** What a branch leaves in [data], [mask], [pad_width], [qx], [qz], [qy]
    and, when it rebinds [frames_logical] to a new array, that array. *)
Definition branch_out : Type :=
  ndarray * ndarray * list Z * (list Q * list Q * list Q) * option (list Z).

(** The bounds [c - n // 2 : c + n // 2]. *)
Definition around (c n : Z) : Z * Z := (c - n / 2, c + n / 2).

(** [frames_logical[0 : lo] = 0] and [frames_logical[hi :] = 0], guarded. *)
Definition crop_frames (r : Z * Z) : M unit :=
  _ ← (if 0 <? r.1 then zero_frames 0 r.1 else ret tt);
  if r.2 <? nbz then zero_frames_from r.2 else ret tt.

(** [zero_pad] of the data and of the mask, then the new [frames_logical]. *)
Definition pad_all (d m : ndarray) (pad_width : list Z)
  : M (ndarray * ndarray * list Z) :=
  d' ← lift (zero_pad d pad_width false);
  m' ← lift (zero_pad m pad_width true);
  pw0 ← lift (getitem pad_width 0);
  frames ← pad_frames d' pw0 nbz;
  ret (d', m', frames).

Definition crop_sym_ZYX : M branch_out :=
  nz1 ← lift (smaller_primes max_nz);
  ny1 ← lift (smaller_primes max_ny);
  nx1 ← lift (smaller_primes max_nx);
  let '(zr, yr, xr) := (around iz0 nz1, around iy0 ny1, around ix0 nx1) in
  let d := slice3 data zr yr xr in
  let m := slice3 mask zr yr xr in
  _ ← crop_frames zr;
  let q := if is_none (q_values kw) then (qx, qz, qy)
           else (slice qx zr.1 zr.2, slice qz yr.1 yr.2, slice qy xr.1 xr.2) in
  ret (d, m, no_padding, q, None).

Definition crop_asym_ZYX : M branch_out :=
  nz1 ← lift (smaller_primes nbz);
  ny1 ← lift (smaller_primes nby);
  nx1 ← lift (smaller_primes nbx);
  let '(zr, yr, xr) :=
    (around (nbz / 2) nz1, around (nby / 2) ny1, around (nbx / 2) nx1) in
  let d := slice3 data zr yr xr in
  let m := slice3 mask zr yr xr in
  _ ← crop_frames zr;
  match q_values kw with
  | None => lift (Raise TypeError)
  | Some [] => ret (d, m, no_padding, (qx, qz, qy), None)
  | Some _ =>
      ret (d, m, no_padding,
           (slice qx zr.1 zr.2, slice qz yr.1 yr.2, slice qy xr.1 xr.2), None)
  end.

Definition pad_sym_Z_crop_sym_YX : M branch_out :=
  _ ← lift (check_pad_len (pad_size kw));
  p0 ← lift (check_pad_size (pad_size kw) 0);
  ny1 ← lift (smaller_primes max_ny);
  nx1 ← lift (smaller_primes max_nx);
  let '(yr, xr) := (around iy0 ny1, around ix0 nx1) in
  let d := slice3 data (full nbz) yr xr in
  let m := slice3 mask (full (nz mask)) yr xr in
  let pad_width := [(pad_sym p0 nbz iz0).1; (pad_sym p0 nbz iz0).2; 0; 0; 0; 0] in
  '(d, m, frames) ← pad_all d m pad_width;
  q ← (if is_none (q_values kw) then ret (qx, qz, qy)
       else qx' ← lift (extend_axis qx (pad_sym p0 nbz iz0).1 p0);
            ret (qx', slice qz yr.1 yr.2, slice qy xr.1 xr.2));
  ret (d, m, pad_width, q, Some frames).

Definition pad_sym_Z_crop_asym_YX : M branch_out :=
  _ ← lift (check_pad_len (pad_size kw));
  p0 ← lift (check_pad_size (pad_size kw) 0);
  ny1 ← lift (smaller_primes max_ny);
  nx1 ← lift (smaller_primes max_nx);
  let '(yr, xr) := (around (nby / 2) ny1, around (nbx / 2) nx1) in
  let d := slice3 data (full nbz) yr xr in
  let m := slice3 mask (full (nz mask)) yr xr in
  let pad_width := [(pad_sym p0 nbz iz0).1; (pad_sym p0 nbz iz0).2; 0; 0; 0; 0] in
  '(d, m, frames) ← pad_all d m pad_width;
  q ← (if is_none (q_values kw) then ret (qx, qz, qy)
       else qx' ← lift (extend_axis qx (pad_sym p0 nbz iz0).1 p0);
            ret (qx', slice qz yr.1 yr.2, slice qy xr.1 xr.2));
  ret (d, m, pad_width, q, Some frames).

Definition pad_asym_Z_crop_sym_YX : M branch_out :=
  ny1 ← lift (smaller_primes max_ny);
  nx1 ← lift (smaller_primes max_nx);
  let nz1 := higher_primes nbz in
  let '(yr, xr) := (around iy0 ny1, around ix0 nx1) in
  let d := slice3 data (full nbz) yr xr in
  let m := slice3 mask (full (nz mask)) yr xr in
  let pz := pad_asym nz1 nbz (nz1 - nbz) in
  let pad_width := [pz.1; pz.2; 0; 0; 0; 0] in
  '(d, m, frames) ← pad_all d m pad_width;
  q ← (if is_none (q_values kw) then ret (qx, qz, qy)
       else qx' ← lift (extend_axis qx pz.1 nz1);
            ret (qx', slice qz yr.1 yr.2, slice qy xr.1 xr.2));
  ret (d, m, pad_width, q, Some frames).

Definition pad_asym_Z_crop_asym_YX : M branch_out :=
  ny1 ← lift (smaller_primes nby);
  nx1 ← lift (smaller_primes nbx);
  let nz1 := higher_primes nbz in
  let '(yr, xr) := (around (nby / 2) ny1, around (nbx / 2) nx1) in
  let d := slice3 data (full nbz) yr xr in
  let m := slice3 mask (full (nz mask)) yr xr in
  let pz := pad_asym nz1 nbz (nz1 - nbz) in
  let pad_width := [pz.1; pz.2; 0; 0; 0; 0] in
  '(d, m, frames) ← pad_all d m pad_width;
  q ← (if is_none (q_values kw) then ret (qx, qz, qy)
       else qx' ← lift (extend_axis qx pz.1 nz1);
            ret (qx', slice qz yr.1 yr.2, slice qy xr.1 xr.2));
  ret (d, m, pad_width, q, Some frames).

Definition pad_sym_Z : M branch_out :=
  _ ← lift (check_pad_len (pad_size kw));
  p0 ← lift (check_pad_size (pad_size kw) 0);
  let pad_width := [(pad_sym p0 nbz iz0).1; (pad_sym p0 nbz iz0).2; 0; 0; 0; 0] in
  '(d, m, frames) ← pad_all data mask pad_width;
  q ← (if is_none (q_values kw) then ret (qx, qz, qy)
       else qx' ← lift (extend_axis qx (pad_sym p0 nbz iz0).1 p0);
            ret (qx', qz, qy));
  ret (d, m, pad_width, q, Some frames).

Definition pad_asym_Z : M branch_out :=
  let nz1 := higher_primes nbz in
  let pz := pad_asym nz1 nbz (nz1 - nbz) in
  let pad_width := [pz.1; pz.2; 0; 0; 0; 0] in
  '(d, m, frames) ← pad_all data mask pad_width;
  q ← (if is_none (q_values kw) then ret (qx, qz, qy)
       else qx' ← lift (extend_axis qx pz.1 nz1);
            ret (qx', qz, qy));
  ret (d, m, pad_width, q, Some frames).

Definition pad_sym_ZYX : M branch_out :=
  _ ← lift (check_pad_len (pad_size kw));
  p0 ← lift (check_pad_size (pad_size kw) 0);
  p1 ← lift (check_pad_size (pad_size kw) 1);
  p2 ← lift (check_pad_size (pad_size kw) 2);
  let pad_width :=
    map (Z.max 0)
      [(pad_sym p0 nbz iz0).1; (pad_sym p0 nbz iz0).2;
       (pad_sym p1 nby iy0).1; (pad_sym p1 nby iy0).2;
       (pad_sym p2 nbx ix0).1; (pad_sym p2 nbx ix0).2] in
  '(d, m, frames) ← pad_all data mask pad_width;
  q ← (if is_none (q_values kw) then ret (qx, qz, qy)
       else
         pw0 ← lift (getitem pad_width 0);
         pw1 ← lift (getitem pad_width 1);
         pw2 ← lift (getitem pad_width 2);
         qx' ← lift (extend_axis qx pw0 p0);
         qy' ← lift (extend_axis qy pw2 p2);
         qz' ← lift (extend_axis qz pw1 p1);
         ret (qx', qz', qy'));
  ret (d, m, pad_width, q, Some frames).

Definition pad_asym_ZYX : M branch_out :=
  let nz1 := higher_primes nbz in
  let ny1 := higher_primes nby in
  let nx1 := higher_primes nbx in
  let pz := pad_asym nz1 nbz (nz1 - nbz) in
  (* the third entry reads [pad_size[1]] *)
  ps1 ← lift (getitem (pad_size kw) 1);
  let py := pad_asym ny1 nby (ps1 - nby) in
  let px := pad_asym nx1 nbx (nx1 - nbx) in
  let pad_width := [pz.1; pz.2; py.1; py.2; px.1; px.2] in
  '(d, m, frames) ← pad_all data mask pad_width;
  q ← (if is_none (q_values kw) then ret (qx, qz, qy)
       else
         qx' ← lift (extend_axis qx pz.1 nz1);
         qy' ← lift (extend_axis qy py.1 nx1);
         qz' ← lift (extend_axis qz pz.2 ny1);
         ret (qx', qz', qy'));
  ret (d, m, pad_width, q, Some frames).

Definition skip : M branch_out :=
  ret (data, mask, no_padding, (qx, qz, qy), None).

Definition run_policy (fft_option : string) : M branch_out :=
  if bool_decide (fft_option = "crop_sym_ZYX") then crop_sym_ZYX
  else if bool_decide (fft_option = "crop_asym_ZYX") then crop_asym_ZYX
  else if bool_decide (fft_option = "pad_sym_Z_crop_sym_YX")
       then pad_sym_Z_crop_sym_YX
  else if bool_decide (fft_option = "pad_sym_Z_crop_asym_YX")
       then pad_sym_Z_crop_asym_YX
  else if bool_decide (fft_option = "pad_asym_Z_crop_sym_YX")
       then pad_asym_Z_crop_sym_YX
  else if bool_decide (fft_option = "pad_asym_Z_crop_asym_YX")
       then pad_asym_Z_crop_asym_YX
  else if bool_decide (fft_option = "pad_sym_Z") then pad_sym_Z
  else if bool_decide (fft_option = "pad_asym_Z") then pad_asym_Z
  else if bool_decide (fft_option = "pad_sym_ZYX") then pad_sym_ZYX
  else if bool_decide (fft_option = "pad_asym_ZYX") then pad_asym_ZYX
  else if bool_decide (fft_option = "skip") then skip
  else lift (Raise (ValueError "Incorrect value for 'fft_option'")).

End Policies.

(** [center_fft(data, mask, detector, frames_logical, centering, fft_option,
    **kwargs)].  The state is the caller's [frames_logical] array. *)
Definition center_fft (data mask : ndarray) (det : detector)
    (centering fft_option : string) (kw : kwargs) : M output :=
  _ ← lift (valid_ndarray data mask);
  '((qx, qz, qy), (iz0, iy0, ix0)) ← lift (resolve_center data det centering kw);
  let fft_option :=
    if degenerate (max_box data (iz0, iy0, ix0)) then "skip" else fft_option in
  '(d, m, pad_width, (qx, qz, qy), fresh) ←
    run_policy data mask kw qx qz qy iz0 iy0 ix0 fft_option;
  let q_values :=
    match q_values kw with
    | Some qv => Some (<[2%nat := qy]> (<[1%nat := qz]> (<[0%nat := qx]> qv)))
    | None => None
    end in
  frames_logical ← match fresh with Some l => ret l | None => read_frames end;
  ret (mk_output d m pad_width q_values frames_logical).

(** The entries of ['pad_size'] that a policy compares with
    [util.higher_primes]: the first one for the three policies that pad the
    rocking axis around the peak, the three of them for [pad_sym_ZYX], none
    for the other policies. *)
Definition checked_sizes (fft_option : string) (pad_size : list Z) : list Z :=
  if bool_decide (fft_option = "pad_sym_Z_crop_sym_YX")
     || bool_decide (fft_option = "pad_sym_Z_crop_asym_YX")
     || bool_decide (fft_option = "pad_sym_Z")
  then take 1 pad_size
  else if bool_decide (fft_option = "pad_sym_ZYX") then take 3 pad_size
  else [].

(** The policies that slice the rocking axis. *)
Definition crops_first_axis (fft_option : string) : bool :=
  bool_decide (fft_option = "crop_sym_ZYX")
  || bool_decide (fft_option = "crop_asym_ZYX").

(** A computation that leaves the caller's array as it is. *)
Definition preserves {A} (m : M A) : Prop :=
  forall s s' a, m s = (s', Ok a) -> s' = s.

(** What a cropping policy does, with the frames named: the data returned
    is the slice [lo : hi] of the input along the rocking axis, and the
    caller's [frames_logical], of unchanged length, has 0 at the frames
    before [lo] and from [hi] on. *)
Definition cropped_to (data : ndarray) (frames s' : list Z) (lo hi : Z)
    (d : ndarray) (fresh : option (list Z)) : Prop :=
  fresh = None /\
  0 <= lo <= hi /\ hi <= nz data /\
  (exists yr xr, d = slice3 data (lo, hi) yr xr) /\
  nz d = hi - lo /\
  s' = replicate (Z.to_nat lo) 0
         ++ take (Z.to_nat (hi - lo)) (drop (Z.to_nat lo) frames)
         ++ replicate (Z.to_nat (nz data - hi)) 0.

(** What a padding policy does, with the frames named: [pad_width] starts
    with the numbers of frames added before and after the input, the frame
    [z] of the array that is padded (the data, or the data cropped along the
    detector axes) is the frame [before + z] of the data returned, the
    frames added hold zeros, and the new [frames_logical] has -1 at the
    frames added. *)
Definition padded_by (data : ndarray) (frames : list Z) (d : ndarray)
    (pw fr : list Z) : Prop :=
  exists (before after p2 p3 p4 p5 : Z) (d0 : ndarray),
    pw = [before; after; p2; p3; p4; p5] /\
    0 <= before /\ 0 <= after /\
    nz d = before + nz data + after /\
    fr = replicate (Z.to_nat before) (-1) ++ frames
           ++ replicate (Z.to_nat after) (-1) /\
    (d0 = data \/ exists yr xr, d0 = slice3 data (full (nz data)) yr xr) /\
    (forall z y x,
       0 <= z < nz data -> 0 <= y < ny d0 -> 0 <= x < nx d0 ->
       item d (before + z) (p2 + y) (p4 + x) = item d0 z y x) /\
    (forall z y x,
       0 <= z < before \/ before + nz data <= z < nz d ->
       0 <= y < ny d -> 0 <= x < nx d ->
       item d z y x = 0%Q).

End CenterFFT.

(** ** The regridders [grid_bcdi_labframe] and [grid_bcdi_xrayutil] *)

Module Regrid.

(** Interpolated arrays hold floats, [NaN] included; they are kept flat,
    the passes below being entrywise. *)
Definition isnan (x : pyfloat) : bool :=
  match x with NaN => true | _ => false end.

(** An entry that [np.nonzero] selects. *)
Definition nonzero (x : pyfloat) : bool :=
  match x with Fin q => negb (Qeq_bool q 0) | _ => true end.

(** [a[sel] = v] for a boolean selection [sel] of the shape of [a]. *)
Definition where_set {A} (sel : list bool) (a : list A) (v : A)
  : result (list A) :=
  if Nat.eqb (length sel) (length a)
  then Ok (zip_with (fun (s : bool) x => if s then v else x) sel a)
  else Raise IndexError.

(** [x.astype(int)] on a float: truncation; on a non-finite float numpy
    gives the smallest 64-bit integer. *)
Definition astype_int (x : pyfloat) : Z :=
  match x with Fin q => int_trunc q | _ => - 2 ^ 63 end.

(** Lines 1102-1104 and 1283-1285, "check for Nan":
    [interp_mask[np.isnan(interp_data)] = 1],
    [interp_data[np.isnan(interp_data)] = 0],
    [interp_mask[np.isnan(interp_mask)] = 1]. *)
Definition fold_nan (interp_data interp_mask : list pyfloat)
  : result (list pyfloat * list pyfloat) :=
  interp_mask ← where_set (map isnan interp_data) interp_mask (Fin 1);
  interp_data ← where_set (map isnan interp_data) interp_data (Fin 0);
  interp_mask ← where_set (map isnan interp_mask) interp_mask (Fin 1);
  Ok (interp_data, interp_mask).

(** Lines 1110 and 1289, "apply the mask to the data":
    [interp_data[np.nonzero(interp_mask)] = 0]. *)
Definition apply_mask (interp_data : list pyfloat) (interp_mask : list Z)
  : result (list pyfloat) :=
  where_set (map (fun m => negb (m =? 0)) interp_mask) interp_data (Fin 0).

(** What the interpolation on the regular grid finds for an output voxel:
    no input sample in range, or interpolated values of the data and mask. *)
Inductive sampled : Type :=
| Outside
| Inside (d m : pyfloat).

(** Modelled from the spec: [Setup.ortho_reciprocal] is defined in
    bcdi/experiment/setup.py, which is not among the sources.  The docstring
    of [grid_bcdi_labframe] gives what it does with [fill_value]: "fill
    values to use for pixels outside of the interpolation range. The first
    value is for the data, the second for the mask. Default is (0, 0)". *)
Definition ortho_reciprocal (grid : list sampled) (fill_value : Q * Q)
  : list pyfloat * list pyfloat :=
  (map (fun v => match v with Outside => Fin fill_value.1 | Inside d _ => d end)
     grid,
   map (fun v => match v with Outside => Fin fill_value.2 | Inside _ m => m end)
     grid).

Definition default_fill_value : Q * Q := (0%Q, 0%Q).

(** The passes of [grid_bcdi_labframe] on the interpolated arrays,
    lines 1101-1110; the figures that follow do not change the arrays. *)
Definition labframe_passes (interp_data interp_mask : list pyfloat)
  : result (list pyfloat * list Z) :=
  '(interp_data, interp_mask) ← fold_nan interp_data interp_mask;
  (* set the mask as an array of integers, 0 or 1 *)
  interp_mask ← where_set (map nonzero interp_mask) interp_mask (Fin 1);
  let interp_mask := map astype_int interp_mask in
  interp_data ← apply_mask interp_data interp_mask;
  Ok (interp_data, interp_mask).

Definition grid_bcdi_labframe (grid : list sampled) (fill_value : Q * Q)
  : result (list pyfloat * list Z) :=
  let '(interp_data, interp_mask) := ortho_reciprocal grid fill_value in
  labframe_passes interp_data interp_mask.

(** [grid_bcdi_xrayutil], lines 1282-1289, on the arrays that the
    [FuzzyGridder3D] of xrayutilities returns for the data and the mask. *)
Definition grid_bcdi_xrayutil (interp_data interp_mask : list pyfloat)
  : result (list pyfloat * list Z) :=
  '(interp_data, interp_mask) ← fold_nan interp_data interp_mask;
  let interp_mask := map astype_int interp_mask in
  interp_data ← apply_mask interp_data interp_mask;
  Ok (interp_data, interp_mask).

(** The flag that the passes leave in the mask of a voxel whose interpolated
    data and mask are [d] and [m], in the laboratory frame and with
    xrayutilities, and the value they leave in the data. *)
Definition lab_mask (d m : pyfloat) : Z :=
  let m := if isnan d then Fin 1 else m in
  let m := if isnan m then Fin 1 else m in
  let m := if nonzero m then Fin 1 else m in
  astype_int m.

Definition xrayutil_mask (d m : pyfloat) : Z :=
  let m := if isnan d then Fin 1 else m in
  let m := if isnan m then Fin 1 else m in
  astype_int m.

Definition masked_data (flag : Z) (d : pyfloat) : pyfloat :=
  if negb (flag =? 0) then Fin 0 else if isnan d then Fin 0 else d.

(** The post-condition shared by the two regridders, on what they return
    for the interpolated arrays [D] and [M]: arrays of the same size, every
    voxel whose interpolated data or mask is NaN flagged 1 and zeroed, no
    NaN left in the data, and the data zero wherever the mask is set. *)
Definition postcondition (D M : list pyfloat)
    (r : result (list pyfloat * list Z)) : Prop :=
  exists d m,
    r = Ok (d, m)
    /\ length d = length D /\ length m = length D
    /\ (forall i, D !! i = Some NaN \/ M !! i = Some NaN ->
                  m !! i = Some 1 /\ d !! i = Some (Fin 0))
    /\ (forall i, d !! i <> Some NaN)
    /\ (forall i flag, m !! i = Some flag -> flag <> 0 ->
                       d !! i = Some (Fin 0)).

End Regrid.

(** ** [process_scan] of the postprocessing: the phase ramp and the
    refraction correction *)

Module PhasePipeline.

(** Modelled from the spec: class [PhaseManipulator] is defined in
    bcdi/postprocessing/analysis.py, which is not among the sources.  Its
    ramp is "the best-fit linear gradient", kept as three fitted
    coefficients, one per axis; "the ramp is re-added [...] and removed again
    [...] (same fitted coefficients both times)". *)
Record PhaseManipulator : Type := mk_manipulator {
  modulus : ndarray;
  phase : ndarray;
  phase_ramp : Q * Q * Q
}.

Definition ramp (c : Q * Q * Q) (z y x : Z) : Q :=
  (c.1.1 * inject_Z z + c.1.2 * inject_Z y + c.2 * inject_Z x)%Q.

(** Modelled from the spec: [PhaseManipulator.add_ramp(sign=+1)] adds the
    fitted linear gradient to the phase, [add_ramp(sign=-1)] subtracts it. *)
Definition add_ramp (sign : Z) (pm : PhaseManipulator) : PhaseManipulator :=
  mk_manipulator (modulus pm)
    (tabulate (nz (phase pm)) (ny (phase pm)) (nx (phase pm))
       (fun z y x =>
          item (phase pm) z y x + inject_Z sign * ramp (phase_ramp pm) z y x)%Q)
    (phase_ramp pm).

(** Lines 183-197 of [process_scan]: the ramp is put back, the object is
    optionally apodized and saved, and the ramp is removed again.
    [apodize_window] stands for [PhaseManipulator.apodize]. *)
Definition ramp_cycle (apodize : bool)
    (apodize_window : PhaseManipulator -> PhaseManipulator)
    (pm : PhaseManipulator) : PhaseManipulator :=
  let pm := add_ramp 1 pm in
  let pm := if apodize then apodize_window pm else pm in
  add_ramp (-1) pm.

(** The parameters and the setup attributes read by lines 440-552. *)
Record parameters : Type := mk_parameters {
  correct_refraction : bool;
  dispersion : Q;
  absorption : Q
}.

Record Setup : Type := mk_setup {
  wavelength : option Q
}.

Inductive level : Type := INFO | WARNING.

Definition log : Type := list (level * string).

Section OpticalPath.

(** The value of [2 * np.pi] as a float, and the optical path
    [path_in + path_out] that [pu.get_opticalpath] computes on the bulk. *)
Variable two_pi : Q.
Variable optical_path : list Q.

(** Lines 440-536.  [correct_absorption] is set to [False] in the code:
    the amplitude is returned as it is. *)
Definition refraction_correction (prm : parameters) (setup : Setup)
    (amp phase : list Q) : result (list Q * list Q) :=
  if correct_refraction prm then
    phase ← (if correct_refraction prm then
               match wavelength setup with
               | None => Raise (ValueError "X-ray energy undefined")
               | Some w =>
                   if Qeq_bool (1000000000 * w) 0 then Raise ZeroDivisionError
                   else
                     Ok (zip_with
                           (fun p path =>
                              p + two_pi / (1000000000 * w) * dispersion prm
                                  * path)%Q
                           phase optical_path)
               end
             else Ok phase);
    Ok (amp, phase)
  else Ok (amp, phase).

(** Lines 440-552: the correction, then the ramp removal that follows it,
    announced in the log.  [remove_ramp] stands for [pu.remove_ramp] and
    [rest] for the stages after it. *)
Definition correction_and_after {A}
    (remove_ramp : list Q * list Q -> list Q * list Q)
    (rest : list Q * list Q -> result A)
    (prm : parameters) (setup : Setup) (amp phase : list Q) (lg : log)
  : log * result A :=
  match refraction_correction prm setup amp phase with
  | Raise e => (lg, Raise e)
  | Ok corrected =>
      let lg := lg ++ [(INFO, "Phase ramp removal")] in
      (lg, rest (remove_ramp corrected))
  end.

End OpticalPath.

End PhasePipeline.

(** ** Concrete inputs used to run the definitions *)

Module Examples.

Import CenterFFT.

(** An array with one bright voxel at [(pz, py, px)] on a flat background. *)
Definition single_peak (sz sy sx pz py px : Z) : ndarray :=
  tabulate sz sy sx (fun z y x =>
    if (z =? pz) && (y =? py) && (x =? px) then 9%Q else 1%Q).

Definition constant (sz sy sx : Z) (v : Q) : ndarray :=
  tabulate sz sy sx (fun _ _ _ => v).

Definition example_finder : PeakFinder.t :=
  PeakFinder.mk (constant 2 2 2 1) [100; 300; 50; 250]
    [1; 2; 4] "max" None ∅ None.

(** A rocking curve of 12 frames of 8x8 pixels, peak at (4, 4, 4). *)
Definition volume : ndarray := single_peak 12 8 8 4 4 4.
Definition mask0 : ndarray := constant 12 8 8 0.
Definition frames0 : list Z := replicate 12 1.
Definition det0 : detector := mk_detector [0; 8; 0; 8] [1; 1; 1] [1; 1; 1].

(** A rocking curve of 13 frames, an odd number, with the same peak. *)
Definition volume13 : ndarray := single_peak 13 8 8 4 4 4.
Definition mask13 : ndarray := constant 13 8 8 0.
Definition frames13 : list Z := [1; 1; 0; 1; 1; 1; 1; 1; 1; 1; 1; 1; 1].

(** The same with the peak in the first frame. *)
Definition volume_border : ndarray := single_peak 12 8 8 0 4 4.

Definition axis (n : Z) : list Q := map inject_Z (seqZ n).
Definition q0 : list (list Q) := [axis 12; axis 8; axis 8].

Definition no_q (pad_size : list Z) : kwargs := mk_kwargs None pad_size None.
Definition with_q (pad_size : list Z) : kwargs :=
  mk_kwargs None pad_size (Some q0).

(** A 2x3x2 phase with fitted ramp coefficients (1/2, -1/3, 1/5). *)
Definition example_manipulator : PhasePipeline.PhaseManipulator :=
  PhasePipeline.mk_manipulator (constant 2 3 2 1)
    (tabulate 2 3 2 (fun z y x => inject_Z (z + 2 * y - x) / 7)%Q)
    (1 # 2, - (1 # 3), 1 # 5)%Q.

End Examples.

(** ** [reload_bcdi_data]: masking of the negative and of the weak voxels *)

Module Loading.

Import CenterFFT Regrid.

(** The argument [normalize], which the code compares with a string; its
    default is the boolean [False]. *)
Inductive pyval : Type :=
| PyBool (b : bool)
| PyStr (s : string).

(** [v == s] for a string [s]. *)
Definition eq_str (v : pyval) (s : string) : bool :=
  match v with PyStr s' => bool_decide (s' = s) | PyBool _ => false end.

(** The attributes of [setup.detector] that [reload_bcdi_data] reads, and
    [current_binning], which it updates. *)
Record Detector : Type := mk_Detector {
  roi : list Z;
  binning : list Z;
  current_binning : list Z
}.

(** [a < t], entrywise. *)
Definition below (t : Q) (a : list Q) : list bool :=
  map (fun v => negb (Qle_bool t v)) a.

Definition with_buf (a : ndarray) (b : list Q) : ndarray :=
  mk_ndarray (nz a) (ny a) (nx a) b.

(** [mask[data < t] = 1; data[data < t] = 0]: the boolean array [data < t]
    indexes an array of its own shape. *)
Definition mask_below (t : Q) (data mask : ndarray)
  : result (ndarray * ndarray) :=
  if bool_decide (shape data = shape mask) then
    m ← where_set (below t (buf data)) (buf mask) 1%Q;
    d ← where_set (below t (buf data)) (buf data) 0%Q;
    Ok (with_buf data d, with_buf mask m)
  else Raise IndexError.

(** [mask[np.nonzero(mask)] = 1] *)
Definition binarize (mask : ndarray) : result ndarray :=
  m ← where_set (map (fun v => negb (Qeq_bool v 0)) (buf mask)) (buf mask) 1%Q;
  Ok (with_buf mask m).

Section Reload.

(** The functions of other modules that [reload_bcdi_data] calls:
    [setup.loader.read_monitor], [loader.normalize_dataset],
    [util.crop_pad] with its [pad_value], the detector part of [pad_start]
    and [output_shape], and [util.bin_data] with its binning. *)
Variable read_monitor : result (list Q).
Variable normalize_dataset : ndarray -> list Q -> result (ndarray * list Q).
Variable crop_pad : ndarray -> Q -> Z * Z -> Z * Z * Z -> result ndarray.
Variable bin_data : ndarray -> Z * Z * Z -> result ndarray.

(** [reload_bcdi_data(data, mask, scan_number, setup, normalize, **kwargs)],
    lines 1535-1640, after the checks of [valid.valid_kwargs] and
    [valid.valid_item], which are defined outside of the sources.  It
    returns [data, mask, frames_logical, monitor]; the detector is returned
    with them for its [current_binning]. *)
Definition reload_bcdi_data (data mask : ndarray) (det : Detector)
    (normalize : pyval) (frames_pattern : option (list Z))
    (photon_threshold : Q)
  : result (ndarray * ndarray * list Z * list Q * Detector) :=
  _ ← valid_ndarray data mask;
  let '(nbz, nby, nbx) := shape data in
  let frames_logical :=
    match frames_pattern with
    | Some f => f
    | None => replicate (Z.to_nat nbz) 1
    end in
  (* can happen when subtracting a background *)
  '(data, mask) ← mask_below 0 data mask;
  '(data, monitor) ←
    (if eq_str normalize "skip" then Ok (data, replicate (Z.to_nat nbz) 1%Q)
     else monitor ← read_monitor; normalize_dataset data monitor);
  (* pad the data to the shape defined by the ROI *)
  r1 ← getitem (roi det) 1;
  r0 ← getitem (roi det) 0;
  larger ← (if nby <? r1 - r0 then Ok true
            else r3 ← getitem (roi det) 3;
                 r2 ← getitem (roi det) 2;
                 Ok (nbx <? r3 - r2));
  '(data, mask) ←
    (if larger : bool then
       r0 ← getitem (roi det) 0;
       r2 ← getitem (roi det) 2;
       let start := (Z.min 0 r0, Z.min 0 r2) in
       r1 ← getitem (roi det) 1;
       r0 ← getitem (roi det) 0;
       r3 ← getitem (roi det) 3;
       r2 ← getitem (roi det) 2;
       d ← crop_pad data 0%Q start (nz data, r1 - r0, r3 - r2);
       m ← crop_pad mask 1%Q start (nz mask, r1 - r0, r3 - r2);
       Ok (d, m)
     else Ok (data, mask));
  (* apply optional photon threshold before binning *)
  '(data, mask) ←
    (if negb (Qeq_bool photon_threshold 0)
     then mask_below photon_threshold data mask
     else Ok (data, mask));
  (* bin data and mask in the detector plane if needed *)
  b1 ← getitem (binning det) 1;
  binned ← (if negb (b1 =? 1) then Ok true
            else b2 ← getitem (binning det) 2; Ok (negb (b2 =? 1)));
  if binned : bool then
    b1 ← getitem (binning det) 1;
    b2 ← getitem (binning det) 2;
    d ← bin_data data (1, b1, b2);
    m ← bin_data mask (1, b1, b2);
    m ← binarize m;
    Ok (d, m, frames_logical, monitor,
        mk_Detector (roi det) (binning det)
          (zip_with Z.mul (current_binning det) [1; b1; b2]))
  else Ok (data, mask, frames_logical, monitor, det).

End Reload.

End Loading.

(** ** [process_scan]: the estimate of the volume of the crystal *)

Module CrystalVolume.

Import Regrid.

(** [a.max()]: numpy raises on an empty array. *)
Definition amax (a : list Q) : result Q :=
  match a with
  | [] => Raise (ValueError "zero-size array to reduction operation maximum")
  | v :: a' => Ok (fold_left Qmax a' v)
  end.

(** [x < t] for a float [x]: false for a NaN. *)
Definition lt_float (x : pyfloat) (t : Q) : bool :=
  match x with
  | Fin q => negb (Qle_bool t q)
  | NInf => true
  | PInf | NaN => false
  end.

(** The sum and the product of floats. *)
Definition fadd (x y : pyfloat) : pyfloat :=
  match x, y with
  | Fin a, Fin b => Fin (a + b)
  | NaN, _ | _, NaN => NaN
  | PInf, NInf | NInf, PInf => NaN
  | PInf, _ | _, PInf => PInf
  | NInf, _ | _, NInf => NInf
  end.

Definition fmul (x : pyfloat) (q : Q) : pyfloat :=
  match x with
  | Fin a => Fin (a * q)
  | NaN => NaN
  | PInf => match (q ?= 0)%Q with Eq => NaN | Gt => PInf | Lt => NInf end
  | NInf => match (q ?= 0)%Q with Eq => NaN | Gt => NInf | Lt => PInf end
  end.

(** [a.sum()] *)
Definition fsum (a : list pyfloat) : pyfloat := fold_left fadd a (Fin 0).

(** [reduce(lambda x, y: x * y, voxel_size)]: [reduce] raises on an empty
    sequence. *)
Definition reduce_mul (voxel_size : list Q) : result Q :=
  match voxel_size with
  | [] => Raise TypeError
  | v :: l => Ok (fold_left Qmult l v)
  end.

Section FloatDivision.

(** [a / b] on two doubles: numpy returns the double nearest to the
    quotient, an infinity or a NaN.  The rounding is the machine's: the
    quotient is taken from a function of the two operands that is left
    open. *)
Variable divide : Q -> Q -> pyfloat.

(** Lines 757-761 of [process_scan]:
    [amp = amp / amp.max();
     temp_amp = np.copy(amp);
     temp_amp[amp < prm["isosurface_strain"]] = 0;
     temp_amp[np.nonzero(temp_amp)] = 1;
     volume = temp_amp.sum() * reduce(lambda x, y: x * y, voxel_size)] *)
Definition crystal_volume (amp : list Q) (isosurface_strain : Q)
    (voxel_size : list Q) : result pyfloat :=
  m ← amax amp;
  let amp := map (fun a => divide a m) amp in
  let temp_amp := amp in
  temp_amp ← where_set (map (fun a => lt_float a isosurface_strain) amp)
               temp_amp (Fin 0);
  temp_amp ← where_set (map nonzero temp_amp) temp_amp (Fin 1);
  v ← reduce_mul voxel_size;
  Ok (fmul (fsum temp_amp) v).

End FloatDivision.

(** The double nearest to one tenth, [0.1] as Python reads it. *)
Definition tenth : Q := 3602879701896397 # 36028797018963968.

(** A division to run the definition with: exact, but for a quotient of
    one tenth, which it rounds to [tenth] as the machine does. *)
Definition divide_tenth (a b : Q) : pyfloat :=
  if Qeq_bool b 0 then np_div a b
  else if Qeq_bool (a / b) (1 # 10) then Fin tenth
  else np_div a b.

End CrystalVolume.

(** * Properties *)

Import PeakFinder CenterFFT Util Examples.

(** ** Inversion of the error monads *)

Lemma bind_Ok {A B} (m : result A) (f : A -> result B) (b : B) :
  m ≫= f = Ok b -> exists a, m = Ok a /\ f a = Ok b.
Proof. destruct m as [a|e]; simpl; intros H; [eauto | discriminate]. Qed.

Lemma bind_M_Ok {A B} (m : M A) (f : A -> M B) (s s' : list Z) (b : B) :
  (m ≫= f) s = (s', Ok b) ->
  exists a s1, m s = (s1, Ok a) /\ f a s1 = (s', Ok b).
Proof.
  unfold mbind, M_bind. destruct (m s) as [s1 [a|e]]; intros H.
  - eauto.
  - inversion H.
Qed.

Lemma lift_Ok {A} (r : result A) (s s' : list Z) (a : A) :
  lift r s = (s', Ok a) -> s' = s /\ r = Ok a.
Proof. unfold lift. intros H. inversion H. auto. Qed.

Lemma ret_Ok {A} (a b : A) (s s' : list Z) :
  ret a s = (s', Ok b) -> s' = s /\ b = a.
Proof. unfold ret. intros H. inversion H. auto. Qed.

Lemma getitem_lookup {A} (l : list A) (i : nat) (a : A) :
  getitem l (Z.of_nat i) = Ok a -> l !! i = Some a.
Proof.
  unfold getitem. destruct (Z.ltb_spec (Z.of_nat i) 0); [lia|].
  rewrite Nat2Z.id.
  destruct (_ && _); [|discriminate].
  destruct (l !! i); congruence.
Qed.

(** ** PeakFinder *)

Lemma offset_full (self : PeakFinder.t) (p0 p1 p2 r0 r1 r2 r3 : Z) :
  region_of_interest self = [r0; r1; r2; r3] ->
  _offset self [p0; p1; p2] "full_detector" = Ok (p0, p1 + 1 * r0, p2 + 1 * r2).
Proof. intros H. unfold _offset. rewrite H. reflexivity. Qed.

Lemma offset_roi (self : PeakFinder.t) (p0 p1 p2 r0 r1 r2 r3 : Z) :
  region_of_interest self = [r0; r1; r2; r3] ->
  _offset self [p0; p1; p2] "region_of_interest"
  = Ok (p0, p1 + -1 * r0, p2 + -1 * r2).
Proof. intros H. unfold _offset. rewrite H. reflexivity. Qed.

(** C3. Frame conversion of a voxel position [(z, y, x)] with binning
    [(bz, by, bx)] and a region of interest starting at [(r0, r2)]: to the
    full detector the position is multiplied by the binning, then the origin
    of the region is added (sign +1) on the two detector axes; back to the
    region the origin is subtracted (sign -1), then the position is divided
    (floor division) by the binning; the rocking-axis coordinate gets no
    offset in either direction. *)
Theorem frame_conversion_affine
    (self : PeakFinder.t) (z y x bz by_ bx r0 r1 r2 r3 : Z) :
  PeakFinder.binning self = [bz; by_; bx] ->
  region_of_interest self = [r0; r1; r2; r3] ->
  get_indices_full_detector self [z; y; x]
    = Ok (z * bz, y * by_ + 1 * r0, x * bx + 1 * r2)
  /\ get_indices_cropped_binned_detector self [z; y; x]
    = (if (bz =? 0) || (by_ =? 0) || (bx =? 0) then Raise ZeroDivisionError
       else Ok [z / bz; (y + -1 * r0) / by_; (x + -1 * r2) / bx])
  /\ _offset self [z; y; x] "full_detector" = Ok (z, y + 1 * r0, x + 1 * r2)
  /\ _offset self [z; y; x] "region_of_interest"
    = Ok (z, y + -1 * r0, x + -1 * r2).
Proof.
  intros Hb Hr. repeat split.
  - unfold get_indices_full_detector, _unbin. rewrite Hb. simpl.
    now apply offset_full with (r1 := r1) (r3 := r3).
  - unfold get_indices_cropped_binned_detector.
    rewrite (offset_roi self z y x r0 r1 r2 r3 Hr). simpl.
    unfold _bin. rewrite Hb. simpl. unfold floordiv.
    destruct (bz =? 0), (by_ =? 0), (bx =? 0); reflexivity.
  - now apply offset_full with (r1 := r1) (r3 := r3).
  - now apply offset_roi with (r1 := r1) (r3 := r3).
Qed.

Lemma frame_conversion_affine_witness :
  get_indices_full_detector example_finder [3; 10; 20] = Ok (3, 120, 130)
  /\ get_indices_cropped_binned_detector example_finder [3; 120; 130]
     = Ok [3; 10; 20].
Proof.
  destruct (frame_conversion_affine example_finder 3 10 20 1 2 4 100 300 50 250
              eq_refl eq_refl) as (Hfull & _).
  destruct (frame_conversion_affine example_finder 3 120 130 1 2 4 100 300 50 250
              eq_refl eq_refl) as (_ & Hroi & _).
  split; [exact Hfull | exact Hroi].
Defined.

(** [find_peak] fills the three computed methods only. *)
Lemma find_peak_keys (self : PeakFinder.t) (found : gmap string (Z * Z * Z))
    (k : string) :
  find_peak self = Ok found ->
  k <> "max" -> k <> "com" -> k <> "max_com" -> found !! k = None.
Proof.
  unfold find_peak. intros H Hmax Hcom Hmc.
  repeat match type of H with
         | (let '(_, _) := ?p in _) = _ => destruct p
         | _ ≫= _ = Ok _ => apply bind_Ok in H; destruct H as (? & _ & H)
         end.
  inversion H.
  rewrite !lookup_insert_ne by congruence. apply lookup_empty.
Qed.

(** Under a policy without a computed position, no array makes the
    constructor return. *)
Lemma init_without_position_fails
    (arr : ndarray) (roi bin fp : option (list Z)) (method : string) :
  method = "skip" \/ method = "user" ->
  is_ok (PeakFinder.init arr roi bin method fp) = false.
Proof.
  intros Hm. destruct (PeakFinder.init arr roi bin method fp) as [pf|e] eqn:H;
    [exfalso | reflexivity].
  unfold PeakFinder.init in H.
  apply bind_Ok in H. destruct H as (s1 & H1 & H).
  apply bind_Ok in H. destruct H as (s2 & H2 & H).
  apply bind_Ok in H. destruct H as (s3 & H3 & H).
  apply bind_Ok in H. destruct H as (found & Hf & H).
  apply bind_Ok in H. destruct H as (c & Hc & _).
  unfold _roi_center in Hc. apply bind_Ok in Hc. destruct Hc as (b & Hb & _).
  unfold bragg_peak, peaks in Hb. simpl in Hb.
  unfold set_peak_method in H3. destruct (bool_decide _); [|discriminate].
  inversion H3; subst s3. simpl in Hb.
  rewrite (find_peak_keys _ found method Hf) in Hb; [discriminate | | |];
    destruct Hm; subst method; discriminate.
Qed.

(** A name outside [PEAK_METHODS] is rejected by the setter. *)
Lemma init_unsupported_method (arr : ndarray) (method : string)
    (fp : option (list Z)) :
  method ∉ PEAK_METHODS ->
  PeakFinder.init arr None None method fp
  = Raise (ValueError "allowed peak methods").
Proof.
  intros Hm. unfold PeakFinder.init. simpl.
  unfold set_peak_method. rewrite bool_decide_eq_false_2 by exact Hm.
  reflexivity.
Qed.

(** C9. The constructor on a 4x4x4 array with one bright voxel at (2, 2, 2):
    under "skip" and under "user" it raises [KeyError] while it reads the
    position for [_detector_data_at_peak]; it returns under "max". *)
Theorem init_skip_raises_KeyError :
  PeakFinder.init (single_peak 4 4 4 2 2 2) None None "skip" None
    = Raise (KeyError "skip")
  /\ PeakFinder.init (single_peak 4 4 4 2 2 2) None None "user" None
    = Raise (KeyError "user")
  /\ is_ok (PeakFinder.init (single_peak 4 4 4 2 2 2) None None "max" None)
    = true.
Proof. repeat split; vm_compute; reflexivity. Qed.

(** ** FFT-compatible sizes, in the words of the spec *)

Lemma strip_factor (fuel : nat) (p n : Z) :
  1 < p -> 0 < n ->
  0 < strip fuel p n /\ exists k, 0 <= k /\ n = p ^ k * strip fuel p n.
Proof.
  intros Hp. revert n. induction fuel as [|f IH]; intros n Hn; simpl.
  - split; [exact Hn|]. exists 0. split; [lia|]. rewrite Z.pow_0_r. lia.
  - destruct (Z.eqb_spec (n mod p) 0) as [Hm|Hm].
    + assert (Hnp : n = p * (n / p))
        by (rewrite (Z.div_mod n p) at 1 by lia; lia).
      assert (Hq : 0 < n / p) by nia.
      destruct (IH (n / p) Hq) as (Hpos & k & Hk & Heq).
      split; [exact Hpos|]. exists (k + 1). split; [lia|].
      rewrite Z.pow_add_r, Z.pow_1_r by lia. rewrite Hnp at 1.
      rewrite Heq at 1. ring.
    + split; [exact Hn|]. exists 0. split; [lia|]. rewrite Z.pow_0_r. lia.
Qed.

Lemma strip_le (fuel : nat) (p n : Z) :
  1 < p -> 0 < n -> strip fuel p n <= n.
Proof.
  intros Hp Hn. destruct (strip_factor fuel p n Hp Hn) as (Hpos & k & Hk & Heq).
  assert (0 < p ^ k) by (apply Z.pow_pos_nonneg; lia). nia.
Qed.

Lemma strip_divide (fuel : nat) (p n : Z) :
  1 < p -> 0 < n -> (strip fuel p n | n).
Proof.
  intros Hp Hn. destruct (strip_factor fuel p n Hp Hn) as (_ & k & _ & Heq).
  exists (p ^ k). exact Heq.
Qed.

Lemma strip_complete (fuel : nat) (p n : Z) :
  1 < p -> 0 < n -> n < 2 ^ Z.of_nat fuel -> ~ (p | strip fuel p n).
Proof.
  intros Hp. revert n. induction fuel as [|f IH]; intros n Hn Hlt.
  - simpl in Hlt. lia.
  - simpl strip. destruct (Z.eqb_spec (n mod p) 0) as [Hm|Hm].
    + assert (Hnp : n = p * (n / p))
        by (rewrite (Z.div_mod n p) at 1 by lia; lia).
      apply IH; [nia|].
      rewrite Nat2Z.inj_succ, Z.pow_succ_r in Hlt by lia. nia.
    + intros Hd. apply Hm. now apply Z.mod0_divide.
Qed.

Lemma log2_fuel (n m : Z) :
  0 < m <= n -> m < 2 ^ Z.of_nat (S (Z.to_nat (Z.log2 n))).
Proof.
  intros Hm. rewrite Nat2Z.inj_succ, Z2Nat.id by apply Z.log2_nonneg.
  pose proof (Z.log2_spec n ltac:(lia)). lia.
Qed.

Lemma prime_5 : Z.prime 5.
Proof.
  split; [lia|]. intros n Hn Hd. apply Z.mod0_divide in Hd.
  assert (n = 2 \/ n = 3 \/ n = 4) as [->|[->| ->]] by lia; discriminate.
Qed.

Lemma prime_7 : Z.prime 7.
Proof.
  split; [lia|]. intros n Hn Hd. apply Z.mod0_divide in Hd.
  assert (n = 2 \/ n = 3 \/ n = 4 \/ n = 5 \/ n = 6)
    as [->|[->|[->|[->| ->]]]] by lia; discriminate.
Qed.

Lemma small_primes (p : Z) :
  Z.prime p -> p <= 7 -> p = 2 \/ p = 3 \/ p = 5 \/ p = 7.
Proof.
  intros [Hgt Hp] Hle.
  assert (p = 2 \/ p = 3 \/ p = 4 \/ p = 5 \/ p = 6 \/ p = 7)
    as [->|[->|[->|[->|[->| ->]]]]] by lia; auto.
  - exfalso. apply (Hp 2); [lia|]. exists 2. reflexivity.
  - exfalso. apply (Hp 2); [lia|]. exists 3. reflexivity.
Qed.

(** Below a bound, either no number divides [n] or some number does. *)
Lemma divisor_below (n : Z) (b : nat) :
  (forall d, 1 < d < Z.of_nat b -> ~ (d | n))
  \/ exists d, 1 < d < Z.of_nat b /\ (d | n).
Proof.
  induction b as [|b [IH|IH]].
  - left. intros d Hd. lia.
  - destruct (Z.eqb_spec (n mod Z.of_nat b) 0) as [Hm|Hm].
    + destruct (Z_lt_le_dec 1 (Z.of_nat b)) as [Hb|Hb].
      * right. exists (Z.of_nat b). split; [lia|].
        apply Z.mod_divide; [lia|exact Hm].
      * left. intros d Hd. lia.
    + left. intros d Hd. destruct (Z.eq_dec d (Z.of_nat b)) as [->|Hne].
      * intros Hdiv. apply Hm. now apply Z.mod0_divide.
      * apply IH. lia.
  - right. destruct IH as (d & Hd & Hdiv). exists d. split; [lia|exact Hdiv].
Qed.

Lemma prime_divisor (n : Z) : 1 < n -> exists p, Z.prime p /\ (p | n).
Proof.
  assert (H : forall k : nat, forall n, 1 < n -> n < Z.of_nat k ->
                exists p, Z.prime p /\ (p | n)).
  { induction k as [|k IH]; intros m Hm Hk; [lia|].
    destruct (divisor_below m (Z.to_nat m)) as [Hnone|(d & Hd & Hdiv)].
    - exists m. split; [|apply Z.divide_refl].
      split; [exact Hm|]. intros d Hd. apply Hnone. lia.
    - destruct (IH d) as (p & Hp & Hpd); [lia|lia|].
      exists p. split; [exact Hp|]. now apply Z.divide_trans with d. }
  intros Hn. apply (H (Z.to_nat (n + 1))); lia.
Qed.

(** The test of the model decides the spec's FFT-compatible sizes. *)
Theorem fft_compatible_spec (n : Z) :
  fft_compatible n = true <-> FFT_compatible n.
Proof.
  unfold FFT_compatible, fft_compatible. set (fuel := S (Z.to_nat (Z.log2 n))).
  split.
  - intros H. apply andb_prop in H as [H H7]. apply andb_prop in H as [H0 H2].
    apply Z.ltb_lt in H0. apply Z.eqb_eq in H2, H7.
    split; [exact H0|]. split; [apply Z.mod_divide; [lia|exact H2]|].
    intros p Hp Hd.
    destruct (strip_factor fuel 2 n ltac:(lia) H0) as (P2 & a & Ha & E2).
    destruct (strip_factor fuel 3 _ ltac:(lia) P2) as (P3 & b & Hb & E3).
    destruct (strip_factor fuel 5 _ ltac:(lia) P3) as (P5 & c & Hc & E5).
    destruct (strip_factor fuel 7 _ ltac:(lia) P5) as (P7 & e & He & E7).
    rewrite H7, Z.mul_1_r in E7. rewrite E7 in E5. rewrite E5 in E3.
    rewrite E3 in E2. rewrite E2 in Hd.
    apply (Z.divide_prime_mul _ _ p Hp) in Hd as [Hd|Hd].
    { apply (Z.divide_prime_pp p 2 a Hp Z.prime_2 Ha) in Hd. lia. }
    apply (Z.divide_prime_mul _ _ p Hp) in Hd as [Hd|Hd].
    { apply (Z.divide_prime_pp p 3 b Hp Z.prime_3 Hb) in Hd. lia. }
    apply (Z.divide_prime_mul _ _ p Hp) in Hd as [Hd|Hd].
    { apply (Z.divide_prime_pp p 5 c Hp prime_5 Hc) in Hd. lia. }
    apply (Z.divide_prime_pp p 7 e Hp prime_7 He) in Hd. lia.
  - intros (H0 & H2 & Hp).
    apply andb_true_intro. split; [apply andb_true_intro; split|].
    + now apply Z.ltb_lt.
    + apply Z.eqb_eq. now apply Z.mod0_divide.
    + apply Z.eqb_eq.
      set (r2 := strip fuel 2 n). set (r3 := strip fuel 3 r2).
      set (r5 := strip fuel 5 r3). set (r7 := strip fuel 7 r5).
      destruct (strip_factor fuel 2 n ltac:(lia) H0) as (P2 & _).
      destruct (strip_factor fuel 3 r2 ltac:(lia) P2) as (P3 & _).
      destruct (strip_factor fuel 5 r3 ltac:(lia) P3) as (P5 & _).
      destruct (strip_factor fuel 7 r5 ltac:(lia) P5) as (P7 & _).
      fold r2 in P2. fold r3 in P3. fold r5 in P5. fold r7 in P7.
      pose proof (strip_le fuel 2 n ltac:(lia) H0) as L2. fold r2 in L2.
      pose proof (strip_le fuel 3 r2 ltac:(lia) P2) as L3. fold r3 in L3.
      pose proof (strip_le fuel 5 r3 ltac:(lia) P3) as L5. fold r5 in L5.
      pose proof (strip_divide fuel 2 n ltac:(lia) H0) as D2. fold r2 in D2.
      pose proof (strip_divide fuel 3 r2 ltac:(lia) P2) as D3. fold r3 in D3.
      pose proof (strip_divide fuel 5 r3 ltac:(lia) P3) as D5. fold r5 in D5.
      pose proof (strip_divide fuel 7 r5 ltac:(lia) P5) as D7. fold r7 in D7.
      pose proof (strip_complete fuel 2 n ltac:(lia) H0
                    (log2_fuel n n ltac:(lia))) as N2. fold r2 in N2.
      pose proof (strip_complete fuel 3 r2 ltac:(lia) P2
                    (log2_fuel n r2 ltac:(lia))) as N3. fold r3 in N3.
      pose proof (strip_complete fuel 5 r3 ltac:(lia) P3
                    (log2_fuel n r3 ltac:(lia))) as N5. fold r5 in N5.
      pose proof (strip_complete fuel 7 r5 ltac:(lia) P5
                    (log2_fuel n r5 ltac:(lia))) as N7. fold r7 in N7.
      destruct (Z_lt_le_dec 1 r7) as [Hgt|Hle]; [exfalso|lia].
      destruct (prime_divisor r7 Hgt) as (p & Hprime & Hpd).
      assert (Hpn : (p | n)).
      { apply Z.divide_trans with r7; [exact Hpd|].
        apply Z.divide_trans with r5; [exact D7|].
        apply Z.divide_trans with r3; [exact D5|].
        apply Z.divide_trans with r2; [exact D3|exact D2]. }
      destruct (small_primes p Hprime (Hp p Hprime Hpn)) as [->|[->|[->| ->]]].
      * apply N2. apply Z.divide_trans with r7; [exact Hpd|].
        apply Z.divide_trans with r5; [exact D7|].
        apply Z.divide_trans with r3; [exact D5|exact D3].
      * apply N3. apply Z.divide_trans with r7; [exact Hpd|].
        apply Z.divide_trans with r5; [exact D7|exact D5].
      * apply N5. apply Z.divide_trans with r7; [exact Hpd|exact D7].
      * apply N7. exact Hpd.
Qed.

Lemma fft_compatible_2 : fft_compatible 2 = true.
Proof. reflexivity. Qed.

Lemma fft_compatible_pow2 (k : Z) : 1 <= k -> fft_compatible (2 ^ k) = true.
Proof.
  intros Hk. apply fft_compatible_spec. unfold FFT_compatible. split; [|split].
  - apply Z.pow_pos_nonneg; lia.
  - apply Z.divide_pow_same_r. exact Hk.
  - intros p Hp Hd.
    apply (Z.divide_prime_pp p 2 k Hp Z.prime_2) in Hd; lia.
Qed.

(** [smaller_primes n] is the largest FFT-compatible size that is at most
    [n], and there is one exactly when [2 <= n]. *)
Lemma search_down_largest (fuel : nat) (n c : Z) :
  n - Z.of_nat fuel < c <= n -> fft_compatible c = true ->
  exists m, search_down fuel n = Ok m /\ fft_compatible m = true /\ c <= m <= n
            /\ forall k, m < k <= n -> fft_compatible k = false.
Proof.
  revert n. induction fuel as [|f IH]; intros n Hc Hcomp; [lia|].
  simpl. destruct (fft_compatible n) eqn:E.
  - exists n. repeat split; try lia; try assumption.
  - assert (c <> n) by congruence.
    destruct (IH (n - 1)) as (m & Hm & Hcm & Hle & Hmax); [lia|exact Hcomp|].
    exists m. repeat split; try lia; try assumption.
    intros k Hk. destruct (Z.eq_dec k n) as [->|]; [exact E|apply Hmax; lia].
Qed.

Theorem smaller_primes_largest (n : Z) :
  2 <= n ->
  exists m, smaller_primes n = Ok m /\ fft_compatible m = true /\ 2 <= m <= n
            /\ forall k, m < k <= n -> fft_compatible k = false.
Proof.
  intros Hn. apply search_down_largest; [lia|exact fft_compatible_2].
Qed.

Lemma smaller_primes_none (n : Z) : n < 2 -> is_ok (smaller_primes n) = false.
Proof.
  intros Hn. unfold smaller_primes.
  destruct (Z.to_nat n) as [|[|k]] eqn:E; [reflexivity| |lia].
  assert (n = 1) by lia. subst n. reflexivity.
Qed.

(** [higher_primes n] is the smallest FFT-compatible size that is at least
    [n]. *)
Lemma search_up_smallest (fuel : nat) (n c : Z) :
  n <= c <= n + Z.of_nat fuel -> fft_compatible c = true ->
  fft_compatible (search_up fuel n) = true
  /\ n <= search_up fuel n <= c
  /\ forall k, n <= k < search_up fuel n -> fft_compatible k = false.
Proof.
  revert n. induction fuel as [|f IH]; intros n Hc Hcomp; simpl.
  - assert (c = n) by lia. subst c. repeat split; try lia; try assumption.
  - destruct (fft_compatible n) eqn:E.
    + repeat split; try lia; try assumption.
    + assert (c <> n) by congruence.
      destruct (IH (n + 1)) as (Hcm & Hle & Hmin); [lia|exact Hcomp|].
      repeat split; try lia; try assumption.
      intros k Hk. destruct (Z.eq_dec k n) as [->|]; [exact E|apply Hmin; lia].
Qed.

Theorem higher_primes_smallest (n : Z) :
  fft_compatible (higher_primes n) = true
  /\ n <= higher_primes n
  /\ forall k, n <= k < higher_primes n -> fft_compatible k = false.
Proof.
  unfold higher_primes.
  destruct (Z_lt_le_dec n 3) as [Hsmall|Hbig].
  - destruct (search_up_smallest (Z.to_nat (Z.abs n) + 2) n 2)
      as (H1 & H2 & H3); [lia|exact fft_compatible_2|].
    repeat split; try lia; assumption.
  - pose proof (Z.log2_up_spec n ltac:(lia)) as Hlog.
    pose proof (Z.log2_up_pos n ltac:(lia)) as Hpos.
    assert (Hpow : 2 ^ Z.log2_up n = 2 * 2 ^ Z.pred (Z.log2_up n)).
    { rewrite <- Z.pow_succ_r by lia. f_equal. lia. }
    destruct (search_up_smallest (Z.to_nat (Z.abs n) + 2) n
                (2 ^ Z.log2_up n)) as (H1 & H2 & H3);
      [lia|apply fft_compatible_pow2; lia|].
    repeat split; try lia; assumption.
Qed.

(** ** center_fft *)

(** The axes that [resolve_center] returns are those of [q_values]. *)
Lemma resolve_center_axes (data : ndarray) (det : detector)
    (centering : string) (kw : kwargs) (qx qz qy : list Q) (c : Z * Z * Z)
    (qv : list (list Q)) :
  resolve_center data det centering kw = Ok ((qx, qz, qy), c) ->
  q_values kw = Some qv ->
  qv !! 0%nat = Some qx /\ qv !! 1%nat = Some qz /\ qv !! 2%nat = Some qy.
Proof.
  unfold resolve_center. intros H Hq. rewrite Hq in H.
  apply bind_Ok in H. destruct H as ([[ax az] ay] & Hax & H).
  apply bind_Ok in Hax. destruct Hax as (x0 & H0 & Hax).
  apply bind_Ok in Hax. destruct Hax as (x1 & H1 & Hax).
  apply bind_Ok in Hax. destruct Hax as (x2 & H2 & Hax).
  inversion Hax; subst x0 x1 x2.
  apply bind_Ok in H. destruct H as ([[? ?] ?] & _ & H).
  apply bind_Ok in H. destruct H as ([[? ?] ?] & _ & H).
  apply bind_Ok in H. destruct H as (? & _ & H).
  apply bind_Ok in H. destruct H as (? & _ & H).
  apply bind_Ok in H. destruct H as (? & _ & H).
  apply bind_Ok in H. destruct H as (? & _ & H).
  inversion H; subst.
  repeat split.
  - apply (getitem_lookup qv 0 _ H0).
  - apply (getitem_lookup qv 1 _ H1).
  - apply (getitem_lookup qv 2 _ H2).
Qed.

Lemma q_values_rebuilt (data : ndarray) (det : detector)
    (centering : string) (kw : kwargs) (qx qz qy : list Q) (c : Z * Z * Z) :
  resolve_center data det centering kw = Ok ((qx, qz, qy), c) ->
  match q_values kw with
  | Some qv => Some (<[2%nat := qy]> (<[1%nat := qz]> (<[0%nat := qx]> qv)))
  | None => None
  end = q_values kw.
Proof.
  intros H. destruct (q_values kw) as [qv|] eqn:Hq; [|reflexivity].
  destruct (resolve_center_axes _ _ _ _ _ _ _ _ qv H Hq) as (H0 & H1 & H2).
  rewrite (list_insert_id qv 0 qx H0), (list_insert_id qv 1 qz H1),
    (list_insert_id qv 2 qy H2).
  reflexivity.
Qed.

(** The centre that [resolve_center] returns is a valid index of the data. *)
Lemma resolve_center_in_bounds (data : ndarray) (det : detector)
    (centering : string) (kw : kwargs) (qs : list Q * list Q * list Q)
    (iz0 iy0 ix0 : Z) :
  resolve_center data det centering kw = Ok (qs, (iz0, iy0, ix0)) ->
  is_ok (getitem3 data iz0 iy0 ix0) = true.
Proof.
  unfold resolve_center. intros H.
  apply bind_Ok in H. destruct H as ([[ax az] ay] & _ & H).
  apply bind_Ok in H. destruct H as ([[? ?] ?] & _ & H).
  apply bind_Ok in H. destruct H as ([[? ?] ?] & _ & H).
  apply bind_Ok in H. destruct H as (? & _ & H).
  apply bind_Ok in H. destruct H as (? & _ & H).
  apply bind_Ok in H. destruct H as (? & _ & H).
  apply bind_Ok in H. destruct H as (? & Hg & H).
  inversion H; subst. rewrite Hg. reflexivity.
Qed.

(** [center_fft] once the arrays are checked and the centre is resolved. *)
Lemma center_fft_resolved (data mask : ndarray) (det : detector)
    (centering fft_option : string) (kw : kwargs) (frames : list Z)
    (qx qz qy : list Q) (iz0 iy0 ix0 : Z) :
  valid_ndarray data mask = Ok tt ->
  resolve_center data det centering kw = Ok ((qx, qz, qy), (iz0, iy0, ix0)) ->
  center_fft data mask det centering fft_option kw frames
  = match run_policy data mask kw qx qz qy iz0 iy0 ix0
            (if degenerate (max_box data (iz0, iy0, ix0)) then "skip"
             else fft_option) frames with
    | (s, Ok (d, m, pad_width, (qx', qz', qy'), fresh)) =>
        (s, Ok (mk_output d m pad_width
                  (match q_values kw with
                   | Some qv => Some (<[2%nat := qy']> (<[1%nat := qz']>
                                        (<[0%nat := qx']> qv)))
                   | None => None
                   end)
                  (match fresh with Some l => l | None => s end)))
    | (s, Raise e) => (s, Raise e)
    end.
Proof.
  intros Hv Hr. unfold center_fft, mbind, M_bind, lift. rewrite Hv, Hr.
  destruct (run_policy _ _ _ _ _ _ _ _ _ _ frames) as [s [r|e]]; [|reflexivity].
  destruct r as [[[[d m] pw] [[qx' qz'] qy']] fresh].
  destruct fresh; reflexivity.
Qed.

(** When the call returns, the arrays were checked and the centre resolved. *)
Lemma center_fft_returns (data mask : ndarray) (det : detector)
    (centering fft_option : string) (kw : kwargs) (frames s' : list Z)
    (out : output) :
  center_fft data mask det centering fft_option kw frames = (s', Ok out) ->
  valid_ndarray data mask = Ok tt /\
  exists qx qz qy iz0 iy0 ix0,
    resolve_center data det centering kw = Ok ((qx, qz, qy), (iz0, iy0, ix0)).
Proof.
  unfold center_fft, mbind at 1, M_bind, lift. intros H.
  destruct (valid_ndarray data mask) as [[]|e]; [|inversion H].
  split; [reflexivity|].
  unfold mbind at 1, M_bind in H.
  destruct (resolve_center data det centering kw)
    as [[[[qx qz] qy] [[iz0 iy0] ix0]]|e]; [|inversion H].
  eauto 10.
Qed.

Lemma run_policy_skip (data mask : ndarray) (kw : kwargs) (qx qz qy : list Q)
    (iz0 iy0 ix0 : Z) (frames : list Z) :
  run_policy data mask kw qx qz qy iz0 iy0 ix0 "skip" frames
  = (frames, Ok (data, mask, no_padding, (qx, qz, qy), None)).
Proof. reflexivity. Qed.

(** C2. Whenever [center_fft] returns under [fft_option = "skip"], it
    returns the data, the mask, the q values and [frames_logical] it was
    given, with a [pad_width] of six zeros, and the caller's
    [frames_logical] array is left as it was. *)
Theorem skip_is_identity (data mask : ndarray) (det : detector)
    (centering : string) (kw : kwargs) (frames s' : list Z) (out : output) :
  center_fft data mask det centering "skip" kw frames = (s', Ok out) ->
  s' = frames /\
  out = mk_output data mask [0; 0; 0; 0; 0; 0] (q_values kw) frames.
Proof.
  intros H.
  destruct (center_fft_returns _ _ _ _ _ _ _ _ _ H)
    as (Hv & qx & qz & qy & iz0 & iy0 & ix0 & Hr).
  rewrite (center_fft_resolved _ _ _ _ _ _ _ _ _ _ _ _ _ Hv Hr) in H.
  replace (if degenerate (max_box data (iz0, iy0, ix0)) then "skip" else "skip")
    with "skip" in H by (destruct (degenerate _); reflexivity).
  rewrite run_policy_skip in H.
  rewrite (q_values_rebuilt _ _ _ _ _ _ _ _ Hr) in H.
  inversion H. split; reflexivity.
Qed.

Lemma min_zero_degenerate (data : ndarray) (iz0 iy0 ix0 : Z) :
  Z.min iz0 (nz data - iz0) = 0 \/ Z.min iy0 (ny data - iy0) = 0
  \/ Z.min ix0 (nx data - ix0) = 0 <->
  degenerate (max_box data (iz0, iy0, ix0)) = true.
Proof.
  unfold degenerate, max_box. rewrite !orb_true_iff, !Z.eqb_eq. lia.
Qed.

(** C6. When the centre is resolved and the symmetric box around it has a
    zero half-width on some axis, [center_fft] returns its input unchanged,
    with no padding, whatever [fft_option] asks for. *)
Theorem degenerate_box_forces_skip (data mask : ndarray) (det : detector)
    (centering fft_option : string) (kw : kwargs) (frames : list Z)
    (qs : list Q * list Q * list Q) (iz0 iy0 ix0 : Z) :
  valid_ndarray data mask = Ok tt ->
  resolve_center data det centering kw = Ok (qs, (iz0, iy0, ix0)) ->
  Z.min iz0 (nz data - iz0) = 0 \/ Z.min iy0 (ny data - iy0) = 0
  \/ Z.min ix0 (nx data - ix0) = 0 ->
  center_fft data mask det centering fft_option kw frames
  = (frames,
     Ok (mk_output data mask [0; 0; 0; 0; 0; 0] (q_values kw) frames)).
Proof.
  intros Hv Hr Hmin. destruct qs as [[qx qz] qy].
  rewrite (center_fft_resolved _ _ _ _ _ _ _ _ _ _ _ _ _ Hv Hr).
  apply min_zero_degenerate in Hmin. rewrite Hmin.
  rewrite run_policy_skip.
  rewrite (q_values_rebuilt _ _ _ _ _ _ _ _ Hr). reflexivity.
Qed.

(** *** The test of a caller-given size *)

Lemma search_up_ge (fuel : nat) (n : Z) : n <= search_up fuel n.
Proof.
  revert n. induction fuel as [|f IH]; intros n; simpl; [lia|].
  destruct (fft_compatible n); [lia|]. specialize (IH (n + 1)). lia.
Qed.

Lemma higher_primes_fixpoint (p : Z) :
  (p =? higher_primes p) = fft_compatible p.
Proof.
  unfold higher_primes. replace (Z.to_nat (Z.abs p) + 2)%nat
    with (S (Z.to_nat (Z.abs p) + 1)) by lia.
  simpl. destruct (fft_compatible p); [apply Z.eqb_refl|].
  pose proof (search_up_ge (Z.to_nat (Z.abs p) + 1) (p + 1)).
  apply Z.eqb_neq. lia.
Qed.

Lemma higher_primes_ge (n : Z) : n <= higher_primes n.
Proof. apply search_up_ge. Qed.

Lemma check_pad_size_spec (ps : list Z) (i : Z) :
  check_pad_size ps i
  = p ← getitem ps i;
    if fft_compatible p then Ok p
    else Raise (ValueError "does not meet FFT requirements").
Proof.
  unfold check_pad_size. destruct (getitem ps i) as [p|e]; [|reflexivity].
  simpl. rewrite higher_primes_fixpoint. reflexivity.
Qed.

(** Under "skip" the call returns as soon as the arrays pass the check and
    the centre is resolved. *)
Lemma skip_returns (data mask : ndarray) (det : detector)
    (centering : string) (kw : kwargs) (frames : list Z)
    (qs : list Q * list Q * list Q) (c : Z * Z * Z) :
  valid_ndarray data mask = Ok tt ->
  resolve_center data det centering kw = Ok (qs, c) ->
  center_fft data mask det centering "skip" kw frames
  = (frames,
     Ok (mk_output data mask [0; 0; 0; 0; 0; 0] (q_values kw) frames)).
Proof.
  intros Hv Hr. destruct qs as [[qx qz] qy], c as [[iz0 iy0] ix0].
  rewrite (center_fft_resolved _ _ _ _ _ _ _ _ _ _ _ _ _ Hv Hr).
  replace (if degenerate (max_box data (iz0, iy0, ix0)) then "skip" else "skip")
    with "skip" by (destruct (degenerate _); reflexivity).
  rewrite run_policy_skip, (q_values_rebuilt _ _ _ _ _ _ _ _ Hr). reflexivity.
Qed.

(** Without ['q_values'] the keyword defaults to an empty list, which is not
    [None]: line 481 reads its first entry and raises, under every policy. *)
Lemma default_q_values_raise (data mask : ndarray) (det : detector)
    (centering fft_option : string) (kw : kwargs) (frames : list Z) :
  valid_ndarray data mask = Ok tt ->
  q_values kw = Some [] ->
  center_fft data mask det centering fft_option kw frames
  = (frames, Raise IndexError).
Proof.
  intros Hv Hq. unfold center_fft, mbind at 1, M_bind, lift. rewrite Hv.
  unfold mbind at 1, M_bind, resolve_center. rewrite Hq. reflexivity.
Qed.

Lemma default_call_raises :
  center_fft volume mask0 det0 "max" "skip" default_kwargs frames0
  = (frames0, Raise IndexError).
Proof. apply default_q_values_raise; reflexivity. Qed.

Lemma skip_is_identity_witness :
  exists s' out,
    center_fft volume mask0 det0 "max" "skip" (with_q []) frames0 = (s', Ok out)
    /\ s' = frames0
    /\ out = mk_output volume mask0 [0; 0; 0; 0; 0; 0] (Some q0) frames0.
Proof.
  exists frames0, (mk_output volume mask0 [0; 0; 0; 0; 0; 0] (Some q0) frames0).
  assert (H : center_fft volume mask0 det0 "max" "skip" (with_q []) frames0
              = (frames0,
                 Ok (mk_output volume mask0 [0; 0; 0; 0; 0; 0] (Some q0)
                       frames0)))
    by (vm_compute; reflexivity).
  split; [exact H|].
  exact (skip_is_identity _ _ _ _ _ _ _ _ H).
Defined.

Lemma degenerate_box_forces_skip_witness :
  center_fft volume_border mask0 det0 "max" "crop_sym_ZYX" (no_q []) frames0
  = (frames0,
     Ok (mk_output volume_border mask0 [0; 0; 0; 0; 0; 0] None frames0)).
Proof.
  apply (degenerate_box_forces_skip volume_border mask0 det0 "max"
           "crop_sym_ZYX" (no_q []) frames0 ([], [], []) 0 4 4).
  - vm_compute; reflexivity.
  - vm_compute; reflexivity.
  - left. vm_compute; reflexivity.
Defined.

(** With a ['pad_size'], [pad_asym_ZYX] pads 13 frames to 14; only its
    second entry is read. *)
Lemma pad_asym_ZYX_with_pad_size :
  exists out,
    center_fft volume13 mask13 det0 "max" "pad_asym_ZYX" (no_q [16; 16; 16])
      frames13 = (frames13, Ok out)
    /\ shape (out_data out) = (14, 8, 8)
    /\ out_pad_width out = [1; 0; 0; 0; 0; 0].
Proof.
  eexists (mk_output _ _ _ _ _). cbn [out_data out_pad_width].
  split; [vm_compute; reflexivity|]. split; reflexivity.
Qed.

(** The claim of C4 as it is written fails at its own example: 70 = 2 * 5 * 7
    is FFT-compatible, and [pad_sym_Z] pads the rocking axis to 70 frames. *)
Lemma pad_size_70_is_accepted :
  FFT_compatible 70 /\ 70 = 2 * 5 * 7 /\
  (exists out,
     center_fft volume mask0 det0 "max" "pad_sym_Z" (no_q [70; 8; 8]) frames0
     = (frames0, Ok out)
     /\ shape (out_data out) = (70, 8, 8)).
Proof.
  split; [apply fft_compatible_spec; reflexivity|]. split; [reflexivity|].
  eexists. split; [vm_compute; reflexivity|reflexivity].
Qed.

(** C4, amended. When the centre is resolved and the box is not degenerate,
    a policy that tests entries of a three-element ['pad_size'] raises
    [ValueError] as soon as one of the tested entries is not FFT-compatible,
    and the caller's [frames_logical] is as it was. *)
Theorem incompatible_pad_size_rejected (data mask : ndarray) (det : detector)
    (centering fft_option : string) (kw : kwargs) (frames : list Z)
    (qs : list Q * list Q * list Q) (c : Z * Z * Z) (p : Z) :
  valid_ndarray data mask = Ok tt ->
  resolve_center data det centering kw = Ok (qs, c) ->
  degenerate (max_box data c) = false ->
  length (pad_size kw) = 3%nat ->
  p ∈ checked_sizes fft_option (pad_size kw) ->
  ~ FFT_compatible p ->
  center_fft data mask det centering fft_option kw frames
  = (frames, Raise (ValueError "does not meet FFT requirements")).
Proof.
  intros Hv Hr Hd Hlen Hin Hp. destruct qs as [[qx qz] qy], c as [[iz0 iy0] ix0].
  rewrite <- fft_compatible_spec in Hp. apply not_true_is_false in Hp.
  rewrite (center_fft_resolved _ _ _ _ _ _ _ _ _ _ _ _ _ Hv Hr), Hd.
  destruct (pad_size kw) as [|a [|b [|c [|]]]] eqn:Hps; try discriminate.
  unfold checked_sizes in Hin.
  repeat case_bool_decide; simpl in Hin;
    try (apply elem_of_nil in Hin; contradiction);
    try subst fft_option; try discriminate.
  - apply list_elem_of_singleton in Hin. subst a.
    change (run_policy data mask kw qx qz qy iz0 iy0 ix0 "pad_sym_Z_crop_sym_YX")
      with (pad_sym_Z_crop_sym_YX data mask kw qx qz qy iz0 iy0 ix0).
    unfold pad_sym_Z_crop_sym_YX, check_pad_len. rewrite check_pad_size_spec, Hps.
    unfold getitem. simpl. unfold mbind, M_bind, lift. simpl. rewrite Hp. reflexivity.
  - apply list_elem_of_singleton in Hin. subst a.
    change (run_policy data mask kw qx qz qy iz0 iy0 ix0 "pad_sym_Z_crop_asym_YX")
      with (pad_sym_Z_crop_asym_YX data mask kw qx qz qy iz0 iy0 ix0).
    unfold pad_sym_Z_crop_asym_YX, check_pad_len. rewrite check_pad_size_spec, Hps.
    unfold getitem. simpl. unfold mbind, M_bind, lift. simpl. rewrite Hp. reflexivity.
  - apply list_elem_of_singleton in Hin. subst a.
    change (run_policy data mask kw qx qz qy iz0 iy0 ix0 "pad_sym_Z")
      with (pad_sym_Z data mask kw qx qz qy iz0).
    unfold pad_sym_Z, check_pad_len. rewrite check_pad_size_spec, Hps.
    unfold getitem. simpl. unfold mbind, M_bind, lift. simpl. rewrite Hp. reflexivity.
  - change (run_policy data mask kw qx qz qy iz0 iy0 ix0 "pad_sym_ZYX")
      with (pad_sym_ZYX data mask kw qx qz qy iz0 iy0 ix0).
    unfold pad_sym_ZYX, check_pad_len. rewrite !check_pad_size_spec, Hps.
    unfold getitem. simpl. unfold mbind, M_bind, lift. simpl.
    destruct (fft_compatible a) eqn:Ha; [|reflexivity].
    destruct (fft_compatible b) eqn:Hb; [|reflexivity].
    destruct (fft_compatible c) eqn:Hc; [|reflexivity].
    exfalso. apply elem_of_cons in Hin as [->|Hin]; [congruence|].
    apply elem_of_cons in Hin as [->|Hin]; [congruence|].
    apply list_elem_of_singleton in Hin. congruence.
Qed.

Lemma incompatible_pad_size_rejected_witness :
  center_fft volume mask0 det0 "max" "pad_sym_ZYX" (no_q [16; 66; 8]) frames0
  = (frames0, Raise (ValueError "does not meet FFT requirements")).
Proof.
  apply (incompatible_pad_size_rejected volume mask0 det0 "max" "pad_sym_ZYX"
           (no_q [16; 66; 8]) frames0 ([], [], []) (4, 4, 4) 66).
  - vm_compute; reflexivity.
  - vm_compute; reflexivity.
  - vm_compute; reflexivity.
  - reflexivity.
  - change (66 ∈ [16; 66; 8]). apply list_elem_of_further, list_elem_of_here.
  - intros H. apply fft_compatible_spec in H. discriminate H.
Defined.

(** ** center_fft: the frames *)

Lemma slice_bound_range (n i : Z) : 0 <= n -> 0 <= slice_bound n i <= n.
Proof. unfold slice_bound. destruct (Z.ltb_spec i 0); lia. Qed.

Lemma slice_indices_range (n a b s len : Z) :
  0 <= n -> slice_indices n a b = (s, len) ->
  0 <= s /\ 0 <= len /\ s + len <= n.
Proof.
  intros Hn H. unfold slice_indices in H. inversion H; subst; clear H.
  pose proof (slice_bound_range n a Hn). pose proof (slice_bound_range n b Hn).
  lia.
Qed.

Lemma slice_indices_inside (n a b : Z) :
  0 <= a <= b -> b <= n -> slice_indices n a b = (a, b - a).
Proof.
  intros Ha Hb. unfold slice_indices, slice_bound.
  destruct (Z.ltb_spec a 0), (Z.ltb_spec b 0); try lia.
  rewrite !Z.min_l by lia. f_equal. lia.
Qed.

Lemma search_down_spec (fuel : nat) (n m : Z) :
  search_down fuel n = Ok m -> fft_compatible m = true /\ m <= n.
Proof.
  revert n. induction fuel as [|f IH]; intros n; simpl; [discriminate|].
  destruct (fft_compatible n) eqn:E.
  - intros H. inversion H; subst. split; [exact E | lia].
  - intros H. apply IH in H. split; [tauto | lia].
Qed.

Lemma fft_compatible_pos (n : Z) : fft_compatible n = true -> 0 < n.
Proof.
  unfold fft_compatible. intros H.
  apply andb_prop in H as [H _]. apply andb_prop in H as [H _]. lia.
Qed.

Lemma smaller_primes_bounds (n m : Z) :
  smaller_primes n = Ok m -> 0 < m <= n.
Proof.
  unfold smaller_primes. intros H. apply search_down_spec in H as [H1 H2].
  apply fft_compatible_pos in H1. lia.
Qed.

Lemma preserves_lift {A} (r : result A) : preserves (lift r).
Proof. intros s s' a H. now apply lift_Ok in H. Qed.

Lemma preserves_ret {A} (a : A) : preserves (ret a).
Proof. intros s s' b H. now apply ret_Ok in H. Qed.

Lemma preserves_bind {A B} (m : M A) (f : A -> M B) :
  preserves m -> (forall a, preserves (f a)) -> preserves (m ≫= f).
Proof.
  intros Hm Hf s s' b H. apply bind_M_Ok in H as (a & s1 & H1 & H2).
  apply Hm in H1. apply Hf in H2. congruence.
Qed.

Lemma preserves_if {A} (c : bool) (m1 m2 : M A) :
  preserves m1 -> preserves m2 -> preserves (if c then m1 else m2).
Proof. intros H1 H2. destruct c; assumption. Qed.

Ltac solve_preserves :=
  repeat first [ apply preserves_ret | apply preserves_lift
               | apply preserves_if | apply preserves_bind | intro ].

Lemma assign_scalar_inside (l : list Z) (a b v : Z) :
  0 <= a <= b -> b <= Z.of_nat (length l) ->
  assign_scalar l a b v
  = take (Z.to_nat a) l ++ replicate (Z.to_nat (b - a)) v
      ++ drop (Z.to_nat b) l.
Proof.
  intros Ha Hb. unfold assign_scalar.
  rewrite slice_indices_inside by lia.
  replace (a + (b - a)) with b by lia. reflexivity.
Qed.

(** What the two guarded assignments of a cropping branch leave in the
    caller's [frames_logical] when the frames [lo], ..., [hi - 1] are kept. *)
Lemma crop_frames_spec (data : ndarray) (lo hi : Z) (frames : list Z) :
  Z.of_nat (length frames) = nz data ->
  0 <= lo <= hi -> hi <= nz data ->
  crop_frames data (lo, hi) frames
  = (replicate (Z.to_nat lo) 0
       ++ take (Z.to_nat hi - Z.to_nat lo) (drop (Z.to_nat lo) frames)
       ++ replicate (length frames - Z.to_nat hi) 0,
     Ok tt).
Proof.
  intros Hlen Hlo Hhi. unfold crop_frames, mbind, M_bind. simpl.
  destruct (Z.ltb_spec 0 lo) as [Hpos|Hzero].
  - unfold zero_frames at 1. rewrite assign_scalar_inside by lia.
    simpl. replace (lo - 0) with lo by lia.
    set (l1 := replicate (Z.to_nat lo) 0 ++ drop (Z.to_nat lo) frames).
    assert (Hl1 : length l1 = length frames)
      by (unfold l1; rewrite length_app, length_replicate, length_drop; lia).
    destruct (Z.ltb_spec hi (nz data)) as [Hlt|Hge].
    + unfold zero_frames_from. rewrite assign_scalar_inside by lia.
      rewrite Nat2Z.id, drop_all, app_nil_r, Hl1.
      unfold l1. rewrite take_app, length_replicate, take_replicate.
      rewrite Nat.min_r by lia. rewrite <- app_assoc.
      repeat f_equal; lia.
    + unfold ret, l1. f_equal.
      replace (length frames - Z.to_nat hi)%nat with 0%nat by lia.
      simpl. rewrite app_nil_r. f_equal. symmetry. apply take_ge.
      rewrite length_drop. lia.
  - assert (lo = 0) by lia. subst lo. unfold ret at 1. simpl.
    rewrite drop_0, Nat.sub_0_r.
    destruct (Z.ltb_spec hi (nz data)) as [Hlt|Hge].
    + unfold zero_frames_from. rewrite assign_scalar_inside by lia.
      rewrite Nat2Z.id, drop_all, app_nil_r. repeat f_equal; lia.
    + unfold ret. f_equal.
      replace (length frames - Z.to_nat hi)%nat with 0%nat by lia.
      simpl. rewrite app_nil_r. symmetry. apply take_ge. lia.
Qed.

Lemma nz_slice3 (a : ndarray) (lo hi : Z) (yr xr : Z * Z) :
  0 <= lo <= hi -> hi <= nz a -> nz (slice3 a (lo, hi) yr xr) = hi - lo.
Proof.
  intros Hlo Hhi. unfold slice3. cbn [fst snd].
  rewrite slice_indices_inside by lia.
  destruct (slice_indices (ny a) _ _), (slice_indices (nx a) _ _).
  cbn [tabulate nz]. lia.
Qed.

Lemma axis_index_bounds (n i j : Z) :
  axis_index n i = Ok j -> 0 <= i -> i < n.
Proof.
  unfold axis_index. intros H Hi.
  destruct (Z.ltb_spec i 0); [lia|].
  destruct (Z.leb_spec 0 i), (Z.ltb_spec i n); simpl in H;
    try discriminate; lia.
Qed.

Lemma resolve_center_first_axis (data : ndarray) (det : detector)
    (centering : string) (kw : kwargs) (qs : list Q * list Q * list Q)
    (iz0 iy0 ix0 : Z) :
  resolve_center data det centering kw = Ok (qs, (iz0, iy0, ix0)) ->
  0 <= iz0 -> iz0 < nz data.
Proof.
  intros H Hz. apply resolve_center_in_bounds in H.
  unfold getitem3 in H.
  destruct (axis_index (nz data) iz0) as [j|e] eqn:E; [|discriminate].
  now apply axis_index_bounds in E.
Qed.

Import PhasePipeline.

(** ** Arrays: the entries of [tabulate] *)

Lemma length_seqZ (n : Z) : length (seqZ n) = Z.to_nat n.
Proof. unfold seqZ. rewrite length_map, length_seq. reflexivity. Qed.

Lemma nth_seqZ (n : Z) (i : nat) (d : Z) :
  (i < Z.to_nat n)%nat -> nth i (seqZ n) d = Z.of_nat i.
Proof.
  intros Hi. unfold seqZ.
  rewrite (nth_indep _ d (Z.of_nat 0)) by (rewrite length_map, length_seq; lia).
  rewrite map_nth, seq_nth by lia. reflexivity.
Qed.

Lemma length_flat_map_blocks {A B} (g : A -> list B) (k : nat) (l : list A) :
  (forall a, length (g a) = k) -> length (flat_map g l) = (length l * k)%nat.
Proof.
  intros Hg. induction l as [|a l IH]; simpl; [reflexivity|].
  rewrite length_app, Hg, IH. reflexivity.
Qed.

Lemma nth_flat_map_blocks {A B} (g : A -> list B) (k : nat) (l : list A)
    (i j : nat) (da : A) (db : B) :
  (forall a, length (g a) = k) -> (i < length l)%nat -> (j < k)%nat ->
  nth (i * k + j) (flat_map g l) db = nth j (g (nth i l da)) db.
Proof.
  intros Hg. revert i. induction l as [|a l IH]; intros i Hi Hj; simpl in *.
  - lia.
  - destruct i as [|i]; simpl.
    + apply app_nth1. rewrite Hg. exact Hj.
    + rewrite app_nth2 by (rewrite Hg; lia). rewrite Hg.
      replace (k + i * k + j - k)%nat with (i * k + j)%nat by lia.
      apply IH; lia.
Qed.

Lemma item_tabulate (sz sy sx : Z) (f : Z -> Z -> Z -> Q) (z y x : Z) :
  0 <= z < sz -> 0 <= y < sy -> 0 <= x < sx ->
  item (tabulate sz sy sx f) z y x = f z y x.
Proof.
  intros Hz Hy Hx. unfold item, tabulate. simpl.
  rewrite !Z.max_r by lia.
  replace (Z.to_nat ((z * sy + y) * sx + x))
    with (Z.to_nat z * (Z.to_nat sy * Z.to_nat sx)
          + (Z.to_nat y * Z.to_nat sx + Z.to_nat x))%nat by nia.
  rewrite (nth_flat_map_blocks _ (Z.to_nat sy * Z.to_nat sx) _ _ _ 0).
  - rewrite (nth_flat_map_blocks _ (Z.to_nat sx) _ _ _ 0).
    + rewrite (nth_indep _ _ (f (nth (Z.to_nat z) (seqZ sz) 0)
                                (nth (Z.to_nat y) (seqZ sy) 0) 0))
        by (rewrite length_map, length_seqZ; lia).
      rewrite map_nth, !nth_seqZ by lia. rewrite !Z2Nat.id by lia. reflexivity.
    + intros a. rewrite length_map, length_seqZ. reflexivity.
    + rewrite length_seqZ. lia.
    + lia.
  - intros a. rewrite (length_flat_map_blocks _ (Z.to_nat sx)).
    + rewrite length_seqZ. reflexivity.
    + intros b. rewrite length_map, length_seqZ. reflexivity.
  - rewrite length_seqZ. lia.
  - nia.
Qed.

Lemma wf_tabulate (sz sy sx : Z) (f : Z -> Z -> Z -> Q) :
  wf (tabulate sz sy sx f).
Proof.
  unfold wf, tabulate. simpl. repeat split; try lia.
  rewrite (length_flat_map_blocks _ (Z.to_nat sy * Z.to_nat sx)).
  - rewrite length_seqZ. lia.
  - intros a. rewrite (length_flat_map_blocks _ (Z.to_nat sx)).
    + rewrite length_seqZ. reflexivity.
    + intros b. rewrite length_map, length_seqZ. reflexivity.
Qed.

(** ** The phase ramp *)

Lemma add_ramp_inverse (pm : PhaseManipulator) (z y x : Z) :
  0 <= z < nz (phase pm) -> 0 <= y < ny (phase pm) ->
  0 <= x < nx (phase pm) ->
  (item (phase (add_ramp (-1) (add_ramp 1 pm))) z y x
   == item (phase pm) z y x)%Q.
Proof.
  intros Hz Hy Hx. simpl. rewrite !Z.max_r by lia.
  rewrite item_tabulate by lia. rewrite item_tabulate by lia. ring.
Qed.

(** C7. With exact arithmetic, adding the ramp and then adding it with
    [sign = -1] gives back the phase: the same shape, the same modulus and
    fitted coefficients, and at every voxel the value before the addition. *)
Theorem ramp_round_trip (pm : PhaseManipulator) :
  wf (phase pm) ->
  let pm' := add_ramp (-1) (add_ramp 1 pm) in
  shape (phase pm') = shape (phase pm)
  /\ modulus pm' = modulus pm
  /\ phase_ramp pm' = phase_ramp pm
  /\ forall z y x,
       0 <= z < nz (phase pm) -> 0 <= y < ny (phase pm) ->
       0 <= x < nx (phase pm) ->
       (item (phase pm') z y x == item (phase pm) z y x)%Q.
Proof.
  intros (Hz & Hy & Hx & _). cbv zeta. repeat split.
  - unfold shape. simpl. rewrite !Z.max_r by lia. reflexivity.
  - intros z y x Hz' Hy' Hx'. now apply add_ramp_inverse.
Qed.

Lemma ramp_round_trip_witness :
  (item (PhasePipeline.phase
           (add_ramp (-1) (add_ramp 1 example_manipulator))) 1 2 1
   == item (PhasePipeline.phase example_manipulator) 1 2 1)%Q.
Proof.
  destruct (ramp_round_trip example_manipulator) as (_ & _ & _ & H).
  - apply wf_tabulate.
  - apply H; simpl; lia.
Defined.

(** Lines 183-197 without apodization leave the phase as it was. *)
Lemma ramp_cycle_without_apodization
    (apodize_window : PhaseManipulator -> PhaseManipulator)
    (pm : PhaseManipulator) (z y x : Z) :
  wf (phase pm) ->
  0 <= z < nz (phase pm) -> 0 <= y < ny (phase pm) -> 0 <= x < nx (phase pm) ->
  (item (phase (ramp_cycle false apodize_window pm)) z y x
   == item (phase pm) z y x)%Q.
Proof.
  intros Hwf Hz Hy Hx. unfold ramp_cycle. now apply add_ramp_inverse.
Qed.

(** ** process_scan: the refraction correction *)

(** The claim of C8 as it is written fails: with the correction requested
    and no wavelength, nothing is logged, no later stage runs and the call
    ends with [ValueError]. *)
Lemma undefined_wavelength_aborts_scan :
  correction_and_after (314159 # 50000) [1; 2]%Q (fun r => r) (fun r => Ok r)
    (mk_parameters true (1 # 100000) 0) (mk_setup None) [1; 1]%Q [0; 0]%Q []
  = ([], Raise (ValueError "X-ray energy undefined")).
Proof. reflexivity. Qed.

(** C8, amended. When the refraction correction is requested and the
    wavelength is undefined, lines 489-491 raise [ValueError]: the log gets
    no entry and none of the stages after the correction runs. *)
Theorem undefined_wavelength_raises {A : Type} (two_pi : Q)
    (optical_path : list Q) (remove_ramp : list Q * list Q -> list Q * list Q)
    (rest : list Q * list Q -> result A) (prm : parameters) (setup : Setup)
    (amp phase : list Q) (lg : log) :
  correct_refraction prm = true ->
  wavelength setup = None ->
  correction_and_after two_pi optical_path remove_ramp rest prm setup amp phase lg
  = (lg, Raise (ValueError "X-ray energy undefined")).
Proof.
  intros Hc Hw. unfold correction_and_after, refraction_correction.
  rewrite Hc, Hw. reflexivity.
Qed.

Lemma undefined_wavelength_raises_witness :
  correction_and_after (A := list Q * list Q) (314159 # 50000) [3]%Q
    (fun r => r) (fun r => Ok r)
    (mk_parameters true (1 # 100000) 0) (mk_setup None) [1]%Q [0]%Q
    [(INFO, "Phase unwrapping")]
  = ([(INFO, "Phase unwrapping")], Raise (ValueError "X-ray energy undefined")).
Proof. apply undefined_wavelength_raises; reflexivity. Defined.

(** Without the correction the stages after it run on the phase as it is. *)
Lemma no_correction_requested {A : Type} (two_pi : Q) (optical_path : list Q)
    (remove_ramp : list Q * list Q -> list Q * list Q)
    (rest : list Q * list Q -> result A) (prm : parameters) (setup : Setup)
    (amp phase : list Q) (lg : log) :
  correct_refraction prm = false ->
  correction_and_after two_pi optical_path remove_ramp rest prm setup amp phase lg
  = (lg ++ [(INFO, "Phase ramp removal")], rest (remove_ramp (amp, phase))).
Proof.
  intros Hc. unfold correction_and_after, refraction_correction.
  rewrite Hc. reflexivity.
Qed.

(** ** The regridders *)

Import Regrid.

Lemma where_set_map {A B} (p : B -> bool) (xs : list B) (a : list A) (v : A) :
  length xs = length a ->
  where_set (map p xs) a v
  = Ok (zip_with (fun x y => if p x then v else y) xs a).
Proof.
  intros Hl. unfold where_set. rewrite length_map, Hl, Nat.eqb_refl.
  f_equal. revert a Hl. induction xs as [|x xs IH]; intros [|y a] Hl;
    simpl in *; try reflexivity; try discriminate.
  f_equal. apply IH. lia.
Qed.

Ltac fold_passes :=
  repeat match goal with
         | |- context [where_set (map ?p ?l) ?a ?v] =>
             rewrite (where_set_map p l a v)
               by (rewrite ?length_map, ?length_zip_with; lia);
             simpl
         end.

Ltac voxelwise D M :=
  apply list_eq; intros ?i;
  rewrite ?lookup_zip_with, ?list_lookup_fmap, ?lookup_zip_with;
  destruct (D !! i), (M !! i); simpl; reflexivity.

(** Entry by entry, the passes of the two regridders. *)
Lemma labframe_passes_voxels (D M : list pyfloat) :
  length D = length M ->
  labframe_passes D M
  = Ok (zip_with (fun d m => masked_data (lab_mask d m) d) D M,
        zip_with lab_mask D M).
Proof.
  intros Hl. unfold labframe_passes, fold_nan, apply_mask. fold_passes.
  f_equal. f_equal; voxelwise D M.
Qed.

Lemma xrayutil_passes_voxels (D M : list pyfloat) :
  length D = length M ->
  grid_bcdi_xrayutil D M
  = Ok (zip_with (fun d m => masked_data (xrayutil_mask d m) d) D M,
        zip_with xrayutil_mask D M).
Proof.
  intros Hl. unfold grid_bcdi_xrayutil, fold_nan, apply_mask. fold_passes.
  f_equal. f_equal; voxelwise D M.
Qed.

Lemma masked_data_not_nan (flag : Z) (d : pyfloat) : masked_data flag d <> NaN.
Proof.
  unfold masked_data. destruct (negb _); [discriminate|].
  destruct d; simpl; discriminate.
Qed.

Lemma masked_data_flagged (flag : Z) (d : pyfloat) :
  flag <> 0 -> masked_data flag d = Fin 0.
Proof.
  intros H. unfold masked_data. apply Z.eqb_neq in H. rewrite H. reflexivity.
Qed.

Lemma lab_mask_nan (d m : pyfloat) : d = NaN \/ m = NaN -> lab_mask d m = 1.
Proof.
  intros [->| ->]; [reflexivity|]. destruct d; reflexivity.
Qed.

Lemma xrayutil_mask_nan (d m : pyfloat) :
  d = NaN \/ m = NaN -> xrayutil_mask d m = 1.
Proof.
  intros [->| ->]; [reflexivity|]. destruct d; reflexivity.
Qed.

(** The post-condition holds of any arrays built entrywise from a flag that
    is 1 on NaN. *)
Lemma postcondition_voxels (flag : pyfloat -> pyfloat -> Z)
    (D M : list pyfloat) :
  length D = length M ->
  (forall d m, d = NaN \/ m = NaN -> flag d m = 1) ->
  postcondition D M
    (Ok (zip_with (fun d m => masked_data (flag d m) d) D M, zip_with flag D M)).
Proof.
  intros Hl Hnan. eexists _, _. split; [reflexivity|].
  split; [rewrite length_zip_with; lia|].
  split; [rewrite length_zip_with; lia|].
  split; [|split].
  - intros i Hi. rewrite !lookup_zip_with.
    destruct (D !! i) as [d|] eqn:Hd.
    2:{ destruct Hi as [Hi|Hi]; [discriminate|].
        apply lookup_ge_None in Hd. apply lookup_lt_Some in Hi. lia. }
    destruct (M !! i) as [m|] eqn:Hm.
    + simpl. assert (Hf : flag d m = 1)
        by (apply Hnan; destruct Hi as [Hi|Hi]; inversion Hi; auto).
      rewrite Hf. split; [reflexivity|]. now rewrite masked_data_flagged.
    + apply lookup_ge_None in Hm. apply lookup_lt_Some in Hd. lia.
  - intros i. rewrite lookup_zip_with.
    destruct (D !! i) as [d|]; [|discriminate].
    destruct (M !! i) as [m|]; [|discriminate].
    simpl. intros H. inversion H as [H']. now apply masked_data_not_nan in H'.
  - intros i f. rewrite !lookup_zip_with.
    destruct (D !! i) as [d|]; [|discriminate].
    destruct (M !! i) as [m|]; [|discriminate].
    simpl. intros H Hf. inversion H; subst f.
    now rewrite masked_data_flagged.
Qed.

(** The claim of C1 as it is written fails in the laboratory frame: with the
    default [fill_value], a voxel outside of the interpolation range comes
    back with a mask of 0, that is, valid. *)
Lemma unsampled_voxel_not_flagged :
  grid_bcdi_labframe [Outside; Inside (Fin 5) (Fin 0); Inside NaN (Fin 0)]
    default_fill_value
  = Ok ([Fin 0; Fin 5; Fin 0], [0; 0; 1]).
Proof. reflexivity. Qed.

(** C1, amended. On interpolated arrays of the same size, the two
    regridders first fold the NaN of the data and of the mask into the mask,
    then zero the data where the mask is set; what they return satisfies
    [postcondition]. *)
Theorem regridders_postcondition (D M : list pyfloat) :
  length D = length M ->
  postcondition D M (labframe_passes D M)
  /\ postcondition D M (grid_bcdi_xrayutil D M)
  /\ labframe_passes D M
     = ('(d, m) ← fold_nan D M;
        m ← where_set (map nonzero m) m (Fin 1);
        d ← apply_mask d (map astype_int m);
        Ok (d, map astype_int m))
  /\ grid_bcdi_xrayutil D M
     = ('(d, m) ← fold_nan D M;
        d ← apply_mask d (map astype_int m);
        Ok (d, map astype_int m)).
Proof.
  intros Hl. repeat split.
  - rewrite labframe_passes_voxels by exact Hl.
    apply postcondition_voxels; [exact Hl | exact lab_mask_nan].
  - rewrite xrayutil_passes_voxels by exact Hl.
    apply postcondition_voxels; [exact Hl | exact xrayutil_mask_nan].
Qed.

Lemma regridders_postcondition_witness :
  postcondition [Fin 3; NaN; Fin 2] [Fin 0; Fin 0; NaN]
    (grid_bcdi_xrayutil [Fin 3; NaN; Fin 2] [Fin 0; Fin 0; NaN]).
Proof.
  apply (regridders_postcondition [Fin 3; NaN; Fin 2] [Fin 0; Fin 0; NaN]).
  reflexivity.
Defined.

(** A voxel outside of the interpolation range carries the fill values: in
    the laboratory frame it is flagged exactly when the fill value of the
    mask is not zero. *)
Lemma unsampled_voxel_labframe (grid : list sampled) (fill_value : Q * Q)
    (d : list pyfloat) (m : list Z) (i : nat) :
  grid_bcdi_labframe grid fill_value = Ok (d, m) ->
  grid !! i = Some Outside ->
  m !! i = Some (if Qeq_bool fill_value.2 0 then 0 else 1)
  /\ d !! i = Some (if Qeq_bool fill_value.2 0 then Fin fill_value.1
                    else Fin 0).
Proof.
  unfold grid_bcdi_labframe, ortho_reciprocal.
  rewrite labframe_passes_voxels by (rewrite !length_map; reflexivity).
  intros H Hi. inversion H; subst d m; clear H.
  rewrite !lookup_zip_with, !list_lookup_fmap, Hi. simpl.
  unfold masked_data, lab_mask. simpl.
  destruct (Qeq_bool fill_value.2 0) eqn:E; simpl.
  - apply Qeq_bool_eq in E. unfold Qeq in E. simpl in E.
    assert (Hn : Qnum fill_value.2 = 0) by lia.
    unfold int_trunc. rewrite Hn. simpl. split; reflexivity.
  - split; reflexivity.
Qed.

(** ** The two detector frames of [PeakFinder] *)

Lemma full_then_cropped
    (self : PeakFinder.t) (z y x bz by_ bx r0 r1 r2 r3 : Z) :
  PeakFinder.binning self = [bz; by_; bx] ->
  region_of_interest self = [r0; r1; r2; r3] ->
  bz <> 0 -> by_ <> 0 -> bx <> 0 ->
  get_indices_full_detector self [z; y; x]
  = Ok (z * bz, y * by_ + 1 * r0, x * bx + 1 * r2)
  /\ get_indices_cropped_binned_detector self
       [z * bz; y * by_ + 1 * r0; x * bx + 1 * r2] = Ok [z; y; x].
Proof.
  intros Hb Hr Hz Hy Hx. split.
  - unfold get_indices_full_detector, _unbin. rewrite Hb. simpl.
    apply (offset_full self _ _ _ r0 r1 r2 r3 Hr).
  - unfold get_indices_cropped_binned_detector.
    rewrite (offset_roi self _ _ _ r0 r1 r2 r3 Hr). simpl.
    unfold _bin. rewrite Hb. simpl. unfold floordiv.
    destruct (bz =? 0) eqn:E1; [lia|].
    destruct (by_ =? 0) eqn:E2; [lia|].
    destruct (bx =? 0) eqn:E3; [lia|]. simpl.
    repeat f_equal.
    + apply Z.div_mul; lia.
    + replace (y * by_ + 1 * r0 + -1 * r0) with (y * by_) by lia.
      apply Z.div_mul; lia.
    + replace (x * bx + 1 * r2 + -1 * r2) with (x * bx) by lia.
      apply Z.div_mul; lia.
Qed.

(** X1.  Round trip between the frames: a position of the cropped and binned
    array, taken to the full unbinned detector and back, is the position
    itself, for any binning without a zero entry. *)
Theorem detector_frames_round_trip
    (self : PeakFinder.t) (z y x bz by_ bx r0 r1 r2 r3 : Z) :
  PeakFinder.binning self = [bz; by_; bx] ->
  region_of_interest self = [r0; r1; r2; r3] ->
  bz <> 0 -> by_ <> 0 -> bx <> 0 ->
  exists a b c,
    get_indices_full_detector self [z; y; x] = Ok (a, b, c)
    /\ get_indices_cropped_binned_detector self [a; b; c] = Ok [z; y; x].
Proof.
  intros Hb Hr Hz Hy Hx.
  exists (z * bz), (y * by_ + 1 * r0), (x * bx + 1 * r2).
  apply (full_then_cropped self z y x bz by_ bx r0 r1 r2 r3); assumption.
Qed.

Lemma detector_frames_round_trip_witness :
  exists a b c,
    get_indices_full_detector example_finder [3; 10; 20] = Ok (a, b, c)
    /\ get_indices_cropped_binned_detector example_finder [a; b; c]
       = Ok [3; 10; 20].
Proof.
  apply (detector_frames_round_trip example_finder 3 10 20 1 2 4 100 300 50 250);
    try reflexivity; lia.
Defined.

(** X2.  The other way round, a position of the full detector taken to the
    cropped and binned array and back is the first pixel of its bin: it is
    not above the position, less than one bin below it, and on the grid of
    the bins that starts at the origin of the region of interest. *)
Theorem binned_position_is_bin_origin
    (self : PeakFinder.t) (z y x bz by_ bx r0 r1 r2 r3 : Z) :
  PeakFinder.binning self = [bz; by_; bx] ->
  region_of_interest self = [r0; r1; r2; r3] ->
  0 < bz -> 0 < by_ -> 0 < bx ->
  exists k a b c,
    get_indices_cropped_binned_detector self [z; y; x] = Ok k
    /\ get_indices_full_detector self k = Ok (a, b, c)
    /\ a <= z < a + bz /\ b <= y < b + by_ /\ c <= x < c + bx
    /\ (bz | a) /\ (by_ | b - r0) /\ (bx | c - r2).
Proof.
  intros Hb Hr Hz Hy Hx.
  exists [z / bz; (y + -1 * r0) / by_; (x + -1 * r2) / bx],
    (z / bz * bz), ((y + -1 * r0) / by_ * by_ + 1 * r0),
    ((x + -1 * r2) / bx * bx + 1 * r2).
  split; [|split].
  - unfold get_indices_cropped_binned_detector.
    rewrite (offset_roi self _ _ _ r0 r1 r2 r3 Hr). simpl.
    unfold _bin. rewrite Hb. simpl. unfold floordiv.
    destruct (bz =? 0) eqn:E1; [lia|].
    destruct (by_ =? 0) eqn:E2; [lia|].
    destruct (bx =? 0) eqn:E3; [lia|]. reflexivity.
  - unfold get_indices_full_detector, _unbin. rewrite Hb. simpl.
    apply (offset_full self _ _ _ r0 r1 r2 r3 Hr).
  - pose proof (Z.mul_div_le z bz Hz).
    pose proof (Z.mul_succ_div_gt z bz Hz).
    pose proof (Z.mul_div_le (y + -1 * r0) by_ Hy).
    pose proof (Z.mul_succ_div_gt (y + -1 * r0) by_ Hy).
    pose proof (Z.mul_div_le (x + -1 * r2) bx Hx).
    pose proof (Z.mul_succ_div_gt (x + -1 * r2) bx Hx).
    repeat split; try lia.
    + exists (z / bz). lia.
    + exists ((y + -1 * r0) / by_). lia.
    + exists ((x + -1 * r2) / bx). lia.
Qed.

Lemma binned_position_is_bin_origin_witness :
  exists k a b c,
    get_indices_cropped_binned_detector example_finder [3; 121; 133] = Ok k
    /\ get_indices_full_detector example_finder k = Ok (a, b, c)
    /\ a <= 3 < a + 1 /\ b <= 121 < b + 2 /\ c <= 133 < c + 4
    /\ (1 | a) /\ (2 | b - 100) /\ (4 | c - 50).
Proof.
  apply (binned_position_is_bin_origin example_finder 3 121 133 1 2 4
           100 300 50 250); try reflexivity; lia.
Defined.

(** ** The peak found by [find_peak] *)

Lemma Qabs_lt_spec (a b : Q) : Qabs_lt a b = true <-> (Qabs a < Qabs b)%Q.
Proof.
  unfold Qabs_lt. rewrite negb_true_iff.
  destruct (Qle_bool (Qabs b) (Qabs a)) eqn:E.
  - apply Qle_bool_iff in E. split; [discriminate|].
    intros H. exfalso. exact (Qlt_not_le _ _ H E).
  - split; [|reflexivity]. intros _. apply Qnot_le_lt. intros H.
    apply Qle_bool_iff in H. congruence.
Qed.

Lemma argmax_from_spec (l p : list Q) (best : Q) (besti : nat) :
  (besti < length p)%nat -> nth besti p 0%Q = best ->
  (forall j, (j < length p)%nat -> (Qabs (nth j p 0) <= Qabs best)%Q) ->
  let r := argmax_from l (Z.of_nat (length p)) best (Z.of_nat besti) in
  0 <= r < Z.of_nat (length (p ++ l)) /\
  forall j, (j < length (p ++ l))%nat ->
    (Qabs (nth j (p ++ l) 0) <= Qabs (nth (Z.to_nat r) (p ++ l) 0))%Q.
Proof.
  revert p best besti. induction l as [|v l IH]; intros p best besti Hi Hb Hmax.
  - simpl. rewrite app_nil_r, Nat2Z.id. split; [lia|].
    intros j Hj. rewrite Hb. auto.
  - simpl.
    assert (Hlen : Z.of_nat (length p) + 1 = Z.of_nat (length (p ++ [v]))).
    { rewrite length_app. simpl. lia. }
    assert (Happ : p ++ v :: l = (p ++ [v]) ++ l).
    { rewrite <- app_assoc. reflexivity. }
    assert (Hv : nth (length p) (p ++ [v]) 0%Q = v).
    { rewrite app_nth2 by lia. rewrite Nat.sub_diag. reflexivity. }
    rewrite Hlen, Happ.
    destruct (Qabs_lt best v) eqn:E.
    + apply IH.
      * rewrite length_app. simpl. lia.
      * exact Hv.
      * intros j Hj. rewrite length_app in Hj. simpl in Hj.
        destruct (Nat.eq_dec j (length p)) as [->|Hne].
        -- rewrite Hv. apply Qle_refl.
        -- rewrite app_nth1 by lia. apply Qabs_lt_spec in E.
           apply Qle_trans with (Qabs best); [apply Hmax; lia|].
           apply Qlt_le_weak, E.
    + apply IH.
      * rewrite length_app. simpl. lia.
      * rewrite app_nth1 by lia. exact Hb.
      * intros j Hj. rewrite length_app in Hj. simpl in Hj.
        destruct (Nat.eq_dec j (length p)) as [->|Hne].
        -- rewrite Hv. apply Qnot_lt_le. intros H.
           apply Qabs_lt_spec in H. congruence.
        -- rewrite app_nth1 by lia. apply Hmax. lia.
Qed.

Lemma argmax_abs_spec (l : list Q) (i : Z) :
  argmax_abs l = Ok i ->
  0 <= i < Z.of_nat (length l) /\
  forall j, (j < length l)%nat ->
    (Qabs (nth j l 0) <= Qabs (nth (Z.to_nat i) l 0))%Q.
Proof.
  destruct l as [|v l]; [discriminate|]. simpl. intros H. inversion H as [Hi].
  apply (argmax_from_spec l [v] v 0); simpl; [lia|reflexivity|].
  intros j Hj. replace j with 0%nat by lia. apply Qle_refl.
Qed.

Lemma unravel_index_spec (a : ndarray) (i : Z) :
  wf a -> 0 <= i < Z.of_nat (length (buf a)) ->
  0 <= (unravel_index i a).1.1 < nz a
  /\ 0 <= (unravel_index i a).1.2 < ny a
  /\ 0 <= (unravel_index i a).2 < nx a
  /\ item a (unravel_index i a).1.1 (unravel_index i a).1.2
       (unravel_index i a).2 = nth (Z.to_nat i) (buf a) 0%Q.
Proof.
  intros (Hz & Hy & Hx & Hlen) Hi. rewrite Hlen in Hi.
  assert (0 < nx a) by nia. assert (0 < ny a) by nia.
  unfold unravel_index, item. simpl.
  assert (Hd : i / (ny a * nx a) = i / nx a / ny a).
  { rewrite (Z.mul_comm (ny a)). symmetry. apply Z.div_div; lia. }
  pose proof (Z.mod_pos_bound (i / nx a) (ny a) ltac:(lia)).
  pose proof (Z.mod_pos_bound i (nx a) ltac:(lia)).
  pose proof (Z.div_mod (i / nx a) (ny a) ltac:(lia)).
  pose proof (Z.div_mod i (nx a) ltac:(lia)).
  assert (0 <= i / nx a) by (apply Z.div_pos; lia).
  assert (0 <= i / nx a / ny a) by (apply Z.div_pos; lia).
  repeat split; try lia.
  - rewrite Hd. apply Z.div_lt_upper_bound; [lia|].
    apply Z.div_lt_upper_bound; [lia|]. nia.
  - f_equal. f_equal. rewrite Hd. nia.
Qed.

Lemma item_flat (a : ndarray) (z y x : Z) :
  wf a -> 0 <= z < nz a -> 0 <= y < ny a -> 0 <= x < nx a ->
  exists j, (j < length (buf a))%nat /\ item a z y x = nth j (buf a) 0%Q.
Proof.
  intros (Hz & Hy & Hx & Hlen) Hz' Hy' Hx'.
  exists (Z.to_nat ((z * ny a + y) * nx a + x)). split; [|reflexivity].
  assert (H1 : z * ny a + y + 1 <= nz a * ny a) by nia.
  assert (H2 : (z * ny a + y + 1) * nx a <= nz a * ny a * nx a)
    by (apply Z.mul_le_mono_nonneg_r; lia).
  apply Nat2Z.inj_lt. rewrite Hlen, Z2Nat.id by nia. nia.
Qed.

Lemma find_peak_max
    (self : PeakFinder.t) (found : gmap string (Z * Z * Z))
    (bz by_ bx r0 r1 r2 r3 : Z) :
  wf (array self) ->
  PeakFinder.binning self = [bz; by_; bx] ->
  region_of_interest self = [r0; r1; r2; r3] ->
  find_peak self = Ok found ->
  exists z y x,
    found !! "max" = Some (z * bz, y * by_ + 1 * r0, x * bx + 1 * r2)
    /\ 0 <= z < nz (array self) /\ 0 <= y < ny (array self)
    /\ 0 <= x < nx (array self)
    /\ forall z' y' x',
         0 <= z' < nz (array self) -> 0 <= y' < ny (array self) ->
         0 <= x' < nx (array self) ->
         (Qabs (item (array self) z' y' x')
          <= Qabs (item (array self) z y x))%Q.
Proof.
  intros Hwf Hb Hr H. unfold find_peak in H.
  apply bind_Ok in H as (flat & Hflat & H).
  apply argmax_abs_spec in Hflat as [Hrange Hmax].
  pose proof (unravel_index_spec (array self) flat Hwf Hrange)
    as (Hz & Hy & Hx & Hitem).
  destruct (unravel_index flat (array self)) as [[mz my] mx].
  destruct (center_of_mass (array self)) as [[cz cy] cx].
  destruct (center_of_mass_frame (array self) mz) as [fy fx].
  cbv beta iota zeta in H. cbn [fst snd] in Hz, Hy, Hx, Hitem.
  repeat (let v := fresh "v" in
          let Hv := fresh "Hv" in
          apply bind_Ok in H as (v & Hv & H)).
  assert (Hf : get_indices_full_detector self [mz; my; mx]
               = Ok (mz * bz, my * by_ + 1 * r0, mx * bx + 1 * r2)).
  { unfold get_indices_full_detector, _unbin. rewrite Hb. simpl.
    apply (offset_full self _ _ _ r0 r1 r2 r3 Hr). }
  match goal with
  | Hm : get_indices_full_detector self [mz; my; mx] = Ok ?p |- _ =>
      rewrite Hf in Hm; inversion Hm; subst p
  end.
  inversion H; subst found.
  exists mz, my, mx. split; [apply lookup_insert_eq|].
  repeat split; try lia.
  intros z' y' x' Hz' Hy' Hx'.
  destruct (item_flat (array self) z' y' x' Hwf Hz' Hy' Hx') as (j & Hj & ->).
  rewrite Hitem. apply Hmax, Hj.
Qed.

(** X3.  The entry "max" that [find_peak] returns is, brought back to the
    cropped and binned frame, the position of a voxel of the array, and no
    voxel of the array has a larger modulus. *)
Theorem find_peak_max_is_brightest
    (self : PeakFinder.t) (found : gmap string (Z * Z * Z))
    (bz by_ bx r0 r1 r2 r3 : Z) :
  wf (array self) ->
  PeakFinder.binning self = [bz; by_; bx] ->
  region_of_interest self = [r0; r1; r2; r3] ->
  bz <> 0 -> by_ <> 0 -> bx <> 0 ->
  find_peak self = Ok found ->
  exists a b c z y x,
    found !! "max" = Some (a, b, c)
    /\ get_indices_cropped_binned_detector self [a; b; c] = Ok [z; y; x]
    /\ 0 <= z < nz (array self) /\ 0 <= y < ny (array self)
    /\ 0 <= x < nx (array self)
    /\ forall z' y' x',
         0 <= z' < nz (array self) -> 0 <= y' < ny (array self) ->
         0 <= x' < nx (array self) ->
         (Qabs (item (array self) z' y' x')
          <= Qabs (item (array self) z y x))%Q.
Proof.
  intros Hwf Hb Hr Hbz Hby Hbx H.
  destruct (find_peak_max self found bz by_ bx r0 r1 r2 r3 Hwf Hb Hr H)
    as (z & y & x & Hmax & Hz & Hy & Hx & Hall).
  exists (z * bz), (y * by_ + 1 * r0), (x * bx + 1 * r2), z, y, x.
  split; [exact Hmax|]. split; [|auto].
  apply (full_then_cropped self z y x bz by_ bx r0 r1 r2 r3); assumption.
Qed.

Lemma find_peak_max_is_brightest_witness :
  let self := PeakFinder.mk (single_peak 4 4 4 1 2 3) [100; 300; 50; 250]
                [1; 2; 4] "max" None ∅ None in
  exists a b c z y x,
    (<["max" := (1, 104, 62)]> (<["com" := (1, 104, 58)]>
       (<["max_com" := (1, 104, 58)]> ∅)) : gmap string (Z * Z * Z))
      !! "max" = Some (a, b, c)
    /\ get_indices_cropped_binned_detector self [a; b; c] = Ok [z; y; x]
    /\ 0 <= z < 4 /\ 0 <= y < 4 /\ 0 <= x < 4
    /\ forall z' y' x',
         0 <= z' < 4 -> 0 <= y' < 4 -> 0 <= x' < 4 ->
         (Qabs (item (single_peak 4 4 4 1 2 3) z' y' x')
          <= Qabs (item (single_peak 4 4 4 1 2 3) z y x))%Q.
Proof.
  intros self.
  apply (find_peak_max_is_brightest self _ 1 2 4 100 300 50 250);
    try reflexivity; try lia.
  apply wf_tabulate.
Defined.

(** ** The constructor of [PeakFinder] *)

Lemma valid_container_Ok (value : list Z) (n : Z) :
  valid_container value n = Ok tt -> Z.of_nat (length value) = n.
Proof.
  unfold valid_container. destruct (Z.of_nat (length value) =? n) eqn:E;
    [lia|discriminate].
Qed.

Lemma init_Ok (arr : ndarray) (roi bin fp : option (list Z)) (method : string)
    (self : PeakFinder.t) :
  PeakFinder.init arr roi bin method fp = Ok self ->
  let r := match roi with None => [0; ny arr; 0; nx arr] | Some r => r end in
  let b := match bin with None => [1; 1; 1] | Some b => b end in
  exists found c0 c1 c2 z,
    length r = 4%nat /\ length b = 3%nat /\ method ∈ PEAK_METHODS
    /\ find_peak (PeakFinder.mk arr r b method fp ∅ None) = Ok found
    /\ _roi_center (PeakFinder.mk arr r b method fp found None)
       = Ok (c0, c1, c2)
    /\ axis_index (nz arr) c0 = Ok z
    /\ self = PeakFinder.mk arr r b method fp found
                (Some (slice3 arr (z, z + 1) (full (ny arr)) (full (nx arr)))).
Proof.
  intros H r b. unfold PeakFinder.init in H. fold r b in H.
  apply bind_Ok in H as (s1 & H1 & H).
  apply bind_Ok in H as (s2 & H2 & H).
  apply bind_Ok in H as (s3 & H3 & H).
  unfold set_region_of_interest in H1.
  apply bind_Ok in H1 as ([] & Hr & H1). inversion H1; subst s1; clear H1.
  unfold set_binning in H2.
  apply bind_Ok in H2 as ([] & Hb & H2). inversion H2; subst s2; clear H2.
  unfold set_peak_method in H3. case_bool_decide as Hm; [|discriminate].
  inversion H3; subst s3; clear H3. cbn in H.
  apply bind_Ok in H as (found & Hf & H). cbn in H.
  apply bind_Ok in H as ([[c0 c1] c2] & Hc & H).
  apply bind_Ok in H as (z & Hz & H). inversion H; subst self; clear H.
  apply valid_container_Ok in Hr, Hb.
  exists found, c0, c1, c2, z. repeat split; try lia; assumption.
Qed.

(** X4.  A [PeakFinder] built with the method "max" and a binning
    [bz, by, bx] keeps, as the detector data at the peak, the frame of the
    array at the index [z * bz], where [z] is the frame of the brightest
    voxel: the index is the one of the unbinned frame, and the construction
    fails when it is not below the number of frames. *)
Theorem init_reads_frame_at_unbinned_index
    (arr : ndarray) (roi fp : option (list Z)) (bz by_ bx : Z)
    (self : PeakFinder.t) :
  wf arr -> 0 < bz ->
  PeakFinder.init arr roi (Some [bz; by_; bx]) "max" fp = Ok self ->
  exists z y x,
    0 <= z < nz arr /\ 0 <= y < ny arr /\ 0 <= x < nx arr
    /\ (forall z' y' x',
          0 <= z' < nz arr -> 0 <= y' < ny arr -> 0 <= x' < nx arr ->
          (Qabs (item arr z' y' x') <= Qabs (item arr z y x))%Q)
    /\ z * bz < nz arr
    /\ _detector_data_at_peak self
       = Some (slice3 arr (z * bz, z * bz + 1) (full (ny arr)) (full (nx arr))).
Proof.
  intros Hwf Hbz H. apply init_Ok in H. cbv zeta in H.
  destruct H as (found & c0 & c1 & c2 & zz & Hr & _ & _ & Hf & Hc & Hz & ->).
  set (r := match roi with None => [0; ny arr; 0; nx arr] | Some r => r end)
    in *.
  destruct r as [|r0 [|r1 [|r2 [|r3 [|]]]]]; try discriminate.
  destruct (find_peak_max
              (PeakFinder.mk arr [r0; r1; r2; r3] [bz; by_; bx] "max" fp ∅ None)
              found bz by_ bx r0 r1 r2 r3 Hwf eq_refl eq_refl Hf)
    as (z & y & x & Hmax & Hz' & Hy' & Hx' & Hall).
  cbn in Hz', Hy', Hx', Hall.
  unfold _roi_center, bragg_peak, peaks in Hc. cbn in Hc. rewrite Hmax in Hc.
  cbn in Hc.
  repeat (let q := fresh "q" in apply bind_Ok in Hc as (q & _ & Hc)).
  inversion Hc; subst c0 c1 c2; clear Hc.
  unfold axis_index in Hz.
  destruct (z * bz <? 0) eqn:E; [nia|].
  destruct ((0 <=? z * bz) && (z * bz <? nz arr)) eqn:E2; [|discriminate].
  inversion Hz; subst zz.
  exists z, y, x. repeat split; try lia; auto.
Qed.

Lemma init_reads_frame_at_unbinned_index_witness :
  exists self z y x,
    PeakFinder.init (single_peak 4 4 4 1 2 3) None (Some [2; 1; 1]) "max" None
    = Ok self
    /\ 0 <= z < 4 /\ 0 <= y < 4 /\ 0 <= x < 4
    /\ (forall z' y' x',
          0 <= z' < 4 -> 0 <= y' < 4 -> 0 <= x' < 4 ->
          (Qabs (item (single_peak 4 4 4 1 2 3) z' y' x')
           <= Qabs (item (single_peak 4 4 4 1 2 3) z y x))%Q)
    /\ z * 2 < 4
    /\ _detector_data_at_peak self
       = Some (slice3 (single_peak 4 4 4 1 2 3) (z * 2, z * 2 + 1)
                 (full 4) (full 4)).
Proof.
  assert (H : exists self,
             PeakFinder.init (single_peak 4 4 4 1 2 3) None (Some [2; 1; 1])
               "max" None = Ok self)
    by (eexists; vm_compute; reflexivity).
  destruct H as [self H]. exists self.
  destruct (init_reads_frame_at_unbinned_index (single_peak 4 4 4 1 2 3)
              None None 2 1 1 self (wf_tabulate _ _ _ _) ltac:(lia) H)
    as (z & y & x & Hres).
  exists z, y, x. split; [exact H|exact Hres].
Defined.

(** X5.  A [PeakFinder] can only be built with one of the three methods
    that locate the peak: the construction fails for any other name, the
    names "skip" and "user" of [PEAK_METHODS] included. *)
Theorem init_needs_located_method
    (arr : ndarray) (roi bin fp : option (list Z)) (method : string) :
  is_ok (PeakFinder.init arr roi bin method fp) = true ->
  method = "max" \/ method = "com" \/ method = "max_com".
Proof.
  intros H.
  destruct (PeakFinder.init arr roi bin method fp) as [self|] eqn:E;
    [|discriminate].
  pose proof (init_without_position_fails arr roi bin fp method) as Hno.
  rewrite E in Hno. apply init_Ok in E. cbv zeta in E.
  destruct E as (found & c0 & c1 & c2 & z & _ & _ & Hm & _).
  unfold PEAK_METHODS in Hm.
  rewrite !elem_of_union, !elem_of_singleton in Hm.
  destruct Hm as [[[[->| ->]| ->]| ->]| ->]; auto;
    exfalso; (assert (true = false) by (apply Hno; auto)); discriminate.
Qed.

Lemma init_needs_located_method_witness :
  "max_com" = "max" \/ "max_com" = "com" \/ "max_com" = "max_com".
Proof.
  apply (init_needs_located_method (single_peak 4 4 4 1 2 3) None None None).
  vm_compute. reflexivity.
Defined.

(** ** [center_fft]: what a call that returns says of its arguments *)

Lemma valid_ndarray_Ok (data mask : ndarray) :
  valid_ndarray data mask = Ok tt -> shape data = shape mask.
Proof.
  unfold valid_ndarray. case_bool_decide; [auto|discriminate].
Qed.

Lemma getitem_Ok_length {A} (l : list A) (i : Z) (a : A) :
  getitem l i = Ok a -> 0 <= i -> i < Z.of_nat (length l).
Proof.
  unfold getitem. intros H Hi.
  destruct (i <? 0) eqn:E; [lia|].
  destruct ((0 <=? i) && (i <? Z.of_nat (length l))) eqn:E2; [lia|discriminate].
Qed.

(** X6.  A call of [center_fft] that returns was given a data and a mask of
    the same shape; ['q_values'] either [None] or a sequence of at least
    three axes, and [None] when the centre of mass is asked for (the float
    that [center_of_mass] returns is used as an index of the axes); and
    ['fix_bragg'] either absent, empty or of three entries. *)
Theorem center_fft_accepts (data mask : ndarray) (det : detector)
    (centering fft_option : string) (kw : kwargs) (frames s' : list Z)
    (out : output) :
  center_fft data mask det centering fft_option kw frames = (s', Ok out) ->
  shape data = shape mask
  /\ (forall qv, q_values kw = Some qv -> (3 <= length qv)%nat)
  /\ (centering = "com" -> q_values kw = None)
  /\ (forall fb, fix_bragg kw = Some fb -> fb = [] \/ length fb = 3%nat).
Proof.
  intros H.
  destruct (center_fft_returns _ _ _ _ _ _ _ _ _ H)
    as (Hv & qx & qz & qy & iz0 & iy0 & ix0 & Hr).
  split; [apply valid_ndarray_Ok, Hv|].
  unfold resolve_center in Hr.
  apply bind_Ok in Hr as ([[ax az] ay] & Hq & Hr).
  apply bind_Ok in Hr as ([[z0 y0] x0] & Hc & Hr).
  apply bind_Ok in Hr as ([[z1 y1] x1] & Hf & _).
  split; [|split].
  - intros qv Eq. rewrite Eq in Hq.
    apply bind_Ok in Hq as (? & _ & Hq). apply bind_Ok in Hq as (? & _ & Hq).
    apply bind_Ok in Hq as (? & H2 & _).
    apply getitem_Ok_length in H2; lia.
  - intros ->. destruct (q_values kw) as [[|q qv]|] eqn:Eq; [| |reflexivity].
    + discriminate.
    + exfalso. revert Hc. case_bool_decide as E1; [discriminate E1|].
      case_bool_decide as E2; [|congruence]. simpl. discriminate.
  - intros fb Efb. rewrite Efb in Hf. destruct fb as [|f fb]; [auto|right].
    cbn [truthy] in Hf. change (default [] (Some (f :: fb))) with (f :: fb) in Hf.
    destruct (Z.of_nat (length (f :: fb)) =? 3) eqn:E; [lia|discriminate].
Qed.

Lemma center_fft_accepts_witness :
  shape volume = shape mask0
  /\ (forall qv, q_values (with_q []) = Some qv -> (3 <= length qv)%nat)
  /\ ("max" = "com" -> q_values (with_q []) = None)
  /\ (forall fb, fix_bragg (with_q []) = Some fb
                 -> fb = [] \/ length fb = 3%nat).
Proof.
  assert (H : exists s' out,
             center_fft volume mask0 det0 "max" "skip" (with_q []) frames0
             = (s', Ok out))
    by (eexists _, _; vm_compute; reflexivity).
  destruct H as (s' & out & H).
  exact (center_fft_accepts _ _ _ _ _ _ _ _ _ H).
Defined.

(** X7.  A name that is not one of the eleven policies is rejected with a
    [ValueError] once the centre is resolved, unless the symmetric box is
    degenerate: the name is then not looked at and the input is returned.
    The default of the parameter, "crop_asymmetric_ZYX", is such a name. *)
Theorem unknown_fft_option_rejected (data mask : ndarray) (det : detector)
    (centering fft_option : string) (kw : kwargs) (frames : list Z)
    (qs : list Q * list Q * list Q) (c : Z * Z * Z) :
  valid_ndarray data mask = Ok tt ->
  resolve_center data det centering kw = Ok (qs, c) ->
  fft_option ∉ ["crop_sym_ZYX"; "crop_asym_ZYX"; "pad_sym_Z_crop_sym_YX";
                "pad_sym_Z_crop_asym_YX"; "pad_asym_Z_crop_sym_YX";
                "pad_asym_Z_crop_asym_YX"; "pad_sym_Z"; "pad_asym_Z";
                "pad_sym_ZYX"; "pad_asym_ZYX"; "skip"] ->
  center_fft data mask det centering fft_option kw frames
  = (frames,
     if degenerate (max_box data c)
     then Ok (mk_output data mask [0; 0; 0; 0; 0; 0] (q_values kw) frames)
     else Raise (ValueError "Incorrect value for 'fft_option'")).
Proof.
  intros Hv Hr Hn. destruct qs as [[qx qz] qy], c as [[iz0 iy0] ix0].
  rewrite (center_fft_resolved _ _ _ _ _ _ _ _ _ _ _ _ _ Hv Hr).
  destruct (degenerate (max_box data (iz0, iy0, ix0))).
  - rewrite run_policy_skip, (q_values_rebuilt _ _ _ _ _ _ _ _ Hr).
    reflexivity.
  - unfold run_policy.
    repeat (case_bool_decide as E;
            [exfalso; apply Hn; rewrite E;
             repeat first [apply list_elem_of_here | apply list_elem_of_further]
            |clear E]).
    reflexivity.
Qed.

Lemma unknown_fft_option_rejected_witness :
  center_fft volume mask0 det0 "max" "crop_asymmetric_ZYX" (no_q []) frames0
  = (frames0, Raise (ValueError "Incorrect value for 'fft_option'")).
Proof.
  apply (unknown_fft_option_rejected volume mask0 det0 "max"
           "crop_asymmetric_ZYX" (no_q []) frames0 ([], [], []) (4, 4, 4)).
  - reflexivity.
  - vm_compute. reflexivity.
  - intros H. repeat (apply elem_of_cons in H as [H|H]; [discriminate|]).
    inversion H.
Defined.

(** X8.  [fft_option = "crop_asym_ZYX"] never returns when ['q_values'] is
    [None] and the box is not degenerate: after the data, the mask and
    [frames_logical] are cropped, the length of ['q_values'] is taken. *)
Theorem crop_asym_ZYX_needs_q_values (data mask : ndarray) (det : detector)
    (centering : string) (kw : kwargs) (frames : list Z)
    (qs : list Q * list Q * list Q) (c : Z * Z * Z) :
  valid_ndarray data mask = Ok tt ->
  resolve_center data det centering kw = Ok (qs, c) ->
  degenerate (max_box data c) = false ->
  q_values kw = None ->
  is_ok (center_fft data mask det centering "crop_asym_ZYX" kw frames).2
  = false.
Proof.
  intros Hv Hr Hd Hq. destruct qs as [[qx qz] qy], c as [[iz0 iy0] ix0].
  rewrite (center_fft_resolved _ _ _ _ _ _ _ _ _ _ _ _ _ Hv Hr), Hd.
  change (run_policy data mask kw qx qz qy iz0 iy0 ix0 "crop_asym_ZYX")
    with (crop_asym_ZYX data mask kw qx qz qy).
  unfold crop_asym_ZYX. rewrite Hq.
  unfold mbind, M_bind, lift.
  destruct (smaller_primes (nz data)); [|reflexivity].
  destruct (smaller_primes (ny data)); [|reflexivity].
  destruct (smaller_primes (nx data)); [|reflexivity].
  cbv beta iota zeta.
  destruct (crop_frames data _ frames) as [s [[]|e]]; reflexivity.
Qed.

Lemma crop_asym_ZYX_needs_q_values_witness :
  is_ok (center_fft volume13 mask13 det0 "max" "crop_asym_ZYX" (no_q [])
           frames13).2 = false.
Proof.
  apply (crop_asym_ZYX_needs_q_values volume13 mask13 det0 "max" (no_q [])
           frames13 ([], [], []) (4, 4, 4)); vm_compute; reflexivity.
Defined.

Lemma rint_inject_Z (z : Z) : rint (inject_Z z) = z.
Proof.
  unfold rint. rewrite Qfloor_Z.
  assert (H : (inject_Z z - inject_Z z ?= 1 # 2)%Q = Lt).
  { unfold Qcompare. cbn. apply Z.compare_lt_iff. lia. }
  rewrite H. reflexivity.
Qed.

(** X9.  A ['fix_bragg'] of three entries [z, y, x] decides the centre,
    whatever the centering method found: the frame is [z], and the detector
    position is [y] and [x] taken to the cropped and binned frame by a true
    division and rounded to the nearest integer, ties to the even one. *)
Theorem fix_bragg_overrides_centering (data : ndarray) (det : detector)
    (centering : string) (kw : kwargs) (qs : list Q * list Q * list Q)
    (iz0 iy0 ix0 z y x r0 r1 r2 r3 p0 p1 p2 b0 b1 b2 : Z) :
  fix_bragg kw = Some [z; y; x] ->
  roi det = [r0; r1; r2; r3] ->
  preprocessing_binning det = [p0; p1; p2] ->
  CenterFFT.binning det = [b0; b1; b2] ->
  resolve_center data det centering kw = Ok (qs, (iz0, iy0, ix0)) ->
  iz0 = z
  /\ iy0 = rint (inject_Z (y - r0) / inject_Z (p1 * b1))
  /\ ix0 = rint (inject_Z (x - r2) / inject_Z (p2 * b2))
  /\ p1 * b1 <> 0 /\ p2 * b2 <> 0.
Proof.
  intros Hfb Hroi Hpb Hb H. unfold resolve_center in H.
  apply bind_Ok in H as ([[ax az] ay] & _ & H).
  apply bind_Ok in H as ([[z0 y0] x0] & _ & H).
  apply bind_Ok in H as ([[z1 y1] x1] & Hf & H).
  rewrite Hfb, Hroi, Hpb, Hb in Hf. unfold truediv in Hf.
  change (getitem [z; y; x] 0) with (Ok z) in Hf.
  change (getitem [z; y; x] 1) with (Ok y) in Hf.
  change (getitem [z; y; x] 2) with (Ok x) in Hf.
  change (getitem [r0; r1; r2; r3] 0) with (Ok r0) in Hf.
  change (getitem [r0; r1; r2; r3] 2) with (Ok r2) in Hf.
  change (getitem [p0; p1; p2] 1) with (Ok p1) in Hf.
  change (getitem [p0; p1; p2] 2) with (Ok p2) in Hf.
  change (getitem [b0; b1; b2] 1) with (Ok b1) in Hf.
  change (getitem [b0; b1; b2] 2) with (Ok b2) in Hf.
  simpl in Hf.
  destruct (p1 * b1 =? 0) eqn:E1; [discriminate|]. simpl in Hf.
  destruct (p2 * b2 =? 0) eqn:E2; [discriminate|].
  simpl in Hf. inversion Hf; subst z1 y1 x1; clear Hf.
  apply bind_Ok in H as (i0 & H0 & H).
  apply bind_Ok in H as (i1 & H1 & H).
  apply bind_Ok in H as (i2 & H2 & H).
  apply bind_Ok in H as (v & _ & H).
  inversion H; subst.
  unfold of_int in H0. cbn in H0, H1, H2. rewrite rint_inject_Z in H0.
  inversion H0; inversion H1; inversion H2.
  repeat split; lia.
Qed.

Lemma fix_bragg_overrides_centering_witness :
  exists iy0 ix0,
    resolve_center volume (mk_detector [10; 18; 20; 28] [1; 2; 2] [1; 1; 1])
      "max" (mk_kwargs (Some [3; 15; 31]) [] None)
    = Ok (([], [], []), (3, iy0, ix0))
    /\ iy0 = rint (inject_Z (15 - 10) / inject_Z (2 * 1))
    /\ ix0 = rint (inject_Z (31 - 20) / inject_Z (2 * 1)).
Proof.
  assert (H : exists c,
             resolve_center volume
               (mk_detector [10; 18; 20; 28] [1; 2; 2] [1; 1; 1])
               "max" (mk_kwargs (Some [3; 15; 31]) [] None)
             = Ok (([], [], []), c))
    by (eexists; vm_compute; reflexivity).
  destruct H as ([[iz0 iy0] ix0] & H).
  destruct (fix_bragg_overrides_centering volume
              (mk_detector [10; 18; 20; 28] [1; 2; 2] [1; 1; 1]) "max"
              (mk_kwargs (Some [3; 15; 31]) [] None) ([], [], []) iz0 iy0 ix0
              3 15 31 10 18 20 28 1 2 2 1 1 1
              eq_refl eq_refl eq_refl eq_refl H)
    as (Hz & Hy & Hx & _).
  subst iz0. exists iy0, ix0. split; [exact H|split; assumption].
Defined.

(** ** [zero_pad] *)

Lemma zero_pad_nonneg (a : ndarray) (p0 p1 p2 p3 p4 p5 : Z) (flag : bool) :
  0 <= nz a -> 0 <= ny a -> 0 <= nx a ->
  0 <= p0 -> 0 <= p1 -> 0 <= p2 -> 0 <= p3 -> 0 <= p4 -> 0 <= p5 ->
  zero_pad a [p0; p1; p2; p3; p4; p5] flag
  = Ok (tabulate (nz a + p0 + p1) (ny a + p2 + p3) (nx a + p4 + p5)
          (fun z y x =>
             if (p0 <=? z) && (z <? p0 + nz a) && (p2 <=? y)
                && (y <? p2 + ny a) && (p4 <=? x) && (x <? p4 + nx a)
             then item a (if nz a =? 1 then 0 else z - p0)
                    (if ny a =? 1 then 0 else y - p2)
                    (if nx a =? 1 then 0 else x - p4)
             else if flag then 1%Q else 0%Q)).
Proof.
  intros Hz Hy Hx H0 H1 H2 H3 H4 H5. unfold zero_pad.
  change (getitem [p0; p1; p2; p3; p4; p5] 0) with (Ok p0).
  change (getitem [p0; p1; p2; p3; p4; p5] 1) with (Ok p1).
  change (getitem [p0; p1; p2; p3; p4; p5] 2) with (Ok p2).
  change (getitem [p0; p1; p2; p3; p4; p5] 3) with (Ok p3).
  change (getitem [p0; p1; p2; p3; p4; p5] 4) with (Ok p4).
  change (getitem [p0; p1; p2; p3; p4; p5] 5) with (Ok p5).
  cbn [mbind result_bind]. cbv beta iota zeta.
  destruct (nz a + p0 + p1 <? 0) eqn:E0; [lia|].
  destruct (ny a + p2 + p3 <? 0) eqn:E1; [lia|].
  destruct (nx a + p4 + p5 <? 0) eqn:E2; [lia|].
  cbn [orb].
  rewrite !slice_indices_inside by lia.
  replace (p0 + nz a - p0) with (nz a) by lia.
  replace (p2 + ny a - p2) with (ny a) by lia.
  replace (p4 + nx a - p4) with (nx a) by lia.
  rewrite !Z.eqb_refl. reflexivity.
Qed.

Lemma padded_item_inside (a : ndarray) (p0 p1 p2 p3 p4 p5 : Z) (fill : Q)
    (z y x : Z) :
  0 <= p0 -> 0 <= p1 -> 0 <= p2 -> 0 <= p3 -> 0 <= p4 -> 0 <= p5 ->
  0 <= z < nz a -> 0 <= y < ny a -> 0 <= x < nx a ->
  item (tabulate (nz a + p0 + p1) (ny a + p2 + p3) (nx a + p4 + p5)
          (fun z y x =>
             if (p0 <=? z) && (z <? p0 + nz a) && (p2 <=? y)
                && (y <? p2 + ny a) && (p4 <=? x) && (x <? p4 + nx a)
             then item a (if nz a =? 1 then 0 else z - p0)
                    (if ny a =? 1 then 0 else y - p2)
                    (if nx a =? 1 then 0 else x - p4)
             else fill)) (p0 + z) (p2 + y) (p4 + x)
  = item a z y x.
Proof.
  intros H0 H1 H2 H3 H4 H5 Hz Hy Hx. rewrite item_tabulate by lia.
  replace ((p0 <=? p0 + z) && (p0 + z <? p0 + nz a) && (p2 <=? p2 + y)
           && (p2 + y <? p2 + ny a) && (p4 <=? p4 + x)
           && (p4 + x <? p4 + nx a)) with true
    by (symmetry; rewrite !andb_true_iff, !Z.leb_le, !Z.ltb_lt; lia).
  f_equal.
  - destruct (Z.eqb_spec (nz a) 1); lia.
  - destruct (Z.eqb_spec (ny a) 1); lia.
  - destruct (Z.eqb_spec (nx a) 1); lia.
Qed.

Lemma padded_item_outside (a : ndarray) (p0 p1 p2 p3 p4 p5 : Z) (fill : Q)
    (z y x : Z) :
  0 <= z < nz a + p0 + p1 -> 0 <= y < ny a + p2 + p3 ->
  0 <= x < nx a + p4 + p5 ->
  ~ (p0 <= z < p0 + nz a /\ p2 <= y < p2 + ny a /\ p4 <= x < p4 + nx a) ->
  item (tabulate (nz a + p0 + p1) (ny a + p2 + p3) (nx a + p4 + p5)
          (fun z y x =>
             if (p0 <=? z) && (z <? p0 + nz a) && (p2 <=? y)
                && (y <? p2 + ny a) && (p4 <=? x) && (x <? p4 + nx a)
             then item a (if nz a =? 1 then 0 else z - p0)
                    (if ny a =? 1 then 0 else y - p2)
                    (if nx a =? 1 then 0 else x - p4)
             else fill)) z y x
  = fill.
Proof.
  intros Hz Hy Hx Hout. rewrite item_tabulate by lia.
  destruct ((p0 <=? z) && (z <? p0 + nz a) && (p2 <=? y)
            && (y <? p2 + ny a) && (p4 <=? x) && (x <? p4 + nx a)) eqn:E;
    [|reflexivity].
  exfalso. apply Hout.
  rewrite !andb_true_iff, !Z.leb_le, !Z.ltb_lt in E. lia.
Qed.

(** X10.  [zero_pad] with six widths that are not negative returns an array
    larger by the widths on each axis, which holds the given array at the
    offset of the leading widths and the filling value, 1 for a mask and 0
    otherwise, at every other position. *)
Theorem zero_pad_embeds (a : ndarray) (p0 p1 p2 p3 p4 p5 : Z) (flag : bool) :
  wf a -> 0 <= p0 -> 0 <= p1 -> 0 <= p2 -> 0 <= p3 -> 0 <= p4 -> 0 <= p5 ->
  exists a',
    zero_pad a [p0; p1; p2; p3; p4; p5] flag = Ok a'
    /\ wf a'
    /\ shape a' = (nz a + p0 + p1, ny a + p2 + p3, nx a + p4 + p5)
    /\ (forall z y x,
          0 <= z < nz a -> 0 <= y < ny a -> 0 <= x < nx a ->
          item a' (p0 + z) (p2 + y) (p4 + x) = item a z y x)
    /\ (forall z y x,
          0 <= z < nz a + p0 + p1 -> 0 <= y < ny a + p2 + p3 ->
          0 <= x < nx a + p4 + p5 ->
          ~ (p0 <= z < p0 + nz a /\ p2 <= y < p2 + ny a
             /\ p4 <= x < p4 + nx a) ->
          item a' z y x = if flag then 1%Q else 0%Q).
Proof.
  intros Hwf H0 H1 H2 H3 H4 H5.
  pose proof Hwf as (Hz & Hy & Hx & _).
  eexists. split; [apply zero_pad_nonneg; assumption|].
  split; [apply wf_tabulate|]. split; [|split].
  - unfold shape, tabulate. cbn [nz ny nx]. repeat f_equal; lia.
  - intros z y x Hz' Hy' Hx'. apply padded_item_inside; assumption.
  - intros z y x Hz' Hy' Hx' Hout. apply padded_item_outside; assumption.
Qed.

Lemma zero_pad_embeds_witness :
  exists a',
    zero_pad volume [2; 2; 0; 0; 1; 3] true = Ok a'
    /\ wf a'
    /\ shape a' = (12 + 2 + 2, 8 + 0 + 0, 8 + 1 + 3)
    /\ (forall z y x,
          0 <= z < 12 -> 0 <= y < 8 -> 0 <= x < 8 ->
          item a' (2 + z) (0 + y) (1 + x) = item volume z y x)
    /\ (forall z y x,
          0 <= z < 12 + 2 + 2 -> 0 <= y < 8 + 0 + 0 -> 0 <= x < 8 + 1 + 3 ->
          ~ (2 <= z < 2 + 12 /\ 0 <= y < 0 + 8 /\ 1 <= x < 1 + 8) ->
          item a' z y x = 1%Q).
Proof.
  apply (zero_pad_embeds volume 2 2 0 0 1 3 true); try lia.
  apply wf_tabulate.
Defined.

(** ** [center_fft]: the data and the mask stay of one shape *)

Lemma shape_slice3 (a b : ndarray) (zs ys xs : Z * Z) :
  shape a = shape b ->
  shape (slice3 a zs ys xs) = shape (slice3 b zs ys xs).
Proof.
  unfold shape. intros H. inversion H as [[Hz Hy Hx]].
  unfold slice3. rewrite Hz, Hy, Hx.
  destruct (slice_indices (nz b) zs.1 zs.2), (slice_indices (ny b) ys.1 ys.2),
    (slice_indices (nx b) xs.1 xs.2).
  reflexivity.
Qed.

Lemma zero_pad_same_shape (a b a' b' : ndarray) (pw : list Z) (f1 f2 : bool) :
  shape a = shape b ->
  zero_pad a pw f1 = Ok a' -> zero_pad b pw f2 = Ok b' -> shape a' = shape b'.
Proof.
  unfold shape. intros H Ha Hb. inversion H as [[Hz Hy Hx]].
  unfold zero_pad in Ha, Hb. rewrite Hz, Hy, Hx in Ha.
  repeat (let v := fresh "v" in
          let Hv := fresh "Hv" in
          apply bind_Ok in Ha as (v & Hv & Ha);
          rewrite Hv in Hb; cbn [mbind result_bind] in Hb).
  cbv beta iota zeta in Ha, Hb.
  destruct ((nz b + v + v0 <? 0) || (ny b + v1 + v2 <? 0)
            || (nx b + v3 + v4 <? 0)); [discriminate|].
  destruct (slice_indices (nz b + v + v0) v (v + nz b)),
    (slice_indices (ny b + v1 + v2) v1 (v1 + ny b)),
    (slice_indices (nx b + v3 + v4) v3 (v3 + nx b)).
  match type of Ha with
  | (if ?c then _ else _) = _ => destruct c; [|discriminate]
  end.
  inversion Ha; inversion Hb; reflexivity.
Qed.

Lemma pad_all_same_shape (data d m d' m' : ndarray) (pw s s' fr : list Z) :
  shape d = shape m ->
  pad_all data d m pw s = (s', Ok (d', m', fr)) -> shape d' = shape m'.
Proof.
  intros Hs H. unfold pad_all in H.
  apply bind_M_Ok in H as (d1 & s1 & H1 & H). apply lift_Ok in H1 as [-> H1].
  apply bind_M_Ok in H as (m1 & s2 & H2 & H). apply lift_Ok in H2 as [-> H2].
  apply bind_M_Ok in H as (p & s3 & _ & H).
  apply bind_M_Ok in H as (f & s4 & _ & H).
  apply ret_Ok in H as [_ H]. inversion H; subst.
  exact (zero_pad_same_shape _ _ _ _ _ _ _ Hs H1 H2).
Qed.

Ltac unbind H :=
  repeat first
    [ apply bind_M_Ok in H as ([[? ?] ?] & ? & ? & H); cbv beta iota zeta in H
    | apply bind_M_Ok in H as (? & ? & ? & H); cbv beta iota zeta in H ].

Lemma run_policy_same_shape (data mask : ndarray) (kw : kwargs)
    (qx qz qy : list Q) (iz0 iy0 ix0 : Z) (fft_option : string)
    (s s' : list Z) (d m : ndarray) (pw : list Z)
    (q : list Q * list Q * list Q) (fresh : option (list Z)) :
  shape data = shape mask ->
  run_policy data mask kw qx qz qy iz0 iy0 ix0 fft_option s
  = (s', Ok (d, m, pw, q, fresh)) ->
  shape d = shape m.
Proof.
  intros Hs H.
  assert (Hnz : nz mask = nz data) by (inversion Hs; auto).
  unfold run_policy in H.
  repeat case_bool_decide;
    lazymatch type of H with
    | crop_sym_ZYX _ _ _ _ _ _ _ _ _ _ = _ => unfold crop_sym_ZYX in H
    | crop_asym_ZYX _ _ _ _ _ _ _ = _ => unfold crop_asym_ZYX in H
    | pad_sym_Z_crop_sym_YX _ _ _ _ _ _ _ _ _ _ = _ =>
        unfold pad_sym_Z_crop_sym_YX in H
    | pad_sym_Z_crop_asym_YX _ _ _ _ _ _ _ _ _ _ = _ =>
        unfold pad_sym_Z_crop_asym_YX in H
    | pad_asym_Z_crop_sym_YX _ _ _ _ _ _ _ _ _ _ = _ =>
        unfold pad_asym_Z_crop_sym_YX in H
    | pad_asym_Z_crop_asym_YX _ _ _ _ _ _ _ = _ =>
        unfold pad_asym_Z_crop_asym_YX in H
    | pad_sym_Z _ _ _ _ _ _ _ _ = _ => unfold pad_sym_Z in H
    | pad_asym_Z _ _ _ _ _ _ _ = _ => unfold pad_asym_Z in H
    | pad_sym_ZYX _ _ _ _ _ _ _ _ _ _ = _ => unfold pad_sym_ZYX in H
    | pad_asym_ZYX _ _ _ _ _ _ _ = _ => unfold pad_asym_ZYX in H
    | skip _ _ _ _ _ _ = _ => unfold skip in H
    | _ => idtac
    end;
    cbv beta iota zeta in H; rewrite ?Hnz in H; unbind H;
    try (destruct (q_values kw) as [[|? ?]|];
         [apply ret_Ok in H as [_ H]|apply ret_Ok in H as [_ H]
         |apply lift_Ok in H as [_ H]; discriminate]);
    try (apply ret_Ok in H as [_ H]);
    try (apply lift_Ok in H as [_ H]; discriminate);
    inversion H; subst;
    first [ exact Hs
          | apply shape_slice3; exact Hs
          | match goal with
            | Hp : pad_all _ _ _ _ _ = _ |- _ =>
                eapply pad_all_same_shape; [|exact Hp];
                first [exact Hs | apply shape_slice3; exact Hs]
            end ].
Qed.

(** X11.  Whenever [center_fft] returns, the data and the mask it returns
    have the same shape, whatever the policy. *)
Theorem center_fft_same_shape (data mask : ndarray) (det : detector)
    (centering fft_option : string) (kw : kwargs) (frames s' : list Z)
    (out : output) :
  center_fft data mask det centering fft_option kw frames = (s', Ok out) ->
  shape (out_data out) = shape (out_mask out).
Proof.
  intros H.
  destruct (center_fft_returns _ _ _ _ _ _ _ _ _ H)
    as (Hv & qx & qz & qy & iz0 & iy0 & ix0 & Hr).
  rewrite (center_fft_resolved _ _ _ _ _ _ _ _ _ _ _ _ _ Hv Hr) in H.
  destruct (run_policy _ _ _ _ _ _ _ _ _ _ frames)
    as [s [[[[[d m] pw] [[qx' qz'] qy']] fresh]|e]] eqn:E; [|discriminate].
  inversion H; subst. cbn [out_data out_mask].
  apply valid_ndarray_Ok in Hv.
  exact (run_policy_same_shape _ _ _ _ _ _ _ _ _ _ _ _ _ _ _ _ _ Hv E).
Qed.

Lemma center_fft_same_shape_witness :
  exists s' out,
    center_fft volume13 mask13 det0 "max" "pad_asym_Z_crop_sym_YX" (no_q [])
      frames13 = (s', Ok out)
    /\ shape (out_data out) = shape (out_mask out).
Proof.
  assert (H : exists s' out,
             center_fft volume13 mask13 det0 "max" "pad_asym_Z_crop_sym_YX"
               (no_q []) frames13 = (s', Ok out))
    by (eexists _, _; vm_compute; reflexivity).
  destruct H as (s' & out & H). exists s', out.
  split; [exact H|exact (center_fft_same_shape _ _ _ _ _ _ _ _ _ H)].
Defined.

(** ** [center_fft]: cropping around the peak *)

Lemma getitem3_Ok_bounds (a : ndarray) (z y x : Z) :
  is_ok (getitem3 a z y x) = true -> 0 <= z -> 0 <= y -> 0 <= x ->
  z < nz a /\ y < ny a /\ x < nx a.
Proof.
  unfold getitem3. intros H Hz Hy Hx.
  destruct (axis_index (nz a) z) as [z'|] eqn:Ez; [|discriminate].
  destruct (axis_index (ny a) y) as [y'|] eqn:Ey; [|discriminate].
  destruct (axis_index (nx a) x) as [x'|] eqn:Ex; [|discriminate].
  pose proof (axis_index_bounds _ _ _ Ez Hz).
  pose proof (axis_index_bounds _ _ _ Ey Hy).
  pose proof (axis_index_bounds _ _ _ Ex Hx). lia.
Qed.

Lemma fft_compatible_even (n : Z) : fft_compatible n = true -> n mod 2 = 0.
Proof.
  unfold fft_compatible. rewrite !andb_true_iff, Z.eqb_eq. tauto.
Qed.

Lemma crop_frames_Ok (data : ndarray) (r : Z * Z) (frames : list Z) :
  exists s', crop_frames data r frames = (s', Ok tt).
Proof.
  unfold crop_frames, mbind, M_bind, zero_frames, zero_frames_from, ret.
  destruct (0 <? r.1), (r.2 <? nz data); eauto.
Qed.

Lemma crop_sym_ZYX_run (data mask : ndarray) (kw : kwargs) (qx qz qy : list Q)
    (iz0 iy0 ix0 n1 n2 n3 : Z) (frames : list Z) :
  smaller_primes (max_box data (iz0, iy0, ix0)).1.1 = Ok n1 ->
  smaller_primes (max_box data (iz0, iy0, ix0)).1.2 = Ok n2 ->
  smaller_primes (max_box data (iz0, iy0, ix0)).2 = Ok n3 ->
  exists s' q,
    crop_sym_ZYX data mask kw qx qz qy iz0 iy0 ix0 frames
    = (s', Ok (slice3 data (around iz0 n1) (around iy0 n2) (around ix0 n3),
               slice3 mask (around iz0 n1) (around iy0 n2) (around ix0 n3),
               no_padding, q, None)).
Proof.
  intros H1 H2 H3. unfold crop_sym_ZYX. cbv zeta.
  rewrite H1, H2, H3. unfold mbind at 1 2 3, M_bind, lift.
  cbv beta iota zeta.
  destruct (crop_frames_Ok data (around iz0 n1) frames) as [s' Hc].
  unfold mbind, M_bind. rewrite Hc. cbv beta iota. unfold ret. eauto.
Qed.

Lemma slice3_centred (a : ndarray) (c0 c1 c2 n1 n2 n3 : Z) :
  0 <= n1 / 2 <= c0 -> c0 + n1 / 2 <= nz a -> n1 mod 2 = 0 ->
  0 <= n2 / 2 <= c1 -> c1 + n2 / 2 <= ny a -> n2 mod 2 = 0 ->
  0 <= n3 / 2 <= c2 -> c2 + n3 / 2 <= nx a -> n3 mod 2 = 0 ->
  shape (slice3 a (around c0 n1) (around c1 n2) (around c2 n3)) = (n1, n2, n3)
  /\ forall z y x, 0 <= z < n1 -> 0 <= y < n2 -> 0 <= x < n3 ->
       item (slice3 a (around c0 n1) (around c1 n2) (around c2 n3)) z y x
       = item a (c0 - n1 / 2 + z) (c1 - n2 / 2 + y) (c2 - n3 / 2 + x).
Proof.
  intros Hz1 Hz2 Hz3 Hy1 Hy2 Hy3 Hx1 Hx2 Hx3.
  unfold slice3, around. cbn [fst snd].
  rewrite !slice_indices_inside by lia.
  replace (c0 + n1 / 2 - (c0 - n1 / 2)) with n1
    by (Z.to_euclidean_division_equations; lia).
  replace (c1 + n2 / 2 - (c1 - n2 / 2)) with n2
    by (Z.to_euclidean_division_equations; lia).
  replace (c2 + n3 / 2 - (c2 - n3 / 2)) with n3
    by (Z.to_euclidean_division_equations; lia).
  split.
  - unfold shape, tabulate. cbn [nz ny nx].
    repeat f_equal; Z.to_euclidean_division_equations; lia.
  - intros z y x Hz Hy Hx. rewrite item_tabulate by assumption. reflexivity.
Qed.

(** X12.  With [fft_option = "crop_sym_ZYX"], a centre inside the array and
    a box that is not degenerate, [center_fft] returns: the data has on each
    axis a size accepted for the Fourier transform and not above the size of
    the input, the voxel of the centre is at half of each size, and nothing
    is padded. *)
Theorem crop_sym_ZYX_centres_peak (data mask : ndarray) (det : detector)
    (centering : string) (kw : kwargs) (frames : list Z)
    (qs : list Q * list Q * list Q) (iz0 iy0 ix0 : Z) :
  valid_ndarray data mask = Ok tt ->
  resolve_center data det centering kw = Ok (qs, (iz0, iy0, ix0)) ->
  0 <= iz0 -> 0 <= iy0 -> 0 <= ix0 ->
  degenerate (max_box data (iz0, iy0, ix0)) = false ->
  exists s' out n1 n2 n3,
    center_fft data mask det centering "crop_sym_ZYX" kw frames = (s', Ok out)
    /\ shape (out_data out) = (n1, n2, n3)
    /\ fft_compatible n1 = true /\ fft_compatible n2 = true
    /\ fft_compatible n3 = true
    /\ n1 <= nz data /\ n2 <= ny data /\ n3 <= nx data
    /\ item (out_data out) (n1 / 2) (n2 / 2) (n3 / 2) = item data iz0 iy0 ix0
    /\ out_pad_width out = [0; 0; 0; 0; 0; 0].
Proof.
  intros Hv Hr Hz Hy Hx Hd. destruct qs as [[qx qz] qy].
  pose proof (resolve_center_in_bounds _ _ _ _ _ _ _ _ Hr) as Hin.
  apply getitem3_Ok_bounds in Hin as (Hz' & Hy' & Hx'); try assumption.
  unfold degenerate, max_box in Hd.
  rewrite !orb_false_iff, !Z.eqb_neq in Hd. destruct Hd as [[Hd1 Hd2] Hd3].
  destruct (smaller_primes_largest (Z.abs (2 * Z.min iz0 (nz data - iz0))))
    as (n1 & E1 & F1 & B1 & _); [lia|].
  destruct (smaller_primes_largest (2 * Z.min iy0 (ny data - iy0)))
    as (n2 & E2 & F2 & B2 & _); [lia|].
  destruct (smaller_primes_largest (Z.abs (2 * Z.min ix0 (nx data - ix0))))
    as (n3 & E3 & F3 & B3 & _); [lia|].
  destruct (crop_sym_ZYX_run data mask kw qx qz qy iz0 iy0 ix0 n1 n2 n3 frames
              E1 E2 E3) as (s' & [[qx' qz'] qy'] & Hrun).
  pose proof (fft_compatible_even _ F1) as P1.
  pose proof (fft_compatible_even _ F2) as P2.
  pose proof (fft_compatible_even _ F3) as P3.
  destruct (slice3_centred data iz0 iy0 ix0 n1 n2 n3) as [Hshape Hitem];
    try assumption; try (Z.to_euclidean_division_equations; lia).
  eexists s', _, n1, n2, n3. split.
  - rewrite (center_fft_resolved _ _ _ _ _ _ _ _ _ _ _ _ _ Hv Hr).
    replace (degenerate (max_box data (iz0, iy0, ix0))) with false
      by (symmetry; unfold degenerate, max_box;
          rewrite !orb_false_iff, !Z.eqb_neq; auto).
    change (run_policy data mask kw qx qz qy iz0 iy0 ix0 "crop_sym_ZYX")
      with (crop_sym_ZYX data mask kw qx qz qy iz0 iy0 ix0).
    rewrite Hrun. reflexivity.
  - cbn [out_data out_pad_width]. split; [exact Hshape|].
    repeat split; try assumption; try lia.
    rewrite Hitem by (Z.to_euclidean_division_equations; lia).
    f_equal; lia.
Qed.

Lemma crop_sym_ZYX_centres_peak_witness :
  exists s' out n1 n2 n3,
    center_fft volume13 mask13 det0 "max" "crop_sym_ZYX" (no_q []) frames13
    = (s', Ok out)
    /\ shape (out_data out) = (n1, n2, n3)
    /\ fft_compatible n1 = true /\ fft_compatible n2 = true
    /\ fft_compatible n3 = true
    /\ n1 <= 13 /\ n2 <= 8 /\ n3 <= 8
    /\ item (out_data out) (n1 / 2) (n2 / 2) (n3 / 2) = item volume13 4 4 4
    /\ out_pad_width out = [0; 0; 0; 0; 0; 0].
Proof.
  apply (crop_sym_ZYX_centres_peak volume13 mask13 det0 "max" (no_q [])
           frames13 ([], [], []) 4 4 4); try lia; vm_compute; reflexivity.
Defined.

(** ** [center_fft]: padding the rocking axis *)

Lemma int_trunc_half (k : Z) : int_trunc (inject_Z k / 2) = Z.quot k 2.
Proof.
  unfold int_trunc. cbn. rewrite Z.mul_1_r. reflexivity.
Qed.

Lemma pad_asym_widths (n d : Z) :
  0 <= d ->
  let p := pad_asym (n + d) n d in
  0 <= p.2 /\ p.2 <= p.1 <= p.2 + 1 /\ p.1 + p.2 = d.
Proof.
  intros Hd. unfold pad_asym. cbn [fst snd].
  replace (n + d - n) with d by lia.
  rewrite int_trunc_half. unfold int_trunc. cbn.
  pose proof (Z.mod_pos_bound d 2 ltac:(lia)).
  change (Z.pos (1 * 2 * 1)) with 2. change (Z.pos (1 * 2)) with 2.
  assert (0 <= (d + 1) * 1 * 1 + - (d mod 2) * 2)
    by (Z.to_euclidean_division_equations; lia).
  rewrite !Z.quot_div_nonneg by lia.
  Z.to_euclidean_division_equations. lia.
Qed.

Lemma assign_array_padding (p0 n p1 v : Z) (src : list Z) :
  0 <= p0 -> 0 <= p1 -> Z.of_nat (length src) = n ->
  assign_array (replicate (Z.to_nat (Z.max 0 (n + p0 + p1))) v) p0 (p0 + n) src
  = Ok (replicate (Z.to_nat p0) v ++ src ++ replicate (Z.to_nat p1) v).
Proof.
  intros H0 H1 Hn. unfold assign_array. rewrite length_replicate.
  rewrite Z2Nat.id by lia. rewrite slice_indices_inside by lia.
  replace (p0 + n - p0) with n by lia.
  rewrite (proj2 (Z.eqb_eq _ _) Hn).
  rewrite take_replicate, drop_replicate. do 4 f_equal; lia.
Qed.

Lemma pad_all_run (data d m : ndarray) (p0 p1 p2 p3 p4 p5 : Z)
    (frames : list Z) :
  0 <= nz d -> 0 <= ny d -> 0 <= nx d -> shape d = shape m ->
  nz d = nz data ->
  0 <= p0 -> 0 <= p1 -> 0 <= p2 -> 0 <= p3 -> 0 <= p4 -> 0 <= p5 ->
  Z.of_nat (length frames) = nz data ->
  exists d' m',
    zero_pad d [p0; p1; p2; p3; p4; p5] false = Ok d'
    /\ zero_pad m [p0; p1; p2; p3; p4; p5] true = Ok m'
    /\ pad_all data d m [p0; p1; p2; p3; p4; p5] frames
       = (frames, Ok (d', m', replicate (Z.to_nat p0) (-1) ++ frames
                                ++ replicate (Z.to_nat p1) (-1))).
Proof.
  intros Hz Hy Hx Hs Hnz H0 H1 H2 H3 H4 H5 Hlen.
  assert (Hm : nz m = nz d /\ ny m = ny d /\ nx m = nx d)
    by (inversion Hs; auto).
  destruct Hm as (Hmz & Hmy & Hmx).
  eexists _, _. split; [apply zero_pad_nonneg; assumption|].
  split; [apply zero_pad_nonneg; lia|].
  unfold pad_all. rewrite !zero_pad_nonneg by lia.
  change (getitem [p0; p1; p2; p3; p4; p5] 0) with (Ok p0).
  unfold mbind, M_bind, lift, pad_frames, read_frames, ret.
  cbn [nz tabulate]. unfold mbind, M_bind, lift.
  rewrite Hnz. rewrite assign_array_padding by lia. reflexivity.
Qed.

(** X13.  With [fft_option = "pad_asym_Z"], no q values and a
    [frames_logical] as long as the rocking axis, [center_fft] returns: the
    rocking axis is extended to the size that [util.higher_primes] gives,
    by [p0] frames before and [p1] after with [p1 <= p0 <= p1 + 1]; the
    detector axes are kept; the frames of the input are found again from
    [p0] on; and the new [frames_logical] holds -1 for the added frames
    around the entries of the caller's array, which is left as it was. *)
Theorem pad_asym_Z_extends_rocking_axis (data mask : ndarray) (det : detector)
    (centering : string) (kw : kwargs) (frames : list Z)
    (qs : list Q * list Q * list Q) (c : Z * Z * Z) :
  wf data ->
  valid_ndarray data mask = Ok tt ->
  resolve_center data det centering kw = Ok (qs, c) ->
  degenerate (max_box data c) = false ->
  q_values kw = None ->
  Z.of_nat (length frames) = nz data ->
  exists out p0 p1,
    center_fft data mask det centering "pad_asym_Z" kw frames = (frames, Ok out)
    /\ out_pad_width out = [p0; p1; 0; 0; 0; 0]
    /\ 0 <= p1 /\ p1 <= p0 <= p1 + 1
    /\ nz data + p0 + p1 = higher_primes (nz data)
    /\ shape (out_data out) = (higher_primes (nz data), ny data, nx data)
    /\ (forall z y x,
          0 <= z < nz data -> 0 <= y < ny data -> 0 <= x < nx data ->
          item (out_data out) (p0 + z) y x = item data z y x)
    /\ out_frames_logical out
       = replicate (Z.to_nat p0) (-1) ++ frames ++ replicate (Z.to_nat p1) (-1).
Proof.
  intros Hwf Hv Hr Hd Hq Hlen.
  destruct qs as [[qx qz] qy], c as [[iz0 iy0] ix0].
  pose proof Hwf as (Hz & Hy & Hx & _).
  pose proof (higher_primes_ge (nz data)) as Hge.
  set (n1 := higher_primes (nz data)) in *.
  destruct (pad_asym_widths (nz data) (n1 - nz data) ltac:(lia))
    as (Hp1 & Hp01 & Hsum).
  replace (nz data + (n1 - nz data)) with n1 in * by lia.
  set (pz := pad_asym n1 (nz data) (n1 - nz data)) in *.
  destruct (pad_all_run data data mask pz.1 pz.2 0 0 0 0 frames)
    as (d' & m' & Hd' & Hm' & Hrun); try lia;
    [apply valid_ndarray_Ok, Hv|].
  assert (Hcall :
    center_fft data mask det centering "pad_asym_Z" kw frames
    = (frames,
       Ok (mk_output d' m' [pz.1; pz.2; 0; 0; 0; 0] None
             (replicate (Z.to_nat pz.1) (-1) ++ frames
                ++ replicate (Z.to_nat pz.2) (-1))))).
  { rewrite (center_fft_resolved _ _ _ _ _ _ _ _ _ _ _ _ _ Hv Hr), Hd.
    change (run_policy data mask kw qx qz qy iz0 iy0 ix0 "pad_asym_Z")
      with (pad_asym_Z data mask kw qx qz qy).
    unfold pad_asym_Z. cbv zeta. fold n1. fold pz.
    unfold mbind at 1, M_bind at 1. rewrite Hrun. rewrite Hq.
    reflexivity. }
  clearbody pz n1.
  eexists _, pz.1, pz.2. split; [exact Hcall|].
  cbn [out_data out_pad_width out_frames_logical].
  rewrite zero_pad_nonneg in Hd' by lia. injection Hd' as Hd'. subst d'.
  repeat split; try lia.
  - unfold shape, tabulate. cbn [nz ny nx]. repeat f_equal; lia.
  - intros z y x Hz' Hy' Hx'.
    rewrite <- (padded_item_inside data pz.1 pz.2 0 0 0 0 0%Q z y x) by lia.
    reflexivity.
Qed.

Lemma pad_asym_Z_extends_rocking_axis_witness :
  exists out p0 p1,
    center_fft volume13 mask13 det0 "max" "pad_asym_Z" (no_q []) frames13
    = (frames13, Ok out)
    /\ out_pad_width out = [p0; p1; 0; 0; 0; 0]
    /\ 0 <= p1 /\ p1 <= p0 <= p1 + 1
    /\ 13 + p0 + p1 = higher_primes 13
    /\ shape (out_data out) = (higher_primes 13, 8, 8)
    /\ (forall z y x,
          0 <= z < 13 -> 0 <= y < 8 -> 0 <= x < 8 ->
          item (out_data out) (p0 + z) y x = item volume13 z y x)
    /\ out_frames_logical out
       = replicate (Z.to_nat p0) (-1) ++ frames13
           ++ replicate (Z.to_nat p1) (-1).
Proof.
  apply (pad_asym_Z_extends_rocking_axis volume13 mask13 det0 "max" (no_q [])
           frames13 ([], [], []) (4, 4, 4)); try reflexivity.
  apply wf_tabulate.
Defined.

(** ** [center_fft]: the q axis of a padded direction *)

Lemma lookup_getitem {A} (l : list A) (i : nat) (a : A) :
  l !! i = Some a -> getitem l (Z.of_nat i) = Ok a.
Proof.
  intros H. pose proof (lookup_lt_Some _ _ _ H) as Hlt. unfold getitem.
  destruct (Z.of_nat i <? 0) eqn:E; [lia|].
  replace ((0 <=? Z.of_nat i) && (Z.of_nat i <? Z.of_nat (length l)))
    with true by (symmetry; rewrite andb_true_iff, Z.leb_le, Z.ltb_lt; lia).
  rewrite Nat2Z.id, H. reflexivity.
Qed.

Lemma lookup_seqZ (n : Z) (j : nat) :
  Z.of_nat j < n -> seqZ n !! j = Some (Z.of_nat j).
Proof.
  intros H. unfold seqZ.
  change (map Z.of_nat (seq 0 (Z.to_nat n))) with (Z.of_nat <$> seq 0 (Z.to_nat n)).
  rewrite list_lookup_fmap, lookup_seq_lt by lia. reflexivity.
Qed.

(** X14.  The axis of q values of a padded direction.  The code rebuilds it
    from its first two samples as [n] evenly spaced values that start [pw]
    steps before the first one.  The new axis has [n] values, and every
    sample of the old axis that is on the line through the first two, these
    two included, is found again [pw] places further. *)
Theorem extend_axis_keeps_samples (q : list Q) (q0 q1 : Q) (pw n : Z) :
  q !! 0%nat = Some q0 -> q !! 1%nat = Some q1 -> 0 <= pw ->
  exists q',
    extend_axis q pw n = Ok q'
    /\ Z.of_nat (length q') = Z.max 0 n
    /\ forall (k : nat) (v : Q),
         q !! k = Some v ->
         (v == q0 + inject_Z (Z.of_nat k) * (q1 - q0))%Q ->
         pw + Z.of_nat k < n ->
         exists v', q' !! Z.to_nat (pw + Z.of_nat k) = Some v' /\ (v' == v)%Q.
Proof.
  intros H0 H1 Hpw. unfold extend_axis.
  pose proof (lookup_getitem q 1 q1 H1) as G1.
  pose proof (lookup_getitem q 0 q0 H0) as G0.
  change (Z.of_nat 1) with 1 in G1. change (Z.of_nat 0) with 0 in G0.
  rewrite G1, G0. cbn [mbind result_bind]. eexists. split; [reflexivity|]. split.
  - rewrite length_map, length_seqZ. lia.
  - intros k v Hk Hv Hlt.
    change (map ?f ?l) with (f <$> l).
    rewrite list_lookup_fmap, lookup_seqZ by lia. cbn.
    eexists. split; [reflexivity|].
    rewrite Z2Nat.id by lia. rewrite Hv, inject_Z_plus. ring.
Qed.

Lemma extend_axis_keeps_samples_witness :
  exists q',
    extend_axis (axis 12) 2 16 = Ok q'
    /\ Z.of_nat (length q') = Z.max 0 16
    /\ forall (k : nat) (v : Q),
         axis 12 !! k = Some v ->
         (v == 0 + inject_Z (Z.of_nat k) * (1 - 0))%Q ->
         2 + Z.of_nat k < 16 ->
         exists v', q' !! Z.to_nat (2 + Z.of_nat k) = Some v' /\ (v' == v)%Q.
Proof.
  apply (extend_axis_keeps_samples (axis 12) 0 1 2 16);
    [reflexivity|reflexivity|lia].
Defined.

(** ** [center_fft]: padding the rocking axis around the peak *)

Lemma int_trunc_integer (q : Q) (k : Z) : (q == inject_Z k)%Q -> int_trunc q = k.
Proof.
  unfold Qeq, int_trunc. cbn. intros H. rewrite Z.mul_1_r in H. rewrite H.
  apply Z.quot_mul. discriminate.
Qed.

Lemma Qmin_integers (a b : Q) (ka kb : Z) :
  (a == inject_Z ka)%Q -> (b == inject_Z kb)%Q ->
  (Qmin a b == inject_Z (Z.min ka kb))%Q.
Proof.
  intros Ha Hb. destruct (Q.min_spec a b) as [[Hlt ->]|[Hle ->]].
  - rewrite Ha, Hb in Hlt. rewrite <- Zlt_Qlt in Hlt.
    rewrite Z.min_l by lia. exact Ha.
  - rewrite Ha, Hb in Hle. rewrite <- Zle_Qle in Hle.
    rewrite Z.min_r by lia. exact Hb.
Qed.

Lemma half_integer (p : Z) :
  p mod 2 = 0 -> (inject_Z p / 2 == inject_Z (p / 2))%Q.
Proof.
  intros Hp. unfold Qeq. cbn.
  Z.to_euclidean_division_equations. lia.
Qed.

Lemma pad_sym_values (p n i0 : Z) :
  p mod 2 = 0 ->
  pad_sym p n i0
  = (Z.min (p / 2 - i0) (p - n), Z.min (p / 2 - n + i0) (p - n)).
Proof.
  intros Hp. unfold pad_sym. f_equal.
  - apply int_trunc_integer, Qmin_integers; [|reflexivity].
    rewrite (half_integer p Hp). unfold Qminus.
    rewrite <- inject_Z_opp, <- inject_Z_plus. reflexivity.
  - apply int_trunc_integer, Qmin_integers; [|reflexivity].
    rewrite (half_integer p Hp). unfold Qminus.
    rewrite <- inject_Z_opp, <- !inject_Z_plus. reflexivity.
Qed.

(** A padding of the first axis alone that [zero_pad] accepts has no
    negative width, when the array has more than one frame. *)
Lemma zero_pad_first_axis (a a' : ndarray) (w0 w1 : Z) (flag : bool) :
  0 <= ny a -> 0 <= nx a -> 1 < nz a -> 0 < w0 + nz a ->
  zero_pad a [w0; w1; 0; 0; 0; 0] flag = Ok a' ->
  0 <= w0 /\ 0 <= w1.
Proof.
  intros Hy Hx Hz Hw H. unfold zero_pad in H.
  change (getitem [w0; w1; 0; 0; 0; 0] 0) with (Ok w0) in H.
  change (getitem [w0; w1; 0; 0; 0; 0] 1) with (Ok w1) in H.
  change (getitem [w0; w1; 0; 0; 0; 0] 2) with (Ok 0) in H.
  change (getitem [w0; w1; 0; 0; 0; 0] 3) with (Ok 0) in H.
  change (getitem [w0; w1; 0; 0; 0; 0] 4) with (Ok 0) in H.
  change (getitem [w0; w1; 0; 0; 0; 0] 5) with (Ok 0) in H.
  cbn [mbind result_bind] in H. cbv beta iota zeta in H.
  destruct (nz a + w0 + w1 <? 0) eqn:E0; [discriminate|].
  cbn [orb] in H.
  destruct ((ny a + 0 + 0 <? 0) || (nx a + 0 + 0 <? 0)); [discriminate|].
  unfold slice_indices at 1 in H. unfold slice_bound in H.
  destruct (slice_indices (ny a + 0 + 0) 0 (0 + ny a)) as [y0 ly].
  destruct (slice_indices (nx a + 0 + 0) 0 (0 + nx a)) as [x0 lx].
  match type of H with
  | (if (?c || (nz a =? 1)) && _ && _ then _ else _) = _ =>
      destruct c eqn:Ec
  end.
  - apply Z.eqb_eq in Ec.
    destruct (w0 <? 0) eqn:E1, (w0 + nz a <? 0) eqn:E2; lia.
  - replace (nz a =? 1) with false in H by (symmetry; apply Z.eqb_neq; lia).
    discriminate.
Qed.

(** X15.  With [fft_option = "pad_sym_Z"], a centre inside the array and a
    box that is not degenerate, a call of [center_fft] that returns has
    centred the peak: the size asked for in ['pad_size'] is accepted for the
    Fourier transform and is the number of frames of the data returned, no
    width of [pad_width] is negative, the frame of the peak is at half of
    that size, and the detector axes are kept.  A size for which the peak
    cannot be centred makes the call fail. *)
Theorem pad_sym_Z_centres_peak (data mask : ndarray) (det : detector)
    (centering : string) (kw : kwargs) (frames s' : list Z) (out : output)
    (qs : list Q * list Q * list Q) (iz0 iy0 ix0 : Z) :
  wf data ->
  resolve_center data det centering kw = Ok (qs, (iz0, iy0, ix0)) ->
  0 <= iz0 -> 0 <= iy0 -> 0 <= ix0 ->
  degenerate (max_box data (iz0, iy0, ix0)) = false ->
  center_fft data mask det centering "pad_sym_Z" kw frames = (s', Ok out) ->
  exists p w0 w1,
    getitem (pad_size kw) 0 = Ok p
    /\ fft_compatible p = true
    /\ out_pad_width out = [w0; w1; 0; 0; 0; 0]
    /\ 0 <= w0 /\ 0 <= w1
    /\ shape (out_data out) = (p, ny data, nx data)
    /\ w0 + iz0 = p / 2
    /\ item (out_data out) (p / 2) iy0 ix0 = item data iz0 iy0 ix0.
Proof.
  intros Hwf Hr Hz0 Hy0 Hx0 Hd H. destruct qs as [[qx qz] qy].
  pose proof Hwf as (Hz & Hy & Hx & _).
  destruct (center_fft_returns _ _ _ _ _ _ _ _ _ H) as (Hv & _).
  pose proof (resolve_center_in_bounds _ _ _ _ _ _ _ _ Hr) as Hin.
  apply getitem3_Ok_bounds in Hin as (Hz' & Hy' & Hx'); try assumption.
  assert (Hnz : 1 < nz data).
  { unfold degenerate, max_box in Hd.
    rewrite !orb_false_iff, !Z.eqb_neq in Hd. lia. }
  rewrite (center_fft_resolved _ _ _ _ _ _ _ _ _ _ _ _ _ Hv Hr), Hd in H.
  change (run_policy data mask kw qx qz qy iz0 iy0 ix0 "pad_sym_Z")
    with (pad_sym_Z data mask kw qx qz qy iz0) in H.
  destruct (pad_sym_Z data mask kw qx qz qy iz0 frames)
    as [s [[[[[d m] pw] [[qx' qz'] qy']] fresh]|e]] eqn:E; [|discriminate].
  injection H as -> <-. cbn [out_data out_pad_width].
  unfold pad_sym_Z in E. cbv zeta in E.
  apply bind_M_Ok in E as ([] & s1 & _ & E).
  apply bind_M_Ok in E as (p & s2 & Hp & E).
  apply lift_Ok in Hp as [-> Hp]. rewrite check_pad_size_spec in Hp.
  apply bind_Ok in Hp as (p' & Hget & Hp).
  destruct (fft_compatible p') eqn:Hfft; [|discriminate].
  injection Hp as ->.
  apply bind_M_Ok in E as ([[d1 m1] fr] & s3 & Hpad & E).
  cbv beta iota zeta in E.
  apply bind_M_Ok in E as (q' & s4 & _ & E).
  apply ret_Ok in E as [_ E]. injection E as -> -> -> _ _.
  unfold pad_all in Hpad.
  apply bind_M_Ok in Hpad as (d2 & s5 & Hzp & Hpad).
  apply lift_Ok in Hzp as [-> Hzp].
  apply bind_M_Ok in Hpad as (m2 & s6 & _ & Hpad).
  apply bind_M_Ok in Hpad as (x & s7 & _ & Hpad).
  apply bind_M_Ok in Hpad as (f2 & s8 & _ & Hpad).
  apply ret_Ok in Hpad as [_ Hpad]. injection Hpad as -> _ _.
  pose proof (fft_compatible_even _ Hfft) as Heven.
  pose proof (fft_compatible_pos _ Hfft) as Hpos.
  pose proof (pad_sym_values p (nz data) iz0 Heven) as Hpw.
  rewrite Hpw in Hzp. cbn [fst snd] in Hzp.
  set (w0 := Z.min (p / 2 - iz0) (p - nz data)) in *.
  set (w1 := Z.min (p / 2 - nz data + iz0) (p - nz data)) in *.
  assert (Hw : 0 < w0 + nz data)
    by (unfold w0; Z.to_euclidean_division_equations; lia).
  destruct (zero_pad_first_axis data _ w0 w1 false Hy Hx Hnz Hw Hzp)
    as [Hw0 Hw1].
  assert (Hc0 : w0 = p / 2 - iz0)
    by (unfold w0, w1 in *; Z.to_euclidean_division_equations; lia).
  assert (Hc1 : w1 = p / 2 - nz data + iz0)
    by (unfold w0, w1 in *; Z.to_euclidean_division_equations; lia).
  clearbody w0 w1.
  rewrite zero_pad_nonneg in Hzp by lia. injection Hzp as <-.
  exists p, w0, w1. repeat split; try assumption; try lia.
  - repeat f_equal; [exact (f_equal fst Hpw)|exact (f_equal snd Hpw)].
  - unfold shape, tabulate. cbn [nz ny nx].
    repeat f_equal; Z.to_euclidean_division_equations; lia.
  - replace (p / 2) with (w0 + iz0) by lia.
    change iy0 with (0 + iy0) at 1. change ix0 with (0 + ix0) at 1.
    apply padded_item_inside; lia.
Qed.

Lemma pad_sym_Z_centres_peak_witness :
  exists s' out p w0 w1,
    center_fft volume mask0 det0 "max" "pad_sym_Z" (no_q [16; 8; 8]) frames0
    = (s', Ok out)
    /\ getitem (pad_size (no_q [16; 8; 8])) 0 = Ok p
    /\ fft_compatible p = true
    /\ out_pad_width out = [w0; w1; 0; 0; 0; 0]
    /\ 0 <= w0 /\ 0 <= w1
    /\ shape (out_data out) = (p, ny volume, nx volume)
    /\ w0 + 4 = p / 2
    /\ item (out_data out) (p / 2) 4 4 = item volume 4 4 4.
Proof.
  assert (H : exists s' out,
             center_fft volume mask0 det0 "max" "pad_sym_Z" (no_q [16; 8; 8])
               frames0 = (s', Ok out))
    by (eexists _, _; vm_compute; reflexivity).
  destruct H as (s' & out & H).
  destruct (pad_sym_Z_centres_peak volume mask0 det0 "max" (no_q [16; 8; 8])
              frames0 s' out ([], [], []) 4 4 4 (wf_tabulate _ _ _ _)
              eq_refl ltac:(lia) ltac:(lia) ltac:(lia) eq_refl H)
    as (p & w0 & w1 & Hres).
  exists s', out, p, w0, w1. split; [exact H|exact Hres].
Defined.

(** ** [center_fft]: padding the three axes without centring *)

Lemma pad_asym_parity (n1 n m : Z) :
  n <= n1 ->
  let p := pad_asym n1 n m in
  0 <= p.1 /\ 0 <= p.2
  /\ p.1 + p.2
     = n1 - n - (if ((n1 - n) mod 2 =? 1) && (m mod 2 =? 0) then 1 else 0).
Proof.
  intros Hn. unfold pad_asym. cbn [fst snd].
  rewrite int_trunc_half. unfold int_trunc. cbn.
  change (Z.pos (1 * 2 * 1)) with 2. change (Z.pos (1 * 2)) with 2.
  pose proof (Z.mod_pos_bound (n1 - n) 2 ltac:(lia)).
  pose proof (Z.mod_pos_bound m 2 ltac:(lia)).
  assert (0 <= (n1 - n + 1) * 1 * 1 + - ((n1 - n) mod 2) * 2)
    by (Z.to_euclidean_division_equations; lia).
  rewrite !Z.quot_div_nonneg by lia.
  destruct ((n1 - n) mod 2 =? 1) eqn:E1, (m mod 2 =? 0) eqn:E2; cbn [andb];
    Z.to_euclidean_division_equations; lia.
Qed.

Lemma higher_primes_even (n : Z) : higher_primes n mod 2 = 0.
Proof.
  apply fft_compatible_even. apply (higher_primes_smallest n).
Qed.

(** X16.  With [fft_option = "pad_asym_ZYX"], no q values, a
    [frames_logical] as long as the rocking axis and a ['pad_size'] with a
    second entry, [center_fft] returns.  The first and the last axis of the
    data have the sizes that [util.higher_primes] gives.  So has the second
    one, except when its size in the input and the second entry of
    ['pad_size'] are both odd: it is then one less, an odd number. *)
Theorem pad_asym_ZYX_detector_axis (data mask : ndarray) (det : detector)
    (centering : string) (kw : kwargs) (frames : list Z)
    (qs : list Q * list Q * list Q) (c : Z * Z * Z) (ps1 : Z) :
  wf data ->
  valid_ndarray data mask = Ok tt ->
  resolve_center data det centering kw = Ok (qs, c) ->
  degenerate (max_box data c) = false ->
  q_values kw = None ->
  Z.of_nat (length frames) = nz data ->
  getitem (pad_size kw) 1 = Ok ps1 ->
  exists out,
    center_fft data mask det centering "pad_asym_ZYX" kw frames
    = (frames, Ok out)
    /\ shape (out_data out)
       = (higher_primes (nz data),
          higher_primes (ny data)
            - (if Z.odd (ny data) && Z.odd ps1 then 1 else 0),
          higher_primes (nx data)).
Proof.
  intros Hwf Hv Hr Hd Hq Hlen Hps.
  destruct qs as [[qx qz] qy], c as [[iz0 iy0] ix0].
  pose proof Hwf as (Hz & Hy & Hx & _).
  pose proof (higher_primes_ge (nz data)) as Hgz.
  pose proof (higher_primes_ge (ny data)) as Hgy.
  pose proof (higher_primes_ge (nx data)) as Hgx.
  pose proof (higher_primes_even (nz data)) as Hez.
  pose proof (higher_primes_even (ny data)) as Hey.
  pose proof (higher_primes_even (nx data)) as Hex.
  set (n1 := higher_primes (nz data)) in *.
  set (n2 := higher_primes (ny data)) in *.
  set (n3 := higher_primes (nx data)) in *.
  destruct (pad_asym_parity n1 (nz data) (n1 - nz data) Hgz)
    as (Hz1 & Hz2 & Hzs).
  destruct (pad_asym_parity n2 (ny data) (ps1 - ny data) Hgy)
    as (Hy1 & Hy2 & Hys).
  destruct (pad_asym_parity n3 (nx data) (n3 - nx data) Hgx)
    as (Hx1 & Hx2 & Hxs).
  set (pz := pad_asym n1 (nz data) (n1 - nz data)) in *.
  set (py := pad_asym n2 (ny data) (ps1 - ny data)) in *.
  set (px := pad_asym n3 (nx data) (n3 - nx data)) in *.
  destruct (pad_all_run data data mask pz.1 pz.2 py.1 py.2 px.1 px.2 frames)
    as (d' & m' & Hd' & Hm' & Hrun); try lia;
    [apply valid_ndarray_Ok, Hv|].
  assert (Hcall :
    center_fft data mask det centering "pad_asym_ZYX" kw frames
    = (frames,
       Ok (mk_output d' m' [pz.1; pz.2; py.1; py.2; px.1; px.2] None
             (replicate (Z.to_nat pz.1) (-1) ++ frames
                ++ replicate (Z.to_nat pz.2) (-1))))).
  { rewrite (center_fft_resolved _ _ _ _ _ _ _ _ _ _ _ _ _ Hv Hr), Hd.
    change (run_policy data mask kw qx qz qy iz0 iy0 ix0 "pad_asym_ZYX")
      with (pad_asym_ZYX data mask kw qx qz qy).
    unfold pad_asym_ZYX. cbv zeta. rewrite Hps.
    fold n1. fold n2. fold n3.
    unfold mbind at 1, M_bind at 1, lift at 1. fold pz. fold py. fold px.
    unfold mbind at 1, M_bind at 1. rewrite Hrun. rewrite Hq.
    reflexivity. }
  assert (Hyodd : (if ((n2 - ny data) mod 2 =? 1)
                      && ((ps1 - ny data) mod 2 =? 0) then 1 else 0)
                  = (if Z.odd (ny data) && Z.odd ps1 then 1 else 0)).
  { pose proof (Zmod_odd (ny data)) as Ho1.
    pose proof (Zmod_odd ps1) as Ho2.
    destruct (Z.odd (ny data)), (Z.odd ps1); cbn [andb];
      destruct ((n2 - ny data) mod 2 =? 1) eqn:E1,
               ((ps1 - ny data) mod 2 =? 0) eqn:E2; cbn [andb];
      try reflexivity; exfalso;
      Z.to_euclidean_division_equations; lia. }
  assert (Hzeven : (if ((n1 - nz data) mod 2 =? 1)
                       && ((n1 - nz data) mod 2 =? 0) then 1 else 0) = 0).
  { destruct ((n1 - nz data) mod 2 =? 1) eqn:E1,
             ((n1 - nz data) mod 2 =? 0) eqn:E2; cbn [andb];
      try reflexivity; lia. }
  assert (Hxeven : (if ((n3 - nx data) mod 2 =? 1)
                       && ((n3 - nx data) mod 2 =? 0) then 1 else 0) = 0).
  { destruct ((n3 - nx data) mod 2 =? 1) eqn:E1,
             ((n3 - nx data) mod 2 =? 0) eqn:E2; cbn [andb];
      try reflexivity; lia. }
  rewrite Hyodd in Hys. rewrite Hzeven in Hzs. rewrite Hxeven in Hxs.
  clearbody pz py px n1 n2 n3.
  eexists. split; [exact Hcall|]. cbn [out_data].
  rewrite zero_pad_nonneg in Hd' by lia. injection Hd' as Hd'. subst d'.
  unfold shape, tabulate. cbn [nz ny nx]. repeat f_equal; lia.
Qed.

Lemma pad_asym_ZYX_detector_axis_witness :
  exists out,
    center_fft (single_peak 12 7 8 4 3 4) (constant 12 7 8 0) det0 "max"
      "pad_asym_ZYX" (no_q [16; 9; 16]) frames0 = (frames0, Ok out)
    /\ shape (out_data out)
       = (higher_primes 12,
          higher_primes 7 - (if Z.odd 7 && Z.odd 9 then 1 else 0),
          higher_primes 8).
Proof.
  apply (pad_asym_ZYX_detector_axis (single_peak 12 7 8 4 3 4)
           (constant 12 7 8 0) det0 "max" (no_q [16; 9; 16]) frames0
           ([], [], []) (4, 3, 4) 9); try reflexivity.
  apply wf_tabulate.
Defined.

(** ** [center_fft]: cropping around the middle of the array *)

Lemma crop_asym_ZYX_run (data mask : ndarray) (kw : kwargs) (qx qz qy : list Q)
    (n1 n2 n3 : Z) (frames : list Z) (q : list Q) (qv : list (list Q)) :
  q_values kw = Some (q :: qv) ->
  smaller_primes (nz data) = Ok n1 ->
  smaller_primes (ny data) = Ok n2 ->
  smaller_primes (nx data) = Ok n3 ->
  exists s' q',
    crop_asym_ZYX data mask kw qx qz qy frames
    = (s', Ok (slice3 data (around (nz data / 2) n1) (around (ny data / 2) n2)
                 (around (nx data / 2) n3),
               slice3 mask (around (nz data / 2) n1) (around (ny data / 2) n2)
                 (around (nx data / 2) n3),
               no_padding, q', None)).
Proof.
  intros Hq H1 H2 H3. unfold crop_asym_ZYX. cbv zeta.
  rewrite H1, H2, H3, Hq. unfold mbind at 1 2 3, M_bind, lift.
  cbv beta iota zeta.
  destruct (crop_frames_Ok data (around (nz data / 2) n1) frames) as [s' Hc].
  unfold mbind, M_bind. rewrite Hc. cbv beta iota. unfold ret. eauto.
Qed.

(** X17.  With [fft_option = "crop_asym_ZYX"], q values, a box that is not
    degenerate and at least two entries on each axis, [center_fft] returns:
    each axis of the data has the size that [util.smaller_primes] gives for
    the size of the input, the block kept is the one around the middle of
    the array, and nothing is padded. *)
Theorem crop_asym_ZYX_keeps_middle (data mask : ndarray) (det : detector)
    (centering : string) (kw : kwargs) (frames : list Z)
    (qs : list Q * list Q * list Q) (c : Z * Z * Z) (qv : list (list Q)) :
  valid_ndarray data mask = Ok tt ->
  resolve_center data det centering kw = Ok (qs, c) ->
  degenerate (max_box data c) = false ->
  q_values kw = Some qv ->
  2 <= nz data -> 2 <= ny data -> 2 <= nx data ->
  exists s' out n1 n2 n3,
    center_fft data mask det centering "crop_asym_ZYX" kw frames
    = (s', Ok out)
    /\ smaller_primes (nz data) = Ok n1
    /\ smaller_primes (ny data) = Ok n2
    /\ smaller_primes (nx data) = Ok n3
    /\ shape (out_data out) = (n1, n2, n3)
    /\ (forall z y x,
          0 <= z < n1 -> 0 <= y < n2 -> 0 <= x < n3 ->
          item (out_data out) z y x
          = item data (nz data / 2 - n1 / 2 + z) (ny data / 2 - n2 / 2 + y)
              (nx data / 2 - n3 / 2 + x))
    /\ out_pad_width out = [0; 0; 0; 0; 0; 0].
Proof.
  intros Hv Hr Hd Hq Hz Hy Hx.
  destruct qs as [[qx qz] qy], c as [[iz0 iy0] ix0].
  destruct (resolve_center_axes _ _ _ _ _ _ _ _ qv Hr Hq) as (Hq0 & _).
  destruct qv as [|q qv]; [discriminate|].
  destruct (smaller_primes_largest (nz data) Hz) as (n1 & E1 & F1 & B1 & _).
  destruct (smaller_primes_largest (ny data) Hy) as (n2 & E2 & F2 & B2 & _).
  destruct (smaller_primes_largest (nx data) Hx) as (n3 & E3 & F3 & B3 & _).
  destruct (crop_asym_ZYX_run data mask kw qx qz qy n1 n2 n3 frames q qv
              Hq E1 E2 E3) as (s' & [[qx' qz'] qy'] & Hrun).
  pose proof (fft_compatible_even _ F1) as P1.
  pose proof (fft_compatible_even _ F2) as P2.
  pose proof (fft_compatible_even _ F3) as P3.
  destruct (slice3_centred data (nz data / 2) (ny data / 2) (nx data / 2)
              n1 n2 n3) as [Hshape Hitem];
    try assumption; try (Z.to_euclidean_division_equations; lia).
  eexists s', _, n1, n2, n3. split.
  - rewrite (center_fft_resolved _ _ _ _ _ _ _ _ _ _ _ _ _ Hv Hr), Hd.
    change (run_policy data mask kw qx qz qy iz0 iy0 ix0 "crop_asym_ZYX")
      with (crop_asym_ZYX data mask kw qx qz qy).
    rewrite Hrun. reflexivity.
  - cbn [out_data out_pad_width]. repeat split; assumption.
Qed.

Lemma crop_asym_ZYX_keeps_middle_witness :
  exists s' out n1 n2 n3,
    center_fft volume13 mask13 det0 "max" "crop_asym_ZYX"
      (mk_kwargs None [] (Some [axis 13; axis 8; axis 8])) frames13
    = (s', Ok out)
    /\ smaller_primes 13 = Ok n1
    /\ smaller_primes 8 = Ok n2
    /\ smaller_primes 8 = Ok n3
    /\ shape (out_data out) = (n1, n2, n3)
    /\ (forall z y x,
          0 <= z < n1 -> 0 <= y < n2 -> 0 <= x < n3 ->
          item (out_data out) z y x
          = item volume13 (13 / 2 - n1 / 2 + z) (8 / 2 - n2 / 2 + y)
              (8 / 2 - n3 / 2 + x))
    /\ out_pad_width out = [0; 0; 0; 0; 0; 0].
Proof.
  apply (crop_asym_ZYX_keeps_middle volume13 mask13 det0 "max"
           (mk_kwargs None [] (Some [axis 13; axis 8; axis 8])) frames13
           (axis 13, axis 8, axis 8) (4, 4, 4) [axis 13; axis 8; axis 8]);
    try reflexivity; cbn; lia.
Defined.

(** ** [center_fft]: the frames that [frames_logical] flags *)

Lemma axis_index_pos (n i j : Z) : axis_index n i = Ok j -> 0 < n.
Proof.
  unfold axis_index. destruct (Z.ltb_spec i 0);
    match goal with
    | |- (if ?c then _ else _) = _ -> _ => destruct c eqn:E
    end; try discriminate; intros _; lia.
Qed.

(** A centre that is resolved is an entry of the data: no axis is empty. *)
Lemma resolve_center_dims (data : ndarray) (det : detector)
    (centering : string) (kw : kwargs) (qs : list Q * list Q * list Q)
    (c : Z * Z * Z) :
  resolve_center data det centering kw = Ok (qs, c) ->
  0 < nz data /\ 0 < ny data /\ 0 < nx data.
Proof.
  destruct c as [[iz0 iy0] ix0]. intros H.
  apply resolve_center_in_bounds in H. unfold getitem3 in H.
  destruct (axis_index (nz data) iz0) as [z|] eqn:Ez; [|discriminate].
  destruct (axis_index (ny data) iy0) as [y|] eqn:Ey; [|discriminate].
  destruct (axis_index (nx data) ix0) as [x|] eqn:Ex; [|discriminate].
  apply axis_index_pos in Ez, Ey, Ex. auto.
Qed.

Lemma slice3_full_dims (a : ndarray) (yr xr : Z * Z) :
  0 <= nz a ->
  nz (slice3 a (full (nz a)) yr xr) = nz a
  /\ 0 <= ny (slice3 a (full (nz a)) yr xr)
  /\ 0 <= nx (slice3 a (full (nz a)) yr xr).
Proof.
  intros Hz. unfold slice3, full. cbn [fst snd].
  rewrite slice_indices_inside by lia.
  destruct (slice_indices (ny a) _ _), (slice_indices (nx a) _ _).
  cbn [tabulate nz ny nx]. lia.
Qed.

Lemma pad_all_zero_pad (data d0 m0 d m : ndarray) (w frames s' fr : list Z) :
  pad_all data d0 m0 w frames = (s', Ok (d, m, fr)) ->
  zero_pad d0 w false = Ok d.
Proof.
  intros H. unfold pad_all in H.
  apply bind_M_Ok in H as (d1 & s1 & E1 & H). apply lift_Ok in E1 as [_ E1].
  apply bind_M_Ok in H as (m1 & s2 & _ & H).
  apply bind_M_Ok in H as (w0 & s3 & _ & H).
  apply bind_M_Ok in H as (f1 & s4 & _ & H).
  apply ret_Ok in H as [_ H]. injection H as -> _ _. exact E1.
Qed.

(** [pad_all] with six widths that are not negative. *)
Lemma pad_all_padded (data d0 m0 d m : ndarray) (p0 p1 p2 p3 p4 p5 : Z)
    (frames s' fr : list Z) :
  Z.of_nat (length frames) = nz data ->
  d0 = data \/ (exists yr xr, d0 = slice3 data (full (nz data)) yr xr) ->
  nz d0 = nz data -> 0 <= ny d0 -> 0 <= nx d0 ->
  0 <= p0 -> 0 <= p1 -> 0 <= p2 -> 0 <= p3 -> 0 <= p4 -> 0 <= p5 ->
  pad_all data d0 m0 [p0; p1; p2; p3; p4; p5] frames = (s', Ok (d, m, fr)) ->
  s' = frames /\ padded_by data frames d [p0; p1; p2; p3; p4; p5] fr.
Proof.
  intros Hlen Hd0 Hnz Hny Hnx H0 H1 H2 H3 H4 H5 H.
  assert (Hz : 0 <= nz data) by lia.
  unfold pad_all in H.
  apply bind_M_Ok in H as (d1 & s1 & E1 & H). apply lift_Ok in E1 as [-> E1].
  apply bind_M_Ok in H as (m1 & s1 & E2 & H). apply lift_Ok in E2 as [-> _].
  apply bind_M_Ok in H as (w0 & s1 & E3 & H). apply lift_Ok in E3 as [-> E3].
  change (getitem [p0; p1; p2; p3; p4; p5] 0) with (Ok p0) in E3.
  injection E3 as <-.
  apply bind_M_Ok in H as (f1 & s1 & E4 & H).
  apply ret_Ok in H as [-> H]. injection H as -> _ ->.
  rewrite zero_pad_nonneg in E1 by lia. injection E1 as <-.
  unfold pad_frames in E4. apply bind_M_Ok in E4 as (fl & s2 & R & E4).
  unfold read_frames in R. injection R as <- <-.
  apply lift_Ok in E4 as [-> E4].
  cbn [tabulate nz] in E4. rewrite Hnz in E4.
  rewrite assign_array_padding in E4 by lia. injection E4 as <-.
  split; [reflexivity|].
  exists p0, p1, p2, p3, p4, p5, d0. cbn [tabulate nz ny nx].
  split; [reflexivity|]. split; [exact H0|]. split; [exact H1|].
  split; [lia|]. split; [reflexivity|]. split; [exact Hd0|]. split.
  - intros z y x Rz Ry Rx. apply padded_item_inside; lia.
  - intros z y x Rz Ry Rx. apply padded_item_outside; lia.
Qed.

(** A padding centred on the peak that [zero_pad] accepts has no negative
    width. *)
Lemma pad_sym_nonneg (ps : list Z) (p n i0 : Z) (a a' : ndarray)
    (flag : bool) :
  check_pad_size ps 0 = Ok p ->
  0 <= i0 < n -> 1 < n -> nz a = n -> 0 <= ny a -> 0 <= nx a ->
  zero_pad a [(pad_sym p n i0).1; (pad_sym p n i0).2; 0; 0; 0; 0] flag
  = Ok a' ->
  0 <= (pad_sym p n i0).1 /\ 0 <= (pad_sym p n i0).2.
Proof.
  intros Hp Hi Hn Hnz Hy Hx H.
  rewrite check_pad_size_spec in Hp. apply bind_Ok in Hp as (p' & _ & Hp).
  destruct (fft_compatible p') eqn:Hfft; [|discriminate]. injection Hp as ->.
  pose proof (fft_compatible_even _ Hfft) as Heven.
  pose proof (fft_compatible_pos _ Hfft) as Hpos.
  rewrite (pad_sym_values p n i0 Heven) in *. cbn [fst snd] in *.
  apply (zero_pad_first_axis a a' _ _ flag); try assumption; try lia.
  Z.to_euclidean_division_equations; lia.
Qed.

Lemma pad_asym_nonneg (n m : Z) :
  0 <= (pad_asym (higher_primes n) n m).1
  /\ 0 <= (pad_asym (higher_primes n) n m).2.
Proof.
  destruct (pad_asym_parity (higher_primes n) n m (higher_primes_ge n))
    as (H1 & H2 & _). auto.
Qed.

(** The end of a padding branch: the q values, then the tuple returned. *)
Lemma pad_branch_end (data d1 m1 : ndarray) (w fr : list Z)
    (qm : M (list Q * list Q * list Q)) (frames s' : list Z) (d m : ndarray)
    (pw : list Z) (q : list Q * list Q * list Q) (fresh : option (list Z)) :
  preserves qm ->
  padded_by data frames d1 w fr ->
  (q' ← qm; ret (d1, m1, w, q', Some fr)) frames
  = (s', Ok (d, m, pw, q, fresh)) ->
  s' = frames /\ exists fr', fresh = Some fr' /\ padded_by data frames d pw fr'.
Proof.
  intros Hpres Hpad H.
  apply bind_M_Ok in H as (q' & s1 & Hq & H). apply Hpres in Hq. subst s1.
  apply ret_Ok in H as [-> H]. injection H as -> _ -> _ ->.
  split; [reflexivity|]. exists fr. split; [reflexivity|exact Hpad].
Qed.

Section PaddedFrames.

Variables (data mask : ndarray) (kw : kwargs) (qx qz qy : list Q).
Variables (iz0 iy0 ix0 : Z) (frames s' : list Z) (d m : ndarray).
Variables (pw : list Z) (q : list Q * list Q * list Q).
Variable fresh : option (list Z).
Hypothesis Hlen : Z.of_nat (length frames) = nz data.
Hypothesis Hz : 0 <= iz0 < nz data.
Hypothesis Hnz : 1 < nz data.
Hypothesis Hny : 0 < ny data.
Hypothesis Hnx : 0 < nx data.

Lemma pad_sym_Z_crop_sym_YX_by :
  pad_sym_Z_crop_sym_YX data mask kw qx qz qy iz0 iy0 ix0 frames
  = (s', Ok (d, m, pw, q, fresh)) ->
  s' = frames /\ exists fr, fresh = Some fr /\ padded_by data frames d pw fr.
Proof.
  intros H. unfold pad_sym_Z_crop_sym_YX in H. cbv zeta in H.
  apply bind_M_Ok in H as ([] & s1 & E0 & H). apply lift_Ok in E0 as [-> _].
  apply bind_M_Ok in H as (p & s1 & Ep & H). apply lift_Ok in Ep as [-> Ep].
  apply bind_M_Ok in H as (n2 & s1 & E2 & H). apply lift_Ok in E2 as [-> _].
  apply bind_M_Ok in H as (n3 & s1 & E3 & H). apply lift_Ok in E3 as [-> _].
  cbv beta iota zeta in H.
  apply bind_M_Ok in H as ([[d1 m1] f1] & s1 & Hp & H).
  cbv beta iota zeta in H.
  destruct (slice3_full_dims data (around iy0 n2) (around ix0 n3))
    as (D1 & D2 & D3); [lia|].
  pose proof (pad_all_zero_pad _ _ _ _ _ _ _ _ _ Hp) as Hzp.
  destruct (pad_sym_nonneg _ _ _ _ _ _ _ Ep Hz Hnz D1 D2 D3 Hzp) as [W0 W1].
  apply pad_all_padded in Hp as [-> Hpad]; try lia; try assumption;
    [|right; eauto].
  eapply pad_branch_end; [|exact Hpad|exact H]. solve_preserves.
Qed.

Lemma pad_sym_Z_crop_asym_YX_by :
  pad_sym_Z_crop_asym_YX data mask kw qx qz qy iz0 iy0 ix0 frames
  = (s', Ok (d, m, pw, q, fresh)) ->
  s' = frames /\ exists fr, fresh = Some fr /\ padded_by data frames d pw fr.
Proof.
  intros H. unfold pad_sym_Z_crop_asym_YX in H. cbv zeta in H.
  apply bind_M_Ok in H as ([] & s1 & E0 & H). apply lift_Ok in E0 as [-> _].
  apply bind_M_Ok in H as (p & s1 & Ep & H). apply lift_Ok in Ep as [-> Ep].
  apply bind_M_Ok in H as (n2 & s1 & E2 & H). apply lift_Ok in E2 as [-> _].
  apply bind_M_Ok in H as (n3 & s1 & E3 & H). apply lift_Ok in E3 as [-> _].
  cbv beta iota zeta in H.
  apply bind_M_Ok in H as ([[d1 m1] f1] & s1 & Hp & H).
  cbv beta iota zeta in H.
  destruct (slice3_full_dims data (around (ny data / 2) n2)
              (around (nx data / 2) n3)) as (D1 & D2 & D3); [lia|].
  pose proof (pad_all_zero_pad _ _ _ _ _ _ _ _ _ Hp) as Hzp.
  destruct (pad_sym_nonneg _ _ _ _ _ _ _ Ep Hz Hnz D1 D2 D3 Hzp) as [W0 W1].
  apply pad_all_padded in Hp as [-> Hpad]; try lia; try assumption;
    [|right; eauto].
  eapply pad_branch_end; [|exact Hpad|exact H]. solve_preserves.
Qed.

Lemma pad_asym_Z_crop_sym_YX_by :
  pad_asym_Z_crop_sym_YX data mask kw qx qz qy iz0 iy0 ix0 frames
  = (s', Ok (d, m, pw, q, fresh)) ->
  s' = frames /\ exists fr, fresh = Some fr /\ padded_by data frames d pw fr.
Proof.
  intros H. unfold pad_asym_Z_crop_sym_YX in H. cbv zeta in H.
  apply bind_M_Ok in H as (n2 & s1 & E2 & H). apply lift_Ok in E2 as [-> _].
  apply bind_M_Ok in H as (n3 & s1 & E3 & H). apply lift_Ok in E3 as [-> _].
  cbv beta iota zeta in H.
  apply bind_M_Ok in H as ([[d1 m1] f1] & s1 & Hp & H).
  cbv beta iota zeta in H.
  destruct (slice3_full_dims data (around iy0 n2) (around ix0 n3))
    as (D1 & D2 & D3); [lia|].
  destruct (pad_asym_nonneg (nz data) (higher_primes (nz data) - nz data))
    as [W0 W1].
  apply pad_all_padded in Hp as [-> Hpad]; try lia; try assumption;
    [|right; eauto].
  eapply pad_branch_end; [|exact Hpad|exact H]. solve_preserves.
Qed.

Lemma pad_asym_Z_crop_asym_YX_by :
  pad_asym_Z_crop_asym_YX data mask kw qx qz qy frames
  = (s', Ok (d, m, pw, q, fresh)) ->
  s' = frames /\ exists fr, fresh = Some fr /\ padded_by data frames d pw fr.
Proof.
  intros H. unfold pad_asym_Z_crop_asym_YX in H. cbv zeta in H.
  apply bind_M_Ok in H as (n2 & s1 & E2 & H). apply lift_Ok in E2 as [-> _].
  apply bind_M_Ok in H as (n3 & s1 & E3 & H). apply lift_Ok in E3 as [-> _].
  cbv beta iota zeta in H.
  apply bind_M_Ok in H as ([[d1 m1] f1] & s1 & Hp & H).
  cbv beta iota zeta in H.
  destruct (slice3_full_dims data (around (ny data / 2) n2)
              (around (nx data / 2) n3)) as (D1 & D2 & D3); [lia|].
  destruct (pad_asym_nonneg (nz data) (higher_primes (nz data) - nz data))
    as [W0 W1].
  apply pad_all_padded in Hp as [-> Hpad]; try lia; try assumption;
    [|right; eauto].
  eapply pad_branch_end; [|exact Hpad|exact H]. solve_preserves.
Qed.

Lemma pad_sym_Z_by :
  pad_sym_Z data mask kw qx qz qy iz0 frames
  = (s', Ok (d, m, pw, q, fresh)) ->
  s' = frames /\ exists fr, fresh = Some fr /\ padded_by data frames d pw fr.
Proof.
  intros H. unfold pad_sym_Z in H. cbv zeta in H.
  apply bind_M_Ok in H as ([] & s1 & E0 & H). apply lift_Ok in E0 as [-> _].
  apply bind_M_Ok in H as (p & s1 & Ep & H). apply lift_Ok in Ep as [-> Ep].
  apply bind_M_Ok in H as ([[d1 m1] f1] & s1 & Hp & H).
  cbv beta iota zeta in H.
  pose proof (pad_all_zero_pad _ _ _ _ _ _ _ _ _ Hp) as Hzp.
  destruct (pad_sym_nonneg _ _ _ _ _ _ _ Ep Hz Hnz eq_refl
              ltac:(lia) ltac:(lia) Hzp) as [W0 W1].
  apply pad_all_padded in Hp as [-> Hpad]; try lia; try assumption;
    [|left; reflexivity].
  eapply pad_branch_end; [|exact Hpad|exact H]. solve_preserves.
Qed.

Lemma pad_asym_Z_by :
  pad_asym_Z data mask kw qx qz qy frames
  = (s', Ok (d, m, pw, q, fresh)) ->
  s' = frames /\ exists fr, fresh = Some fr /\ padded_by data frames d pw fr.
Proof.
  intros H. unfold pad_asym_Z in H. cbv zeta in H.
  apply bind_M_Ok in H as ([[d1 m1] f1] & s1 & Hp & H).
  cbv beta iota zeta in H.
  destruct (pad_asym_nonneg (nz data) (higher_primes (nz data) - nz data))
    as [W0 W1].
  apply pad_all_padded in Hp as [-> Hpad]; try lia; try assumption;
    [|left; reflexivity].
  eapply pad_branch_end; [|exact Hpad|exact H]. solve_preserves.
Qed.

Lemma pad_sym_ZYX_by :
  pad_sym_ZYX data mask kw qx qz qy iz0 iy0 ix0 frames
  = (s', Ok (d, m, pw, q, fresh)) ->
  s' = frames /\ exists fr, fresh = Some fr /\ padded_by data frames d pw fr.
Proof.
  intros H. unfold pad_sym_ZYX in H. cbv zeta in H.
  apply bind_M_Ok in H as ([] & s1 & E0 & H). apply lift_Ok in E0 as [-> _].
  apply bind_M_Ok in H as (p0 & s1 & E1 & H). apply lift_Ok in E1 as [-> _].
  apply bind_M_Ok in H as (p1 & s1 & E2 & H). apply lift_Ok in E2 as [-> _].
  apply bind_M_Ok in H as (p2 & s1 & E3 & H). apply lift_Ok in E3 as [-> _].
  cbn [map] in H.
  apply bind_M_Ok in H as ([[d1 m1] f1] & s1 & Hp & H).
  cbv beta iota zeta in H.
  apply pad_all_padded in Hp as [-> Hpad]; try lia; try assumption;
    [|left; reflexivity].
  eapply pad_branch_end; [|exact Hpad|exact H]. solve_preserves.
Qed.

Lemma pad_asym_ZYX_by :
  pad_asym_ZYX data mask kw qx qz qy frames
  = (s', Ok (d, m, pw, q, fresh)) ->
  s' = frames /\ exists fr, fresh = Some fr /\ padded_by data frames d pw fr.
Proof.
  intros H. unfold pad_asym_ZYX in H. cbv zeta in H.
  apply bind_M_Ok in H as (ps1 & s1 & E1 & H). apply lift_Ok in E1 as [-> _].
  apply bind_M_Ok in H as ([[d1 m1] f1] & s1 & Hp & H).
  cbv beta iota zeta in H.
  destruct (pad_asym_nonneg (nz data) (higher_primes (nz data) - nz data))
    as [W0 W1].
  destruct (pad_asym_nonneg (ny data) (ps1 - ny data)) as [W2 W3].
  destruct (pad_asym_nonneg (nx data) (higher_primes (nx data) - nx data))
    as [W4 W5].
  apply pad_all_padded in Hp as [-> Hpad]; try lia; try assumption;
    [|left; reflexivity].
  eapply pad_branch_end; [|exact Hpad|exact H]. solve_preserves.
Qed.

End PaddedFrames.

Lemma cropped_to_intro (data : ndarray) (lo hi : Z) (yr xr : Z * Z)
    (frames s' : list Z) :
  Z.of_nat (length frames) = nz data ->
  0 <= lo <= hi -> hi <= nz data ->
  crop_frames data (lo, hi) frames = (s', Ok tt) ->
  cropped_to data frames s' lo hi (slice3 data (lo, hi) yr xr) None.
Proof.
  intros Hlen Hlo Hhi H. rewrite crop_frames_spec in H by assumption.
  injection H as <-. split; [reflexivity|]. split; [exact Hlo|].
  split; [exact Hhi|]. split; [eauto|]. split.
  - apply nz_slice3; assumption.
  - repeat f_equal; lia.
Qed.

Section CroppedFrames.

Variables (data mask : ndarray) (kw : kwargs) (qx qz qy : list Q).
Variables (iz0 iy0 ix0 : Z) (frames s' : list Z) (d m : ndarray).
Variables (pw : list Z) (q : list Q * list Q * list Q).
Variable fresh : option (list Z).
Hypothesis Hlen : Z.of_nat (length frames) = nz data.

Lemma crop_sym_ZYX_to :
  0 <= iz0 < nz data ->
  crop_sym_ZYX data mask kw qx qz qy iz0 iy0 ix0 frames
  = (s', Ok (d, m, pw, q, fresh)) ->
  exists n1,
    smaller_primes (max_box data (iz0, iy0, ix0)).1.1 = Ok n1
    /\ cropped_to data frames s' (iz0 - n1 / 2) (iz0 + n1 / 2) d fresh.
Proof.
  intros Hz H. unfold crop_sym_ZYX in H. cbv beta iota zeta in H.
  apply bind_M_Ok in H as (nz1 & s1 & H1 & H). apply lift_Ok in H1 as [-> H1].
  apply bind_M_Ok in H as (ny1 & s1 & H2 & H). apply lift_Ok in H2 as [-> H2].
  apply bind_M_Ok in H as (nx1 & s1 & H3 & H). apply lift_Ok in H3 as [-> H3].
  cbv beta iota zeta in H.
  apply bind_M_Ok in H as ([] & s1 & Hc & H).
  apply ret_Ok in H as [-> H]. injection H as -> _ _ _ ->.
  exists nz1. split; [exact H1|].
  apply smaller_primes_bounds in H1. unfold max_box in H1.
  cbv beta iota in H1. cbn [fst snd] in H1. unfold around in *.
  apply cropped_to_intro; try assumption;
    Z.to_euclidean_division_equations; lia.
Qed.

Lemma crop_asym_ZYX_to :
  crop_asym_ZYX data mask kw qx qz qy frames
  = (s', Ok (d, m, pw, q, fresh)) ->
  exists n1,
    smaller_primes (nz data) = Ok n1
    /\ cropped_to data frames s' (nz data / 2 - n1 / 2)
         (nz data / 2 + n1 / 2) d fresh.
Proof.
  intros H. unfold crop_asym_ZYX in H. cbv beta iota zeta in H.
  apply bind_M_Ok in H as (nz1 & s1 & H1 & H). apply lift_Ok in H1 as [-> H1].
  apply bind_M_Ok in H as (ny1 & s1 & H2 & H). apply lift_Ok in H2 as [-> H2].
  apply bind_M_Ok in H as (nx1 & s1 & H3 & H). apply lift_Ok in H3 as [-> H3].
  cbv beta iota zeta in H.
  apply bind_M_Ok in H as ([] & s1 & Hc & H).
  exists nz1. split; [exact H1|].
  apply smaller_primes_bounds in H1. unfold around in *.
  assert (Hcr : forall yr xr,
             cropped_to data frames s1 (nz data / 2 - nz1 / 2)
               (nz data / 2 + nz1 / 2)
               (slice3 data (nz data / 2 - nz1 / 2, nz data / 2 + nz1 / 2)
                  yr xr) None)
    by (intros; apply cropped_to_intro; try assumption;
        Z.to_euclidean_division_equations; lia).
  destruct (q_values kw) as [[|? ?]|].
  - apply ret_Ok in H as [-> H]. injection H as -> _ _ _ ->. apply Hcr.
  - apply ret_Ok in H as [-> H]. injection H as -> _ _ _ ->. apply Hcr.
  - apply lift_Ok in H as [_ H]. discriminate.
Qed.

End CroppedFrames.

Lemma center_fft_branch (data mask : ndarray) (det : detector)
    (centering fft_option : string) (kw : kwargs) (frames s' : list Z)
    (qx qz qy : list Q) (iz0 iy0 ix0 : Z) (out : output) :
  resolve_center data det centering kw = Ok ((qx, qz, qy), (iz0, iy0, ix0)) ->
  center_fft data mask det centering fft_option kw frames = (s', Ok out) ->
  exists d m pw q fresh,
    run_policy data mask kw qx qz qy iz0 iy0 ix0
      (if degenerate (max_box data (iz0, iy0, ix0)) then "skip" else fft_option)
      frames = (s', Ok (d, m, pw, q, fresh))
    /\ out_data out = d
    /\ out_pad_width out = pw
    /\ out_frames_logical out = match fresh with Some l => l | None => s' end.
Proof.
  intros Hr H. destruct (center_fft_returns _ _ _ _ _ _ _ _ _ H) as [Hv _].
  rewrite (center_fft_resolved _ _ _ _ _ _ _ _ _ _ _ _ _ Hv Hr) in H.
  destruct (run_policy _ _ _ _ _ _ _ _ _ _ frames) as [s [r|e]];
    [|inversion H].
  destruct r as [[[[d m] pw] [[qx' qz'] qy']] fresh].
  inversion H; subst. exists d, m, pw, (qx', qz', qy'), fresh. auto.
Qed.

(** The claim of C5 as it is written fails under a cropping policy: the
    data keeps 8 of the 12 frames while [frames_logical] keeps its 12
    entries, the last four set to 0. *)
Lemma cropping_keeps_frames_length :
  exists out,
    center_fft volume mask0 det0 "max" "crop_sym_ZYX" (no_q []) frames0
    = (out_frames_logical out, Ok out)
    /\ nz (out_data out) = 8
    /\ out_frames_logical out = [1; 1; 1; 1; 1; 1; 1; 1; 0; 0; 0; 0].
Proof.
  eexists (mk_output _ _ _ _ _). cbn [out_frames_logical out_data].
  split; [vm_compute; reflexivity|]. split; reflexivity.
Qed.

(** C5, amended. When [center_fft] returns, for a [frames_logical] with one
    entry per frame and a centre whose rocking index is not negative.

    Under a policy that crops the first axis (and a box that is not
    degenerate) the data returned is the slice [lo : hi] of the input along
    the rocking axis, with [lo = c - nz1 // 2] and [hi = c + nz1 // 2]
    around the frame [c] of the peak ([crop_sym_ZYX]) or the middle of the
    axis ([crop_asym_ZYX]); the [frames_logical] returned is the caller's
    array, of unchanged length, with 0 at the frames before [lo] and from
    [hi] on and its other entries unchanged.

    Under every other policy the caller's array is left as it is,
    [pad_width] starts with the numbers [before] and [after] of frames
    added at the two ends of the rocking axis, the data returned has
    [before + nz + after] frames, the frame [before + z] of it is the frame
    [z] of the input (cropped along the detector axes by the policies that
    do so), the frames added hold zeros, and the [frames_logical] returned
    has one entry per frame of the data returned: -1 at the frames added,
    the entries of the input between them. *)
Theorem frames_logical_after_center_fft (data mask : ndarray) (det : detector)
    (centering fft_option : string) (kw : kwargs) (frames s' : list Z)
    (out : output) (qs : list Q * list Q * list Q) (iz0 iy0 ix0 : Z) :
  Z.of_nat (length frames) = nz data ->
  resolve_center data det centering kw = Ok (qs, (iz0, iy0, ix0)) ->
  0 <= iz0 ->
  center_fft data mask det centering fft_option kw frames = (s', Ok out) ->
  if crops_first_axis fft_option
     && negb (degenerate (max_box data (iz0, iy0, ix0)))
  then
    exists (n1 c lo hi : Z) (yr xr : Z * Z),
      (fft_option = "crop_sym_ZYX" /\ c = iz0
       /\ smaller_primes (max_box data (iz0, iy0, ix0)).1.1 = Ok n1
       \/ fft_option = "crop_asym_ZYX" /\ c = nz data / 2
          /\ smaller_primes (nz data) = Ok n1) /\
      lo = c - n1 / 2 /\ hi = c + n1 / 2 /\
      0 <= lo <= hi /\ hi <= nz data /\
      out_data out = slice3 data (lo, hi) yr xr /\
      nz (out_data out) = hi - lo /\
      out_frames_logical out = s' /\
      length s' = length frames /\
      s' = replicate (Z.to_nat lo) 0
             ++ take (Z.to_nat (hi - lo)) (drop (Z.to_nat lo) frames)
             ++ replicate (Z.to_nat (nz data - hi)) 0
  else
    s' = frames /\
    exists (before after p2 p3 p4 p5 : Z) (d0 : ndarray),
      out_pad_width out = [before; after; p2; p3; p4; p5] /\
      0 <= before /\ 0 <= after /\
      nz (out_data out) = before + nz data + after /\
      Z.of_nat (length (out_frames_logical out)) = nz (out_data out) /\
      out_frames_logical out
      = replicate (Z.to_nat before) (-1) ++ frames
          ++ replicate (Z.to_nat after) (-1) /\
      (d0 = data \/ exists yr xr, d0 = slice3 data (full (nz data)) yr xr) /\
      (forall z y x,
         0 <= z < nz data -> 0 <= y < ny d0 -> 0 <= x < nx d0 ->
         item (out_data out) (before + z) (p2 + y) (p4 + x) = item d0 z y x) /\
      (forall z y x,
         0 <= z < before \/ before + nz data <= z < nz (out_data out) ->
         0 <= y < ny (out_data out) -> 0 <= x < nx (out_data out) ->
         item (out_data out) z y x = 0%Q).
Proof.
  intros Hlen Hr Hz H. destruct qs as [[qx qz] qy].
  pose proof (resolve_center_first_axis _ _ _ _ _ _ _ _ Hr Hz) as Hlt.
  destruct (resolve_center_dims _ _ _ _ _ _ Hr) as (_ & Hny & Hnx).
  destruct (center_fft_branch _ _ _ _ _ _ _ _ _ _ _ _ _ _ _ Hr H)
    as (d & m & pw & q & fresh & Hp & Hod & Hopw & Hfr). clear H.
  assert (Hskip : s' = frames -> out_data out = data ->
            out_pad_width out = no_padding -> out_frames_logical out = frames ->
            s' = frames /\
            exists (before after p2 p3 p4 p5 : Z) (d0 : ndarray),
              out_pad_width out = [before; after; p2; p3; p4; p5] /\
              0 <= before /\ 0 <= after /\
              nz (out_data out) = before + nz data + after /\
              Z.of_nat (length (out_frames_logical out)) = nz (out_data out) /\
              out_frames_logical out
              = replicate (Z.to_nat before) (-1) ++ frames
                  ++ replicate (Z.to_nat after) (-1) /\
              (d0 = data
               \/ exists yr xr, d0 = slice3 data (full (nz data)) yr xr) /\
              (forall z y x,
                 0 <= z < nz data -> 0 <= y < ny d0 -> 0 <= x < nx d0 ->
                 item (out_data out) (before + z) (p2 + y) (p4 + x)
                 = item d0 z y x) /\
              (forall z y x,
                 0 <= z < before
                 \/ before + nz data <= z < nz (out_data out) ->
                 0 <= y < ny (out_data out) -> 0 <= x < nx (out_data out) ->
                 item (out_data out) z y x = 0%Q)).
  { intros -> Ed Ew Ef. split; [reflexivity|].
    exists 0, 0, 0, 0, 0, 0, data. rewrite Ed, Ew, Ef.
    split; [reflexivity|]. split; [lia|]. split; [lia|]. split; [lia|].
    split; [exact Hlen|]. split; [cbn; now rewrite app_nil_r|].
    split; [left; reflexivity|]. split.
    - intros z y x _ _ _. reflexivity.
    - intros z y x Rz. lia. }
  destruct (degenerate (max_box data (iz0, iy0, ix0))) eqn:Hd.
  - rewrite andb_false_r. rewrite run_policy_skip in Hp.
    injection Hp as E1 E2 _ E3 _ E4. subst s' fresh.
    apply Hskip; [reflexivity|congruence|congruence|exact Hfr].
  - rewrite andb_true_r. subst d pw.
    assert (Hnz : 1 < nz data).
    { unfold degenerate, max_box in Hd.
      rewrite !orb_false_iff, !Z.eqb_neq in Hd. lia. }
    assert (Hpad : s' = frames /\
                   (exists fr, fresh = Some fr
                               /\ padded_by data frames (out_data out)
                                    (out_pad_width out) fr) ->
              s' = frames /\
              exists (before after p2 p3 p4 p5 : Z) (d0 : ndarray),
                out_pad_width out = [before; after; p2; p3; p4; p5] /\
                0 <= before /\ 0 <= after /\
                nz (out_data out) = before + nz data + after /\
                Z.of_nat (length (out_frames_logical out))
                = nz (out_data out) /\
                out_frames_logical out
                = replicate (Z.to_nat before) (-1) ++ frames
                    ++ replicate (Z.to_nat after) (-1) /\
                (d0 = data
                 \/ exists yr xr, d0 = slice3 data (full (nz data)) yr xr) /\
                (forall z y x,
                   0 <= z < nz data -> 0 <= y < ny d0 -> 0 <= x < nx d0 ->
                   item (out_data out) (before + z) (p2 + y) (p4 + x)
                   = item d0 z y x) /\
                (forall z y x,
                   0 <= z < before
                   \/ before + nz data <= z < nz (out_data out) ->
                   0 <= y < ny (out_data out) -> 0 <= x < nx (out_data out) ->
                   item (out_data out) z y x = 0%Q)).
    { intros (-> & fr & -> & Hby).
      destruct Hby as (b & a & p2 & p3 & p4 & p5 & d0 & Ew & Hb & Ha & En
                       & Ef & Ed0 & Hin & Hout).
      split; [reflexivity|]. exists b, a, p2, p3, p4, p5, d0.
      rewrite Hfr, Ef.
      split; [exact Ew|]. split; [exact Hb|]. split; [exact Ha|].
      split; [exact En|]. split.
      { rewrite !length_app, !length_replicate. lia. }
      split; [reflexivity|]. split; [exact Ed0|]. split; [exact Hin|].
      exact Hout. }
    assert (Hcrop : forall c n1,
              fft_option = "crop_sym_ZYX" /\ c = iz0
                /\ smaller_primes (max_box data (iz0, iy0, ix0)).1.1 = Ok n1
              \/ fft_option = "crop_asym_ZYX" /\ c = nz data / 2
                 /\ smaller_primes (nz data) = Ok n1 ->
              cropped_to data frames s' (c - n1 / 2) (c + n1 / 2)
                (out_data out) fresh ->
              exists (n1 c lo hi : Z) (yr xr : Z * Z),
                (fft_option = "crop_sym_ZYX" /\ c = iz0
                 /\ smaller_primes (max_box data (iz0, iy0, ix0)).1.1 = Ok n1
                 \/ fft_option = "crop_asym_ZYX" /\ c = nz data / 2
                    /\ smaller_primes (nz data) = Ok n1) /\
                lo = c - n1 / 2 /\ hi = c + n1 / 2 /\
                0 <= lo <= hi /\ hi <= nz data /\
                out_data out = slice3 data (lo, hi) yr xr /\
                nz (out_data out) = hi - lo /\
                out_frames_logical out = s' /\
                length s' = length frames /\
                s' = replicate (Z.to_nat lo) 0
                       ++ take (Z.to_nat (hi - lo)) (drop (Z.to_nat lo) frames)
                       ++ replicate (Z.to_nat (nz data - hi)) 0).
    { intros c n1 Hwhich (-> & Hlo & Hhi & (yr & xr & Ed) & En & Es).
      exists n1, c, (c - n1 / 2), (c + n1 / 2), yr, xr.
      split; [exact Hwhich|]. split; [reflexivity|]. split; [reflexivity|].
      split; [exact Hlo|]. split; [exact Hhi|]. split; [exact Ed|].
      split; [exact En|]. split; [exact Hfr|]. split; [|exact Es].
      rewrite Es at 1.
      rewrite !length_app, !length_replicate, length_take, length_drop.
      lia. }
    unfold run_policy in Hp. unfold crops_first_axis.
    repeat case_bool_decide; try subst fft_option; cbn [orb];
      try discriminate.
    + destruct (crop_sym_ZYX_to _ _ _ _ _ _ _ _ _ _ _ _ _ _ _ _ Hlen
                  (conj Hz Hlt) Hp) as (n1 & E1 & Hc).
      apply (Hcrop iz0 n1); [left; auto | exact Hc].
    + destruct (crop_asym_ZYX_to _ _ _ _ _ _ _ _ _ _ _ _ _ Hlen Hp)
        as (n1 & E1 & Hc).
      apply (Hcrop (nz data / 2) n1); [right; auto | exact Hc].
    + apply Hpad. eapply pad_sym_Z_crop_sym_YX_by; eauto.
    + apply Hpad. eapply pad_sym_Z_crop_asym_YX_by; eauto.
    + apply Hpad. eapply pad_asym_Z_crop_sym_YX_by; eauto.
    + apply Hpad. eapply pad_asym_Z_crop_asym_YX_by; eauto.
    + apply Hpad. eapply pad_sym_Z_by; eauto.
    + apply Hpad. eapply pad_asym_Z_by; eauto.
    + apply Hpad. eapply pad_sym_ZYX_by; eauto.
    + apply Hpad. eapply pad_asym_ZYX_by; eauto.
    + unfold skip, ret in Hp. injection Hp as E1 E2 _ E3 _ E4.
      subst s' fresh.
      apply Hskip; [reflexivity|congruence|congruence|exact Hfr].
Qed.

Lemma frames_logical_after_center_fft_witness :
  exists s' out,
    center_fft volume13 mask13 det0 "max" "pad_asym_Z" (no_q []) frames13
    = (s', Ok out)
    /\ s' = frames13
    /\ exists (before after p2 p3 p4 p5 : Z) (d0 : ndarray),
         out_pad_width out = [before; after; p2; p3; p4; p5] /\
         0 <= before /\ 0 <= after /\
         nz (out_data out) = before + nz volume13 + after /\
         Z.of_nat (length (out_frames_logical out)) = nz (out_data out) /\
         out_frames_logical out
         = replicate (Z.to_nat before) (-1) ++ frames13
             ++ replicate (Z.to_nat after) (-1) /\
         (d0 = volume13
          \/ exists yr xr, d0 = slice3 volume13 (full (nz volume13)) yr xr) /\
         (forall z y x,
            0 <= z < nz volume13 -> 0 <= y < ny d0 -> 0 <= x < nx d0 ->
            item (out_data out) (before + z) (p2 + y) (p4 + x)
            = item d0 z y x) /\
         (forall z y x,
            0 <= z < before \/ before + nz volume13 <= z < nz (out_data out) ->
            0 <= y < ny (out_data out) -> 0 <= x < nx (out_data out) ->
            item (out_data out) z y x = 0%Q).
Proof.
  assert (Hex : exists s' out,
             center_fft volume13 mask13 det0 "max" "pad_asym_Z" (no_q [])
               frames13 = (s', Ok out))
    by (eexists _, _; vm_compute; reflexivity).
  destruct Hex as (s' & out & H). exists s', out. split; [exact H|].
  exact (frames_logical_after_center_fft volume13 mask13 det0 "max"
           "pad_asym_Z" (no_q []) frames13 s' out ([], [], []) 4 4 4
           eq_refl eq_refl ltac:(lia) H).
Defined.

(** ** [center_fft]: the entry of ['pad_size'] that [pad_asym_ZYX] reads *)

Lemma getitem_short {A} (l : list A) (i : Z) :
  0 <= i -> Z.of_nat (length l) <= i -> getitem l i = Raise IndexError.
Proof.
  intros Hi Hl. unfold getitem.
  destruct (Z.ltb_spec i 0); [lia|].
  destruct (Z.ltb_spec i (Z.of_nat (length l))); [lia|].
  now rewrite andb_false_r.
Qed.

Lemma getitem_long {A} (l : list A) (i : nat) :
  (i < length l)%nat -> exists a, getitem l (Z.of_nat i) = Ok a.
Proof.
  intros Hi. destruct (lookup_lt_is_Some_2 l i Hi) as [a Ha].
  exists a. apply lookup_getitem. exact Ha.
Qed.

(** [pad_asym_ZYX] once the second entry of ['pad_size'] is read, without q
    values. *)
Lemma pad_asym_ZYX_run (data mask : ndarray) (kw : kwargs) (qx qz qy : list Q)
    (frames : list Z) (ps1 : Z) :
  0 <= nz data -> 0 <= ny data -> 0 <= nx data ->
  shape data = shape mask ->
  q_values kw = None ->
  Z.of_nat (length frames) = nz data ->
  getitem (pad_size kw) 1 = Ok ps1 ->
  let pz := pad_asym (higher_primes (nz data)) (nz data)
              (higher_primes (nz data) - nz data) in
  let py := pad_asym (higher_primes (ny data)) (ny data) (ps1 - ny data) in
  let px := pad_asym (higher_primes (nx data)) (nx data)
              (higher_primes (nx data) - nx data) in
  exists d' m',
    zero_pad data [pz.1; pz.2; py.1; py.2; px.1; px.2] false = Ok d'
    /\ pad_asym_ZYX data mask kw qx qz qy frames
       = (frames,
          Ok (d', m', [pz.1; pz.2; py.1; py.2; px.1; px.2], (qx, qz, qy),
              Some (replicate (Z.to_nat pz.1) (-1) ++ frames
                      ++ replicate (Z.to_nat pz.2) (-1)))).
Proof.
  intros Hz Hy Hx Hs Hq Hlen Hps pz py px.
  destruct (pad_asym_nonneg (nz data) (higher_primes (nz data) - nz data))
    as [W0 W1].
  destruct (pad_asym_nonneg (ny data) (ps1 - ny data)) as [W2 W3].
  destruct (pad_asym_nonneg (nx data) (higher_primes (nx data) - nx data))
    as [W4 W5].
  fold pz in W0, W1. fold py in W2, W3. fold px in W4, W5.
  destruct (pad_all_run data data mask pz.1 pz.2 py.1 py.2 px.1 px.2 frames)
    as (d' & m' & Hd' & Hm' & Hrun); try lia; try assumption.
  exists d', m'. split; [exact Hd'|].
  unfold pad_asym_ZYX. cbv zeta. rewrite Hps.
  unfold mbind at 1, M_bind at 1, lift at 1. fold pz. fold py. fold px.
  unfold mbind at 1, M_bind at 1. rewrite Hrun. rewrite Hq.
  reflexivity.
Qed.

(** The centre depends on the keyword arguments through ['fix_bragg'] and
    ['q_values'] alone. *)
Lemma resolve_center_kwargs (data : ndarray) (det : detector)
    (centering : string) (kw kw' : kwargs) :
  fix_bragg kw' = fix_bragg kw -> q_values kw' = q_values kw ->
  resolve_center data det centering kw' = resolve_center data det centering kw.
Proof. unfold resolve_center. intros -> ->. reflexivity. Qed.

Lemma pad_asym_ZYX_kwargs (data mask : ndarray) (kw kw' : kwargs)
    (qx qz qy : list Q) :
  q_values kw' = q_values kw ->
  getitem (pad_size kw') 1 = getitem (pad_size kw) 1 ->
  pad_asym_ZYX data mask kw' qx qz qy = pad_asym_ZYX data mask kw qx qz qy.
Proof. unfold pad_asym_ZYX. intros -> ->. reflexivity. Qed.

(** The claim of C10 as it is written fails on two counts.  A ['pad_size']
    of two entries is enough for [pad_asym_ZYX]: 13 frames are padded to 14.
    And without a ['pad_size'] the call returns when the box is degenerate,
    here for a peak in the first frame: the branch is not reached. *)
Lemma pad_asym_ZYX_accepts_two_entries :
  (exists out,
     center_fft volume13 mask13 det0 "max" "pad_asym_ZYX" (no_q [16; 9])
       frames13 = (frames13, Ok out)
     /\ shape (out_data out) = (14, 8, 8)
     /\ out_pad_width out = [1; 0; 0; 0; 0; 0])
  /\ center_fft volume_border mask0 det0 "max" "pad_asym_ZYX" (no_q [])
       frames0
     = (frames0,
        Ok (mk_output volume_border mask0 [0; 0; 0; 0; 0; 0] None frames0)).
Proof.
  split.
  - eexists (mk_output _ _ _ _ _). cbn [out_data out_pad_width].
    split; [vm_compute; reflexivity|]. split; reflexivity.
  - vm_compute; reflexivity.
Qed.

(** C10, amended. When the arrays are checked, the centre is resolved and
    the box is not degenerate, [fft_option = "pad_asym_ZYX"] reads one entry
    of ['pad_size'], the second one.  With fewer than two entries, and so
    without a ['pad_size'], the call raises [IndexError] and leaves the
    caller's [frames_logical] as it is.  With a second entry [ps1], whatever
    the number of entries, no q values and a [frames_logical] as long as
    the rocking axis, the call returns: the sizes padded to are those that
    [util.higher_primes] gives for the sizes of the input, and [ps1] enters
    the third entry of [pad_width] through the parity of [ps1 - nby].  And
    two calls whose keyword arguments differ in ['pad_size'] alone, with
    the same [pad_size[1]], do the same. *)
Theorem pad_asym_ZYX_reads_second_entry (data mask : ndarray) (det : detector)
    (centering : string) (kw : kwargs) (frames : list Z)
    (qs : list Q * list Q * list Q) (c : Z * Z * Z) :
  valid_ndarray data mask = Ok tt ->
  resolve_center data det centering kw = Ok (qs, c) ->
  degenerate (max_box data c) = false ->
  ((length (pad_size kw) < 2)%nat ->
   center_fft data mask det centering "pad_asym_ZYX" kw frames
   = (frames, Raise IndexError))
  /\ ((2 <= length (pad_size kw))%nat ->
      q_values kw = None ->
      Z.of_nat (length frames) = nz data ->
      exists out ps1,
        pad_size kw !! 1%nat = Some ps1
        /\ center_fft data mask det centering "pad_asym_ZYX" kw frames
           = (frames, Ok out)
        /\ out_pad_width out
           = [(pad_asym (higher_primes (nz data)) (nz data)
                 (higher_primes (nz data) - nz data)).1;
              (pad_asym (higher_primes (nz data)) (nz data)
                 (higher_primes (nz data) - nz data)).2;
              (pad_asym (higher_primes (ny data)) (ny data)
                 (ps1 - ny data)).1;
              (pad_asym (higher_primes (ny data)) (ny data)
                 (ps1 - ny data)).2;
              (pad_asym (higher_primes (nx data)) (nx data)
                 (higher_primes (nx data) - nx data)).1;
              (pad_asym (higher_primes (nx data)) (nx data)
                 (higher_primes (nx data) - nx data)).2])
  /\ (forall kw' : kwargs,
        fix_bragg kw' = fix_bragg kw -> q_values kw' = q_values kw ->
        getitem (pad_size kw') 1 = getitem (pad_size kw) 1 ->
        center_fft data mask det centering "pad_asym_ZYX" kw' frames
        = center_fft data mask det centering "pad_asym_ZYX" kw frames).
Proof.
  intros Hv Hr Hd. destruct qs as [[qx qz] qy], c as [[iz0 iy0] ix0].
  destruct (resolve_center_dims _ _ _ _ _ _ Hr) as (Hz & Hy & Hx).
  assert (Hother : forall kw' : kwargs,
            fix_bragg kw' = fix_bragg kw -> q_values kw' = q_values kw ->
            getitem (pad_size kw') 1 = getitem (pad_size kw) 1 ->
            center_fft data mask det centering "pad_asym_ZYX" kw' frames
            = center_fft data mask det centering "pad_asym_ZYX" kw frames).
  { intros kw' Hfb Hqv Hps.
    pose proof (resolve_center_kwargs data det centering kw kw' Hfb Hqv)
      as Hr'.
    rewrite Hr in Hr'.
    rewrite (center_fft_resolved _ _ _ _ _ _ _ _ _ _ _ _ _ Hv Hr), Hd.
    rewrite (center_fft_resolved _ _ _ _ _ _ _ _ _ _ _ _ _ Hv Hr'), Hd.
    change (run_policy data mask kw qx qz qy iz0 iy0 ix0 "pad_asym_ZYX")
      with (pad_asym_ZYX data mask kw qx qz qy).
    change (run_policy data mask kw' qx qz qy iz0 iy0 ix0 "pad_asym_ZYX")
      with (pad_asym_ZYX data mask kw' qx qz qy).
    rewrite (pad_asym_ZYX_kwargs data mask kw kw' qx qz qy Hqv Hps), Hqv.
    reflexivity. }
  split; [|split; [|exact Hother]];
    rewrite (center_fft_resolved _ _ _ _ _ _ _ _ _ _ _ _ _ Hv Hr), Hd;
    change (run_policy data mask kw qx qz qy iz0 iy0 ix0 "pad_asym_ZYX")
      with (pad_asym_ZYX data mask kw qx qz qy).
  - intros Hl. unfold pad_asym_ZYX. rewrite getitem_short by lia.
    reflexivity.
  - intros Hl Hq Hlen.
    destruct (getitem_long (pad_size kw) 1 Hl) as [ps1 Hps].
    pose proof (getitem_lookup _ _ _ Hps) as Hlook.
    change (Z.of_nat 1) with 1 in Hps.
    destruct (pad_asym_ZYX_run data mask kw qx qz qy frames ps1)
      as (d' & m' & Hd' & Hrun); try lia; try assumption.
    { apply valid_ndarray_Ok, Hv. }
    rewrite Hrun. eexists _, ps1. split; [exact Hlook|].
    split; reflexivity.
Qed.

Lemma pad_asym_ZYX_reads_second_entry_witness :
  center_fft volume mask0 det0 "max" "pad_asym_ZYX" (no_q []) frames0
  = (frames0, Raise IndexError)
  /\ exists out ps1,
       [16; 9] !! 1%nat = Some ps1
       /\ center_fft volume13 mask13 det0 "max" "pad_asym_ZYX" (no_q [16; 9])
            frames13 = (frames13, Ok out)
       /\ out_pad_width out
          = [(pad_asym (higher_primes 13) 13 (higher_primes 13 - 13)).1;
             (pad_asym (higher_primes 13) 13 (higher_primes 13 - 13)).2;
             (pad_asym (higher_primes 8) 8 (ps1 - 8)).1;
             (pad_asym (higher_primes 8) 8 (ps1 - 8)).2;
             (pad_asym (higher_primes 8) 8 (higher_primes 8 - 8)).1;
             (pad_asym (higher_primes 8) 8 (higher_primes 8 - 8)).2].
Proof.
  split.
  - refine (proj1 (pad_asym_ZYX_reads_second_entry volume mask0 det0 "max"
                     (no_q []) frames0 ([], [], []) (4, 4, 4) _ _ _) _).
    + vm_compute; reflexivity.
    + vm_compute; reflexivity.
    + vm_compute; reflexivity.
    + cbn; lia.
  - refine (proj1 (proj2 (pad_asym_ZYX_reads_second_entry volume13 mask13
                            det0 "max" (no_q [16; 9]) frames13 ([], [], [])
                            (4, 4, 4) _ _ _)) _ _ _).
    + vm_compute; reflexivity.
    + vm_compute; reflexivity.
    + vm_compute; reflexivity.
    + cbn; lia.
    + reflexivity.
    + reflexivity.
Defined.

(** ** The masks of the two regridders *)

Lemma where_set_Ok_length {A} (sel : list bool) (a r : list A) (v : A) :
  where_set sel a v = Ok r -> length sel = length a.
Proof.
  unfold where_set. destruct (Nat.eqb (length sel) (length a)) eqn:E;
    [|discriminate].
  intros _. apply Nat.eqb_eq, E.
Qed.

Lemma labframe_passes_length (D M : list pyfloat)
    (r : list pyfloat * list Z) :
  labframe_passes D M = Ok r -> length D = length M.
Proof.
  unfold labframe_passes, fold_nan. intros H.
  apply bind_Ok in H as (x & H & _). apply bind_Ok in H as (m & H & _).
  apply where_set_Ok_length in H. rewrite length_map in H. exact H.
Qed.

Lemma xrayutil_length (D M : list pyfloat) (r : list pyfloat * list Z) :
  grid_bcdi_xrayutil D M = Ok r -> length D = length M.
Proof.
  unfold grid_bcdi_xrayutil, fold_nan. intros H.
  apply bind_Ok in H as (x & H & _). apply bind_Ok in H as (m & H & _).
  apply where_set_Ok_length in H. rewrite length_map in H. exact H.
Qed.

Lemma int_trunc_zero (q : Q) : Qeq_bool q 0 = true -> int_trunc q = 0.
Proof.
  intros H. apply Qeq_bool_iff in H. unfold Qeq in H. cbn in H.
  unfold int_trunc. replace (Qnum q) with 0 by lia. reflexivity.
Qed.

Lemma lab_mask_binary (d m : pyfloat) : lab_mask d m = 0 \/ lab_mask d m = 1.
Proof.
  unfold lab_mask.
  destruct d as [qd| | |], m as [qm| | |]; cbn; auto;
    destruct (Qeq_bool qm 0) eqn:E; cbn; auto;
    left; apply int_trunc_zero, E.
Qed.

(** X18.  The mask that [grid_bcdi_labframe] returns holds only 0 and 1, and
    a voxel whose interpolated data is finite and whose interpolated mask is
    zero is left as it is: its data is kept and its flag is 0. *)
Theorem labframe_mask_is_binary (D M d : list pyfloat) (m : list Z) :
  labframe_passes D M = Ok (d, m) ->
  (forall i flag, m !! i = Some flag -> flag = 0 \/ flag = 1)
  /\ (forall i q w,
        D !! i = Some (Fin q) -> M !! i = Some (Fin w) ->
        Qeq_bool w 0 = true ->
        m !! i = Some 0 /\ d !! i = Some (Fin q)).
Proof.
  intros H. pose proof (labframe_passes_length _ _ _ H) as Hlen.
  rewrite (labframe_passes_voxels D M Hlen) in H. inversion H; subst d m.
  split.
  - intros i flag Hi. rewrite lookup_zip_with in Hi.
    destruct (D !! i) as [x|]; [|discriminate].
    destruct (M !! i) as [y|]; [|discriminate].
    cbn in Hi. inversion Hi. apply lab_mask_binary.
  - intros i q w HD HM Hw. rewrite !lookup_zip_with, HD, HM. cbn.
    unfold lab_mask, masked_data. cbn. rewrite Hw. cbn.
    rewrite (int_trunc_zero w Hw). cbn. auto.
Qed.

Lemma labframe_mask_is_binary_witness :
  (forall i flag,
     [1; 0; 1; 1] !! i = Some flag -> flag = 0 \/ flag = 1)
  /\ (forall i q w,
        [Fin 3; Fin 7; NaN; Fin 2] !! i = Some (Fin q) ->
        [Fin (1 # 2); Fin 0; Fin 0; PInf] !! i = Some (Fin w) ->
        Qeq_bool w 0 = true ->
        [1; 0; 1; 1] !! i = Some 0
        /\ [Fin 0; Fin 7; Fin 0; Fin 0] !! i = Some (Fin q)).
Proof.
  apply (labframe_mask_is_binary [Fin 3; Fin 7; NaN; Fin 2]
           [Fin (1 # 2); Fin 0; Fin 0; PInf]).
  reflexivity.
Defined.

Lemma int_trunc_fraction (w : Q) : (0 < w)%Q -> (w < 1)%Q -> int_trunc w = 0.
Proof.
  unfold Qlt, int_trunc. cbn. intros H0 H1. apply Z.quot_small. lia.
Qed.

(** X19.  A voxel whose interpolated data is finite and whose interpolated
    mask lies strictly between 0 and 1 is treated differently by the two
    regridders: [grid_bcdi_labframe] flags it and zeroes its data,
    [grid_bcdi_xrayutil], which converts the mask to integers without
    setting its non-zero entries to 1 first, leaves it unflagged with its
    data. *)
Theorem fractional_mask_regridders (D M : list pyfloat) (i : nat) (q w : Q) :
  length D = length M ->
  D !! i = Some (Fin q) -> M !! i = Some (Fin w) ->
  (0 < w)%Q -> (w < 1)%Q ->
  (exists d m, labframe_passes D M = Ok (d, m)
               /\ m !! i = Some 1 /\ d !! i = Some (Fin 0))
  /\ (exists d m, grid_bcdi_xrayutil D M = Ok (d, m)
                  /\ m !! i = Some 0 /\ d !! i = Some (Fin q)).
Proof.
  intros Hlen HD HM H0 H1.
  assert (Hnz : Qeq_bool w 0 = false).
  { destruct (Qeq_bool w 0) eqn:E; [|reflexivity].
    apply Qeq_bool_iff in E. rewrite E in H0. discriminate. }
  split.
  - rewrite (labframe_passes_voxels D M Hlen). eexists _, _.
    split; [reflexivity|]. rewrite !lookup_zip_with, HD, HM. cbn.
    unfold lab_mask, masked_data. cbn. rewrite Hnz. cbn. auto.
  - rewrite (xrayutil_passes_voxels D M Hlen). eexists _, _.
    split; [reflexivity|]. rewrite !lookup_zip_with, HD, HM. cbn.
    unfold xrayutil_mask, masked_data. cbn.
    rewrite (int_trunc_fraction w H0 H1). cbn. auto.
Qed.

Lemma fractional_mask_regridders_witness :
  (exists d m, labframe_passes [Fin 3; Fin 7] [Fin 0; Fin (1 # 2)] = Ok (d, m)
               /\ m !! 1%nat = Some 1 /\ d !! 1%nat = Some (Fin 0))
  /\ (exists d m,
        grid_bcdi_xrayutil [Fin 3; Fin 7] [Fin 0; Fin (1 # 2)] = Ok (d, m)
        /\ m !! 1%nat = Some 0 /\ d !! 1%nat = Some (Fin 7)).
Proof.
  apply (fractional_mask_regridders [Fin 3; Fin 7] [Fin 0; Fin (1 # 2)]
           1 7 (1 # 2)); reflexivity.
Defined.

(** ** [reload_bcdi_data] *)

Import Loading.

Lemma mask_below_voxels (t : Q) (data mask : ndarray) :
  shape data = shape mask -> length (buf data) = length (buf mask) ->
  mask_below t data mask
  = Ok (with_buf data
          (zip_with (fun v x => if negb (Qle_bool t v) then 0%Q else x)
             (buf data) (buf data)),
        with_buf mask
          (zip_with (fun v x => if negb (Qle_bool t v) then 1%Q else x)
             (buf data) (buf mask))).
Proof.
  intros Hs Hl. unfold mask_below, below.
  rewrite (bool_decide_eq_true_2 _ Hs).
  rewrite !where_set_map by auto. reflexivity.
Qed.

Lemma not_Qle_bool (a b : Q) : (a < b)%Q -> Qle_bool b a = false.
Proof.
  intros H. destruct (Qle_bool b a) eqn:E; [|reflexivity].
  apply Qle_bool_iff in E. exfalso. exact (Qlt_not_le _ _ H E).
Qed.

Lemma Qle_bool_true (a b : Q) : (a <= b)%Q -> Qle_bool a b = true.
Proof. apply Qle_bool_iff. Qed.

(** X20.  [reload_bcdi_data] when the normalization is skipped, the region
    of interest is not larger than the detector plane of the data and the
    detector plane is not binned.  It returns arrays of the shapes it was
    given, a [frames_logical] and a monitor of ones unless a frames pattern
    is given, and it leaves the detector as it is.  A voxel whose value is
    negative or below the photon threshold comes back zeroed and flagged 1
    in the mask; any other voxel keeps its value and its flag. *)
Theorem reload_masks_weak_voxels
    (read_monitor : result (list Q))
    (normalize_dataset : ndarray -> list Q -> result (ndarray * list Q))
    (crop_pad : ndarray -> Q -> Z * Z -> Z * Z * Z -> result ndarray)
    (bin_data : ndarray -> Z * Z * Z -> result ndarray)
    (data mask : ndarray) (det : Detector) (frames_pattern : option (list Z))
    (photon_threshold : Q) (r0 r1 r2 r3 b0 : Z) :
  shape data = shape mask -> length (buf data) = length (buf mask) ->
  Loading.roi det = [r0; r1; r2; r3] -> r1 - r0 <= ny data ->
  r3 - r2 <= nx data ->
  Loading.binning det = [b0; 1; 1] ->
  (0 <= photon_threshold)%Q ->
  exists d m,
    reload_bcdi_data read_monitor normalize_dataset crop_pad bin_data
      data mask det (PyStr "skip") frames_pattern photon_threshold
    = Ok (d, m,
          match frames_pattern with
          | Some f => f
          | None => replicate (Z.to_nat (nz data)) 1
          end,
          replicate (Z.to_nat (nz data)) 1%Q, det)
    /\ shape d = shape data /\ shape m = shape mask
    /\ forall i v w,
         buf data !! i = Some v -> buf mask !! i = Some w ->
         ((v < 0 \/ v < photon_threshold)%Q ->
          buf d !! i = Some 0%Q /\ buf m !! i = Some 1%Q)
         /\ ((photon_threshold <= v)%Q ->
             buf d !! i = Some v /\ buf m !! i = Some w).
Proof.
  intros Hs Hl Hroi Hy Hx Hbin Ht. unfold reload_bcdi_data.
  unfold valid_ndarray. rewrite (bool_decide_eq_true_2 _ Hs).
  cbn [mbind result_bind]. unfold shape at 1.
  rewrite (mask_below_voxels 0 data mask Hs Hl). cbn [mbind result_bind].
  change (eq_str (PyStr "skip") "skip") with true. cbv iota.
  cbn [mbind result_bind]. rewrite Hroi, Hbin.
  change (getitem [r0; r1; r2; r3] 0) with (Ok r0).
  change (getitem [r0; r1; r2; r3] 1) with (Ok r1).
  change (getitem [r0; r1; r2; r3] 2) with (Ok r2).
  change (getitem [r0; r1; r2; r3] 3) with (Ok r3).
  change (getitem [b0; 1; 1] 1) with (Ok 1).
  change (getitem [b0; 1; 1] 2) with (Ok 1).
  cbn [mbind result_bind].
  destruct (ny data <? r1 - r0) eqn:E1; [lia|]. cbn [mbind result_bind].
  destruct (nx data <? r3 - r2) eqn:E2; [lia|]. cbn [mbind result_bind].
  set (d1 := with_buf data _). set (m1 := with_buf mask _).
  assert (Hs1 : shape d1 = shape m1) by exact Hs.
  assert (Hl1 : length (buf d1) = length (buf m1)).
  { unfold d1, m1. cbn [buf with_buf]. rewrite !length_zip_with. lia. }
  destruct (Qeq_bool photon_threshold 0) eqn:E0; cbn [negb mbind result_bind].
  - (* no threshold *)
    exists d1, m1. split; [reflexivity|]. split; [reflexivity|].
    split; [reflexivity|].
    intros i v w Hv Hw. unfold d1, m1. cbn [buf with_buf].
    rewrite !lookup_zip_with, Hv, Hw. cbn.
    apply Qeq_bool_iff in E0. split.
    + intros Hweak. assert (Hneg : (v < 0)%Q).
      { destruct Hweak as [H|H]; [exact H|]. rewrite E0 in H. exact H. }
      rewrite (not_Qle_bool _ _ Hneg). cbn. auto.
    + intros Hge. rewrite E0 in Hge. rewrite (Qle_bool_true _ _ Hge). cbn.
      auto.
  - (* a threshold *)
    rewrite (mask_below_voxels photon_threshold d1 m1 Hs1 Hl1).
    cbn [mbind result_bind].
    eexists _, _. split; [reflexivity|]. split; [reflexivity|].
    split; [reflexivity|].
    intros i v w Hv Hw. unfold d1, m1. cbn [buf with_buf].
    rewrite !lookup_zip_with, Hv, Hw. cbn.
    assert (Hpos : (0 < photon_threshold)%Q).
    { apply Qle_lt_or_eq in Ht as [H|H]; [exact H|].
      symmetry in H. apply Qeq_bool_iff in H. congruence. }
    split.
    + intros Hweak. destruct (Qle_bool 0 v) eqn:Ev; cbn.
      * assert (Hlt : (v < photon_threshold)%Q).
        { destruct Hweak as [H|H]; [|exact H].
          apply Qle_bool_iff in Ev. exfalso. exact (Qlt_not_le _ _ H Ev). }
        rewrite (not_Qle_bool _ _ Hlt). cbn. auto.
      * rewrite (not_Qle_bool _ _ Hpos). cbn. auto.
    + intros Hge.
      assert (H0 : (0 <= v)%Q) by (apply Qle_trans with photon_threshold; auto).
      rewrite (Qle_bool_true _ _ H0). cbn.
      rewrite (Qle_bool_true _ _ Hge). cbn. auto.
Qed.

Lemma reload_masks_weak_voxels_witness :
  let data := mk_ndarray 1 1 3 [- (1); 2; 5]%Q in
  let mask := mk_ndarray 1 1 3 [0; 0; 1]%Q in
  let det := mk_Detector [0; 1; 0; 3] [1; 1; 1] [1; 1; 1] in
  exists d m,
    reload_bcdi_data (Raise TypeError) (fun _ _ => Raise TypeError)
      (fun _ _ _ _ => Raise TypeError) (fun _ _ => Raise TypeError)
      data mask det (PyStr "skip") None 3
    = Ok (d, m, replicate (Z.to_nat 1) 1, replicate (Z.to_nat 1) 1%Q, det)
    /\ shape d = shape data /\ shape m = shape mask
    /\ forall i v w,
         buf data !! i = Some v -> buf mask !! i = Some w ->
         ((v < 0 \/ v < 3)%Q -> buf d !! i = Some 0%Q /\ buf m !! i = Some 1%Q)
         /\ ((3 <= v)%Q -> buf d !! i = Some v /\ buf m !! i = Some w).
Proof.
  intros data mask det.
  apply (reload_masks_weak_voxels (Raise TypeError) (fun _ _ => Raise TypeError)
           (fun _ _ _ _ => Raise TypeError) (fun _ _ => Raise TypeError)
           data mask det None 3 0 1 0 3 1);
    try reflexivity; try (cbn; lia); discriminate.
Defined.

(** ** [process_scan]: the volume of the crystal *)

Import CrystalVolume.

Lemma zip_with_diag {A B} (f : A -> A -> B) (l : list A) :
  zip_with f l l = map (fun x => f x x) l.
Proof.
  induction l as [|a l IH]; simpl; [reflexivity|]. rewrite IH. reflexivity.
Qed.

Lemma fsum_counts {A} (g : A -> pyfloat) (kept : A -> bool) (l : list A) :
  (forall a, exists z, g a = Fin z /\ (z == if kept a then 1 else 0)%Q) ->
  forall acc, exists r,
    fold_left fadd (map g l) (Fin acc) = Fin r
    /\ (r == acc + inject_Z (Z.of_nat (length (List.filter kept l))))%Q.
Proof.
  intros Hg. induction l as [|a l IH]; intros acc.
  - exists acc. split; [reflexivity|]. cbn. ring.
  - destruct (Hg a) as (z & Hz & Hv). cbn [map fold_left List.filter].
    rewrite Hz. cbn [fadd].
    destruct (IH (acc + z)%Q) as (r & Hr & Hsum).
    exists r. split; [exact Hr|]. rewrite Hsum, Hv.
    destruct (kept a); cbn [length].
    + rewrite Nat2Z.inj_succ. unfold Z.succ. rewrite inject_Z_plus. ring.
    + ring.
Qed.

(** X21.  The estimate of the volume of the crystal, whatever the rounding
    of the division by the maximum: the volume of one voxel times the
    number of voxels whose computed quotient [amp / amp.max()] is not below
    [isosurface_strain] and is not zero. *)
Theorem crystal_volume_counts_voxels (divide : Q -> Q -> pyfloat)
    (amp : list Q) (isosurface_strain : Q) (voxel_size : list Q) (m v : Q) :
  amax amp = Ok m -> reduce_mul voxel_size = Ok v ->
  exists r,
    crystal_volume divide amp isosurface_strain voxel_size = Ok (Fin r)
    /\ (r == inject_Z (Z.of_nat (length
               (List.filter
                  (fun a => negb (lt_float (divide a m) isosurface_strain)
                            && nonzero (divide a m)) amp))) * v)%Q.
Proof.
  intros Hm Hv. unfold crystal_volume. rewrite Hm.
  cbn [mbind result_bind]. cbv zeta.
  rewrite where_set_map by reflexivity. cbn [mbind result_bind].
  rewrite where_set_map by reflexivity. cbn [mbind result_bind].
  rewrite Hv. cbn [mbind result_bind].
  rewrite !zip_with_diag, !map_map. unfold fsum.
  match goal with
  | |- context [fold_left fadd (map ?g amp) (Fin 0)] =>
      destruct (fsum_counts g
                  (fun a => negb (lt_float (divide a m) isosurface_strain)
                            && nonzero (divide a m)) amp) with (acc := 0%Q)
        as (r & Hr & Hsum)
  end.
  - intros a. destruct (lt_float (divide a m) isosurface_strain);
      cbn [negb andb].
    + change (nonzero (Fin 0)) with false. cbn iota.
      eexists. split; [reflexivity|]. reflexivity.
    + destruct (divide a m) as [q| | |]; cbn [nonzero];
        try (eexists; split; reflexivity).
      destruct (Qeq_bool q 0) eqn:E; cbn [negb].
      * eexists. split; [reflexivity|]. apply Qeq_bool_iff. exact E.
      * eexists. split; reflexivity.
  - rewrite Hr. cbn [fmul]. eexists. split; [reflexivity|].
    rewrite Hsum. ring.
Qed.

Lemma crystal_volume_counts_voxels_witness :
  exists r,
    crystal_volume divide_tenth [1; 10; 0; 4]%Q tenth [2; 3; 5]%Q
    = Ok (Fin r)
    /\ (r == 90)%Q.
Proof.
  destruct (crystal_volume_counts_voxels divide_tenth [1; 10; 0; 4]%Q tenth
              [2; 3; 5]%Q 10 30 eq_refl eq_refl) as (r & Hr & Hc).
  exists r. split; [exact Hr|]. rewrite Hc. reflexivity.
Defined.
